(** * model_organization.config: configuration and experiment bookkeeping

    A shallow embedding of [model_organization/config.py]: the locked file
    I/O ([safe_load], [safe_dump]), the path normalizer
    ([ExperimentsConfig.fix_paths], [ExperimentsConfig.rel_paths]), the
    two registries ([ProjectsConfig], [ExperimentsConfig]) with their
    pickling, the choice of the configuration directory
    ([get_configdir]) and the configuration of one organizer ([Config]).

    Python objects are values of [pyval]; an [OrderedDict] is an association
    list in insertion order with unique keys; an exception is a constructor of
    [exn]; a function that mutates its argument in place returns the state of
    that argument after the call together with the exception it raised, if
    any, so that a partial mutation before a [raise] stays visible to
    whoever holds the object. Methods of the registries run in a state and
    error monad over the file store and the object itself.

    Dictionaries are those of CPython 3.7 and later: [dict(self)] and
    [OrderedDict(self)] read every value of a subclass through its
    [__getitem__], the views [items()] and [values()] do not.

    The environment is modelled as far as the code consults it: [os.path]
    on POSIX, a file store keyed by path strings together with the trace
    of the operations performed on it, the YAML codec as a pair of inverse
    functions on [pyval], and [fasteners.InterProcessLock] as a lock that
    the single process at hand always obtains. *)

From Stdlib Require Import ZArith Ascii String List Lia.
From stdpp Require Import base option list strings gmap.

Set Warnings "-register-all".
Local Open Scope string_scope.

(** ** Python values *)

(** The values a YAML document is made of, plus [Archive], the [str]
    subclass of the module carrying [project] and [time] attributes.
    Floating point scalars are left out. *)
Inductive pyval : Type :=
| PNone
| PBool (b : bool)
| PInt (z : Z)
| PStr (s : string)
| PArchive (s : string) (project time : pyval)
| PList (l : list pyval)
| PDict (items : list (string * pyval)).

Inductive exn : Type :=
| KeyError
| TypeError
| IndexError
| ValueError
| AttributeError
| IOError
| YAMLError.

Inductive result (A : Type) : Type :=
| Ok (a : A)
| Raise (e : exn).
Arguments Ok {A} a.
Arguments Raise {A} e.

#[global] Instance exn_eq_dec : EqDecision exn.
Proof. solve_decision. Defined.

#[global] Instance result_ret : MRet result := fun _ a => Ok a.
#[global] Instance result_bind : MBind result :=
  fun _ _ f m => match m with Ok a => f a | Raise e => Raise e end.

(** [isinstance(v, six.string_types)]: [Archive] subclasses the text type. *)
Definition isinstance_str (v : pyval) : bool :=
  match v with PStr _ | PArchive _ _ _ => true | _ => false end.

(** [isinstance(v, dict)]: [OrderedDict] subclasses [dict]. *)
Definition isinstance_dict (v : pyval) : bool :=
  match v with PDict _ => true | _ => false end.

Definition isinstance_Archive (v : pyval) : bool :=
  match v with PArchive _ _ _ => true | _ => false end.

(** [os.fspath] on a value: the text of a string, [TypeError] otherwise. *)
Definition fspath (v : pyval) : result string :=
  match v with
  | PStr s | PArchive s _ _ => Ok s
  | _ => Raise TypeError
  end.

(** Truth value of an object ([not v] is its negation). *)
Definition truthy (v : pyval) : bool :=
  match v with
  | PNone => false
  | PBool b => b
  | PInt z => negb (Z.eqb z 0)
  | PStr s | PArchive s _ _ => negb (bool_decide (s = ""))
  | PList l => negb (bool_decide (l = []))
  | PDict items => negb (bool_decide (items = []))
  end.

(** Lookup in an ordered dictionary with string keys. *)
Fixpoint assoc {A : Type} (k : string) (items : list (string * A)) : option A :=
  match items with
  | [] => None
  | (k', v) :: rest => if bool_decide (k = k') then Some v else assoc k rest
  end.

(** [d[k] = v] on an ordered dictionary: an existing key keeps its
    position, a new key goes to the end. *)
Fixpoint assoc_set {A : Type} (k : string) (v : A) (items : list (string * A))
  : list (string * A) :=
  match items with
  | [] => [(k, v)]
  | (k', v') :: rest =>
    if bool_decide (k = k') then (k, v) :: rest
    else (k', v') :: assoc_set k v rest
  end.

(** [d[key]] where [d] is a dictionary with string keys and [key] any
    object: an unhashable key is a [TypeError], a missing one a
    [KeyError]. *)
Definition dict_getitem (items : list (string * pyval)) (key : pyval) : result pyval :=
  match key with
  | PList _ | PDict _ => Raise TypeError
  | PStr s | PArchive s _ _ =>
    match assoc s items with Some v => Ok v | None => Raise KeyError end
  | _ => Raise KeyError
  end.

(** [v[name]] for a string [name] on an arbitrary object. *)
Definition subscript_str (v : pyval) (name : string) : result pyval :=
  match v with
  | PDict items => dict_getitem items (PStr name)
  | _ => Raise TypeError
  end.

(** [v[0]]. *)
Definition subscript_0 (v : pyval) : result pyval :=
  match v with
  | PList (x :: _) => Ok x
  | PList [] => Raise IndexError
  | PStr (String c _) | PArchive (String c _) _ _ => Ok (PStr (String c ""))
  | PStr "" | PArchive "" _ _ => Raise IndexError
  | PDict _ => Raise KeyError
  | _ => Raise TypeError
  end.

(** [v.items()]. *)
Definition items_of (v : pyval) : result (list (string * pyval)) :=
  match v with
  | PDict items => Ok items
  | _ => Raise AttributeError
  end.

(** [c[k] = v] for a string [k] on an arbitrary object. *)
Definition setitem_str (c : pyval) (k : string) (v : pyval) : result pyval :=
  match c with
  | PDict items => Ok (PDict (assoc_set k v items))
  | _ => Raise TypeError
  end.

(** ** [os.path] on POSIX *)

Module osp.

Definition sep : ascii := "/"%char.

Definition startswith_sep (s : string) : bool :=
  match s with
  | String c _ => bool_decide (c = sep)
  | _ => false
  end.

Fixpoint endswith_sep (s : string) : bool :=
  match s with
  | "" => false
  | String c "" => bool_decide (c = sep)
  | String _ s' => endswith_sep s'
  end.

Definition isabs (s : string) : bool := startswith_sep s.

(** One step of [join(a, *p)]. *)
Definition join2 (path b : string) : string :=
  if startswith_sep b then b
  else if bool_decide (path = "") || endswith_sep path then path ++ b
  else path ++ "/" ++ b.

Definition join (a : string) (p : list string) : string := fold_left join2 p a.

(** [s.split('/')]. *)
Fixpoint split (s : string) : list string :=
  match s with
  | "" => [""]
  | String c s' =>
    if bool_decide (c = sep) then "" :: split s'
    else match split s' with
         | h :: t => String c h :: t
         | [] => [String c ""]
         end
  end.

(** ['/'.join(comps)]. *)
Fixpoint sepjoin (comps : list string) : string :=
  match comps with
  | [] => ""
  | [c] => c
  | c :: rest => c ++ "/" ++ sepjoin rest
  end.

(** The body of the loop of [normpath] over the components;
    [abs] is [initial_slashes] seen as a truth value. *)
Definition normpath_step (abs : bool) (new_comps : list string) (comp : string)
  : list string :=
  if bool_decide (comp = "") || bool_decide (comp = ".") then new_comps
  else if negb (bool_decide (comp = ".."))
          || (negb abs && bool_decide (new_comps = []))
          || (negb (bool_decide (new_comps = []))
              && bool_decide (last new_comps = Some ".."))
       then (new_comps ++ [comp])%list
       else removelast new_comps.

Definition initial_slashes (path : string) : nat :=
  match path with
  | String c1 (String c2 (String c3 _)) =>
    if bool_decide (c1 = sep) then
      if bool_decide (c2 = sep) && negb (bool_decide (c3 = sep)) then 2 else 1
    else 0
  | String c1 (String c2 "") =>
    if bool_decide (c1 = sep) then if bool_decide (c2 = sep) then 2 else 1
    else 0
  | String c1 "" => if bool_decide (c1 = sep) then 1 else 0
  | "" => 0
  end.

Fixpoint slashes (n : nat) : string :=
  match n with O => "" | S n' => String sep (slashes n') end.

Definition normpath (path : string) : string :=
  if bool_decide (path = "") then "."
  else
    let n := initial_slashes path in
    let comps := fold_left (normpath_step (negb (Nat.eqb n 0))) (split path) [] in
    let path' := slashes n ++ sepjoin comps in
    if bool_decide (path' = "") then "." else path'.

(** [abspath]; [cwd] is what [os.getcwd()] returns. *)
Definition abspath (cwd path : string) : string :=
  normpath (if isabs path then path else join cwd [path]).

(** The longest common prefix of two sequences, which is what
    [commonprefix] computes on a list of two sequences. *)
Fixpoint commonprefix (a b : list string) : list string :=
  match a, b with
  | x :: a', y :: b' => if bool_decide (x = y) then x :: commonprefix a' b' else []
  | _, _ => []
  end.

Definition nonempty_comps (s : string) : list string :=
  filter (fun x => x <> "") (split s).

(** [relpath(path, start)]; [start] is [None] or any other object. *)
Definition relpath (cwd : string) (path start : pyval) : result string :=
  if negb (truthy path) then Raise ValueError
  else
    path ← fspath path;
    start ← (match start with PNone => Ok "." | _ => fspath start end);
    let start_list := nonempty_comps (abspath cwd start) in
    let path_list := nonempty_comps (abspath cwd path) in
    let i := length (commonprefix start_list path_list) in
    let rel_list := (repeat ".." (length start_list - i) ++ drop i path_list)%list in
    match rel_list with
    | [] => Ok "."
    | c :: rest => Ok (join c rest)
    end.

(** [isabs(v)] on an object. *)
Definition isabs_val (v : pyval) : result bool :=
  s ← fspath v; Ok (isabs s).

(** [join(a, b)] on objects: an absolute [b] is returned as it is. *)
Definition join_val (a b : pyval) : result pyval :=
  a' ← fspath a; b' ← fspath b;
  Ok (if startswith_sep b' then b else PStr (join a' [b'])).

(** [relpath(path, start)] as an object. *)
Definition relpath_val (cwd : string) (path start : pyval) : result pyval :=
  s ← relpath cwd path start; Ok (PStr s).

Fixpoint has_sep (s : string) : bool :=
  match s with
  | "" => false
  | String c s' => bool_decide (c = sep) || has_sep s'
  end.

(** [p[:p.rfind('/') + 1]]. *)
Fixpoint head_of (p : string) : string :=
  match p with
  | "" => ""
  | String c p' =>
    if bool_decide (c = sep) || has_sep p' then String c (head_of p') else ""
  end.

(** [p[p.rfind('/') + 1:]]. *)
Fixpoint basename (p : string) : string :=
  match p with
  | "" => ""
  | String c p' => if has_sep (String c p') then basename p' else String c p'
  end.

Fixpoint all_sep (s : string) : bool :=
  match s with
  | "" => true
  | String c s' => bool_decide (c = sep) && all_sep s'
  end.

(** [s.rstrip('/')]. *)
Fixpoint rstrip_sep (s : string) : string :=
  match s with
  | "" => ""
  | String c s' =>
    match rstrip_sep s' with
    | "" => if bool_decide (c = sep) then "" else String c ""
    | r => String c r
    end
  end.

Definition dirname (p : string) : string :=
  let head := head_of p in
  if negb (bool_decide (head = "")) && negb (all_sep head)
  then rstrip_sep head else head.

Definition extsep : ascii := "."%char.

Fixpoint has_dot (s : string) : bool :=
  match s with
  | "" => false
  | String c s' => bool_decide (c = extsep) || has_dot s'
  end.

(** [s[:s.rfind('.')]] for a string with a dot. *)
Fixpoint upto_last_dot (s : string) : string :=
  match s with
  | "" => ""
  | String c s' => if has_dot s' then String c (upto_last_dot s') else ""
  end.

(** [splitext(name)[0]] for a file name without separator: the
    extension starts at the last dot, provided a character other than a
    dot comes before it. *)
Fixpoint splitext_root (name : string) : string :=
  match name with
  | "" => ""
  | String c s' =>
    if bool_decide (c = extsep) then String c (splitext_root s')
    else if has_dot s' then upto_last_dot name else name
  end.

(** [s.endswith(suffix)]. *)
Fixpoint endswith (s suffix : string) : bool :=
  bool_decide (s = suffix)
  || match s with "" => false | String _ s' => endswith s' suffix end.

End osp.

(** ** [model_organization.utils] *)

Module utils.

(** Modelled from the spec: [utils.safe_list] lives in
    [model_organization/utils.py], which is not among the sources at hand.
    The path normalizer takes a path-like value to be "a single path string,
    or a sequence whose first element is a path string" and tests
    [safe_list(val)[0]]: the helper turns any value into a list, a string or
    a value that cannot be iterated being put into a list of its own, a
    sequence being copied and a mapping giving its keys. *)
Definition safe_list (l : pyval) : list pyval :=
  match l with
  | PList xs => xs
  | PDict items => map (fun kv => PStr (fst kv)) items
  | _ => [l]
  end.

End utils.

(** ** The path normalizer *)

(** [ExperimentsConfig.paths]. *)
Definition paths : list string :=
  ["expdir"; "src"; "data"; "input"; "outdata"; "outdir";
   "plot_output"; "project_output"].

(** The first lines of [fix_paths] and [rel_paths]: which root and which
    project the call works with. [projects] is [self.projects]. *)
Definition resolve_root (projects items : list (string * pyval))
    (root project : pyval) : result (pyval * pyval) :=
  match root, project with
  | PNone, PNone =>
    let project := default PNone (assoc "project" items) in
    match project with
    | PNone =>
      root ← dict_getitem items (PStr "root"); Ok (root, project)
    | _ =>
      p ← dict_getitem projects project;
      root ← subscript_str p "root"; Ok (root, project)
    end
  | PNone, _ =>
    p ← dict_getitem projects project;
    root ← subscript_str p "root"; Ok (root, project)
  | _, _ => Ok (root, project)
  end.

(** [for i in range(len(val)): val[i] = f(val[i])] on a list: the
    elements before the one on which [f] raises stay rewritten. *)
Fixpoint rewrite_each (f : pyval → result pyval) (l : list pyval)
  : list pyval * option exn :=
  match l with
  | [] => ([], None)
  | x :: rest =>
    match f x with
    | Raise e => (x :: rest, Some e)
    | Ok x' => let '(rest', e) := rewrite_each f rest in (x' :: rest', e)
    end
  end.

(** The same loop on any object that passed the tests before it: a string
    has no item assignment. *)
Definition rewrite_items (f : pyval → result pyval) (val : pyval)
  : pyval * option exn :=
  match val with
  | PList l => let '(l', e) := rewrite_each f l in (PList l', e)
  | _ => (val, Some TypeError)
  end.

(** [isinstance(v, six.string_types) and not osp.isabs(v)] when
    [want_abs] is [false] (as in [fix_paths]),
    [isinstance(v, six.string_types) and osp.isabs(v)] when it is [true]
    (as in [rel_paths]). *)
Definition path_test (want_abs : bool) (v : pyval) : bool :=
  match v with
  | PStr s | PArchive s _ _ => Bool.eqb (osp.isabs s) want_abs
  | _ => false
  end.

(** What the body of the loop of [fix_paths] / [rel_paths] does with
    [d[key]] when [key in paths] and the value is not a dictionary:
    the new value and the exception raised, if any. [f] is
    [osp.join(root, _)], resp. [osp.relpath(_, root)]. *)
Definition rewrite_path_value (want_abs : bool) (f : pyval → result pyval)
    (val : pyval) : pyval * option exn :=
  if path_test want_abs val then
    match f val with
    | Ok val' => (val', None)
    | Raise e => (val, Some e)
    end
  else
    match utils.safe_list val with
    | [] => (val, Some IndexError)
    | x0 :: _ =>
      if isinstance_str x0 then
        match subscript_0 val with
        | Raise e => (val, Some e)
        | Ok v0 =>
          match osp.isabs_val v0 with
          | Raise e => (val, Some e)
          | Ok a =>
            if Bool.eqb a want_abs then rewrite_items f val else (val, None)
          end
        end
      else (val, None)
    end.

(** The loop [for key, val in d.items()] of both methods. [recurse] is
    the method itself, called on the values that are dictionaries;
    [on_path] is what is done with the other values under a key of
    [paths]. Each value is replaced under its own key, so the entries keep
    their order; a [raise] leaves the entries after the current one as
    they were. *)
Fixpoint rewrite_dict_items (recurse on_path : pyval → pyval * option exn)
    (its : list (string * pyval)) : list (string * pyval) * option exn :=
  match its with
  | [] => ([], None)
  | (key, val) :: rest =>
    let '(val', e) :=
      match val with
      | PDict _ => recurse val
      | _ => if bool_decide (key ∈ paths) then on_path val else (val, None)
      end in
    match e with
    | Some _ => ((key, val') :: rest, e)
    | None =>
      let '(rest', e') := rewrite_dict_items recurse on_path rest in
      ((key, val') :: rest', e')
    end
  end.

(** [ExperimentsConfig.fix_paths(d, root, project)]: the state of [d]
    after the call, and the exception raised if any; on a normal return
    the method returns [d] itself. [projects] is [self.projects]. *)
Fixpoint fix_paths (projects : list (string * pyval)) (d root project : pyval)
    {struct d} : pyval * option exn :=
  match d with
  | PDict items =>
    match resolve_root projects items root project with
    | Raise e => (d, Some e)
    | Ok (root, project) =>
      let '(items', e) :=
        rewrite_dict_items
          (fun val => fix_paths projects val root project)
          (rewrite_path_value false (osp.join_val root))
          items in
      (PDict items', e)
    end
  | _ => (d, Some AttributeError)
  end.

(** [ExperimentsConfig.rel_paths(d, root, project)], likewise; [cwd] is
    the current directory, which [osp.relpath] consults. *)
Fixpoint rel_paths (cwd : string) (projects : list (string * pyval))
    (d root project : pyval) {struct d} : pyval * option exn :=
  match d with
  | PDict items =>
    match resolve_root projects items root project with
    | Raise e => (d, Some e)
    | Ok (root, project) =>
      let '(items', e) :=
        rewrite_dict_items
          (fun val => rel_paths cwd projects val root project)
          (rewrite_path_value true (fun v => osp.relpath_val cwd v root))
          items in
      (PDict items', e)
    end
  | _ => (d, Some AttributeError)
  end.

(** ** Stateful code: a state and error monad *)

(** A computation over a state [S] that returns a value or raises; the
    state reached when it raises is kept. *)
Definition M (S A : Type) : Type := S → S * result A.

Definition ret {S A} (a : A) : M S A := fun s => (s, Ok a).

Definition raise {S A} (e : exn) : M S A := fun s => (s, Raise e).

Definition bind {S A B} (m : M S A) (k : A → M S B) : M S B :=
  fun s => match m s with
           | (s', Ok a) => k a s'
           | (s', Raise e) => (s', Raise e)
           end.

Definition of_result {S A} (r : result A) : M S A := fun s => (s, r).

Definition get {S} : M S S := fun s => (s, Ok s).

Definition modify {S} (f : S → S) : M S unit := fun s => (f s, Ok tt).

(** [try: body finally: cleanup]. *)
Definition try_finally {S A} (body : M S A) (cleanup : M S unit) : M S A :=
  fun s => match body s with
           | (s', r) =>
             match cleanup s' with
             | (s'', Ok _) => (s'', r)
             | (s'', Raise e) => (s'', Raise e)
             end
           end.

(** [for x in l: body(x)]. *)
Fixpoint for_each {S A} (l : list A) (body : A → M S unit) : M S unit :=
  match l with
  | [] => ret tt
  | x :: rest => bind (body x) (fun _ => for_each rest body)
  end.

(** A computation on the first component of a pair of states. *)
Definition on_fst {S T A} (m : M S A) : M (S * T) A :=
  fun st => match m (fst st) with (s', r) => ((s', snd st), r) end.

Definition on_snd {S T A} (m : M T A) : M (S * T) A :=
  fun st => match m (snd st) with (t', r) => ((fst st, t'), r) end.

Declare Scope M_scope.
Delimit Scope M_scope with M.
Notation "x <- m ;; k" := (bind m (fun x => k))
  (at level 100, m at next level, right associativity) : M_scope.
Notation "m ;; k" := (bind m (fun _ => k))
  (at level 100, right associativity) : M_scope.
Local Open Scope M_scope.

(** [for x in l] with the local variables of the loop in [acc]. *)
Fixpoint fold_M {S A B} (l : list A) (acc : B) (body : B → A → M S B) : M S B :=
  match l with
  | [] => ret acc
  | x :: rest => acc' <- body acc x ;; fold_M rest acc' body
  end.

(** ** The file store, the locks and the trace of what was done *)

(** What the YAML loader makes of the text of a file: a value, or a
    rejection. [ordered_yaml_load] and [ordered_yaml_dump] are taken to be
    inverse of each other on [pyval]. *)
Inductive fcontent : Type :=
| Parsed (v : pyval)
| Malformed.

Inductive node : Type :=
| File (c : fcontent)
| Dir.

Inductive event : Type :=
| EvExists (p : string)
| EvRename (src dst : string)
| EvMakedirs (p : string)
| EvOpenRead (p : string)
| EvOpenWrite (p : string)
| EvAcquire (lck : string)
| EvRelease (lck : string).

#[global] Instance event_eq_dec : EqDecision event.
Proof. solve_decision. Defined.

(** Paths are compared as they are written. [held] lists, latest first,
    the lock objects acquired and not released, each by the path of its
    lock file; the lock files themselves are not entries of [nodes].
    [trace] lists the operations in the order they happened. *)
Record world : Type := {
  nodes : gmap string node;
  cwd : string;
  held : list string;
  trace : list event;
}.

Definition log (ev : event) : M world unit :=
  modify (fun w => {| nodes := nodes w; cwd := cwd w; held := held w;
                      trace := (trace w ++ [ev])%list |}).

Definition set_nodes (f : gmap string node → gmap string node) : M world unit :=
  modify (fun w => {| nodes := f (nodes w); cwd := cwd w; held := held w;
                      trace := trace w |}).

Definition set_held (f : list string → list string) : M world unit :=
  modify (fun w => {| nodes := nodes w; cwd := cwd w; held := f (held w);
                      trace := trace w |}).

(** [osp.isdir(p)]: the empty path stands for the current directory and
    a path made of separators for the root; both are always there. *)
Definition is_dir (w : world) (p : string) : bool :=
  osp.all_sep p || match nodes w !! p with Some Dir => true | _ => false end.

(** What [osp.exists(p)] returns. *)
Definition path_exists (w : world) (p : string) : bool :=
  negb (bool_decide (p = ""))
  && (osp.all_sep p || bool_decide (is_Some (nodes w !! p))).

(** The call [osp.exists(p)]. *)
Definition exists_ (p : string) : M world bool :=
  log (EvExists p) ;; w <- get ;; ret (path_exists w p).

(** [os.rename(src, dst)]: the entry moves, replacing an entry of the
    same kind at [dst]. *)
Definition rename (src dst : string) : M world unit :=
  log (EvRename src dst) ;;
  w <- get ;;
  match nodes w !! src, nodes w !! dst with
  | None, _ => raise IOError
  | Some (File _), Some Dir => raise IOError
  | Some Dir, Some (File _) => raise IOError
  | Some n, _ => set_nodes (fun m => <[dst := n]> (delete src m))
  end.

(** The prefixes of [s] that end just before a separator. *)
Fixpoint sep_prefixes (s : string) : list string :=
  match s with
  | "" => []
  | String c s' =>
    let r := map (String c) (sep_prefixes s') in
    if bool_decide (c = osp.sep) then "" :: r else r
  end.

(** [os.makedirs(p)]: [p] and the directories above it. *)
Definition makedirs (p : string) : M world unit :=
  log (EvMakedirs p) ;;
  w <- get ;;
  let above := filter (fun q => negb (osp.all_sep q) = true) (sep_prefixes p) in
  if path_exists w p
     || existsb (fun q => match nodes w !! q with
                          | Some (File _) => true
                          | _ => false
                          end) above
  then raise IOError
  else set_nodes (fun m => foldr (fun q m => <[q := Dir]> m) m (above ++ [p])%list).

(** [with open(fname) as f: return ordered_yaml_load(f)]. *)
Definition read_yaml (fname : string) : M world pyval :=
  log (EvOpenRead fname) ;;
  w <- get ;;
  match nodes w !! fname with
  | Some (File (Parsed v)) => ret v
  | Some (File Malformed) => raise YAMLError
  | _ => raise IOError
  end.

(** [with open(fname, 'w') as f: ordered_yaml_dump(d, f)]. *)
Definition write_yaml (d : pyval) (fname : string) : M world unit :=
  log (EvOpenWrite fname) ;;
  w <- get ;;
  if bool_decide (fname = "") || is_dir w fname
     || negb (is_dir w (osp.dirname fname))
  then raise IOError
  else set_nodes (fun m => <[fname := File (Parsed d)]> m).

(** [lock = fasteners.InterProcessLock(path); lock.acquire()]: in one
    process, the call returns with the lock object held. The library
    also creates the lock file and, when it is missing, the directory of
    the lock file; neither is recorded in [nodes], so the store after a
    call is that of the program only where the directory of the lock
    file was there. *)
Definition acquire (lck : string) : M world unit :=
  log (EvAcquire lck) ;; set_held (fun h => lck :: h).

(** Removes the first occurrence. *)
Fixpoint remove_one (x : string) (l : list string) : list string :=
  match l with
  | [] => []
  | y :: rest => if bool_decide (x = y) then rest else y :: remove_one x rest
  end.

(** [lock.release()]. *)
Definition release (lck : string) : M world unit :=
  log (EvRelease lck) ;; set_held (remove_one lck).

(** [s[len(prefix):]] when [s.startswith(prefix)]. *)
Fixpoint strip_prefix (prefix s : string) : option string :=
  match prefix, s with
  | "", _ => Some s
  | String a prefix', String b s' =>
    if bool_decide (a = b) then strip_prefix prefix' s' else None
  | _, "" => None
  end.

(** [os.listdir(dir)], in the order the store gives; nothing when [dir]
    is not a directory of the store. *)
Definition listdir (w : world) (dir : string) : list string :=
  match nodes w !! dir with
  | Some Dir =>
    omap (fun p =>
            match strip_prefix (if osp.endswith_sep dir then dir else dir ++ "/") p with
            | Some name =>
              if negb (bool_decide (name = "")) && negb (osp.has_sep name)
              then Some name else None
            | None => None
            end)
         (map fst (map_to_list (nodes w)))
  | _ => []
  end.

(** [glob._ishidden]. *)
Definition ishidden (name : string) : bool :=
  match name with
  | String c _ => bool_decide (c = osp.extsep)
  | "" => false
  end.

(** [glob.glob(osp.join(dir, '*.yml'))] for a directory name [dir]
    without wildcard: the pattern does not start with a dot, so the
    hidden entries are dropped before the names are matched. *)
Definition glob_yml_in (w : world) (dir : string) : list string :=
  map (fun name => osp.join dir [name])
      (filter (fun name => negb (ishidden name) && osp.endswith name ".yml" = true)
              (listdir w dir)).

Definition glob_yml (dir : string) : M world (list string) :=
  w <- get ;; ret (glob_yml_in w dir).

(** ** Locked file I/O *)

(** [safe_load(fname)]; [fname + '.lck'] is a [TypeError] unless
    [fname] is a string. *)
Definition safe_load (fname : pyval) : M world pyval :=
  name <- of_result (fspath fname) ;;
  let lck := name ++ ".lck" in
  acquire lck ;;
  try_finally (read_yaml name) (release lck).

(** [safe_dump(d, fname)]. *)
Definition safe_dump (d : pyval) (fname : string) : M world unit :=
  e <- exists_ fname ;;
  (if e then rename fname (fname ++ "~") else ret tt) ;;
  let lck := fname ++ ".lck" in
  acquire lck ;;
  try_finally (write_yaml d fname) (release lck).

(** ** The registries *)

(** A key of the [defaultdict] behind [project_map]: hashable objects up
    to the equality of Python ([True == 1], an [Archive] equals its
    text). *)
Inductive hkey : Type :=
| KNone
| KInt (z : Z)
| KStr (s : string).

#[global] Instance hkey_eq_dec : EqDecision hkey.
Proof. solve_decision. Defined.

#[global] Program Instance hkey_countable : Countable hkey :=
  inj_countable'
    (fun k => match k with
              | KNone => inl tt
              | KInt z => inr (inl z)
              | KStr s => inr (inr s)
              end)
    (fun x => match x with
              | inl _ => KNone
              | inr (inl z) => KInt z
              | inr (inr s) => KStr s
              end) _.
Next Obligation. by intros []. Qed.

Definition to_hkey (v : pyval) : result hkey :=
  match v with
  | PNone => Ok KNone
  | PBool b => Ok (KInt (Z.b2z b))
  | PInt z => Ok (KInt z)
  | PStr s | PArchive s _ _ => Ok (KStr s)
  | PList _ | PDict _ => Raise TypeError
  end.

Module ProjectsConfig.

(** The object: the [OrderedDict] itself and its attributes. *)
Record t : Type := {
  items : list (string * pyval);
  conf_dir : string;
  project_paths : pyval;
}.

Definition all_projects (self : t) : string :=
  osp.join (conf_dir self) ["projects.yml"].

(** [ProjectsConfig(conf_dir, d)]. *)
Definition __init__ (conf_dir : string) (d : option (list (string * pyval)))
  : M world t :=
  let fname := osp.join conf_dir ["projects.yml"] in
  e <- exists_ fname ;;
  project_paths <- (if e then safe_load (PStr fname) else ret (PDict [])) ;;
  items_ <-
    match d with
    | Some d_items =>
      ret (fold_left (fun r kv => assoc_set (fst kv) (snd kv) r) d_items [])
    | None =>
      paths_ <- of_result (items_of project_paths) ;;
      fold_M paths_ []
        (fun self_items pp =>
           let '(project, path) := pp in
           base <- of_result (fspath path) ;;
           doc <- safe_load (PStr (osp.join base [".project"; ".project.yml"])) ;;
           ret (assoc_set project doc self_items))
    end ;;
  ret {| items := items_; conf_dir := conf_dir; project_paths := project_paths |}.

(** The loop of [save] on one entry; [project_paths'] is the local
    variable [project_paths], [project_paths self] the attribute. *)
Definition save_one (self : t) (project_paths' : pyval)
    (kv : string * pyval) : M world pyval :=
  let '(project, d) := kv in
  match d with
  | PDict d_items =>
    project_path <- of_result (dict_getitem d_items (PStr "root")) ;;
    root <- of_result (fspath project_path) ;;
    let fname := osp.join root [".project"; ".project.yml"] in
    e <- exists_ (osp.dirname fname) ;;
    (if negb e then makedirs (osp.dirname fname) else ret tt) ;;
    e <- exists_ fname ;;
    (if e then rename fname (fname ++ "~") else ret tt) ;;
    safe_dump d fname ;;
    of_result (setitem_str project_paths' project project_path)
  | _ =>
    of_result (subscript_str (project_paths self) project)
  end.

Definition save : M (world * t) unit :=
  self <- on_snd get ;;
  project_paths' <- on_fst (fold_M (items self) (PDict []) (save_one self)) ;;
  on_snd (modify (fun self => {| items := items self;
                                 conf_dir := conf_dir self;
                                 project_paths := project_paths' |})) ;;
  on_fst (safe_dump project_paths' (all_projects self)).

(** [__reduce__]: the arguments [(conf_dir, OrderedDict(self))] that
    [pickle] hands to the class when it rebuilds the object; the copy
    holds the stored values as they are. *)
Definition __reduce__ (self : t) : string * list (string * pyval) :=
  (conf_dir self, items self).

End ProjectsConfig.

Module ExperimentsConfig.

(** The object: the [OrderedDict] itself and its attributes. *)
Record t : Type := {
  items : list (string * pyval);
  projects : ProjectsConfig.t;
  _project_map : gmap hkey (list string);
}.

Definition set_items (f : list (string * pyval) → list (string * pyval))
  : M t unit :=
  modify (fun self => {| items := f (items self);
                         projects := projects self;
                         _project_map := _project_map self |}).

(** [if key not in self._project_map[k]: self._project_map[k].append(key)]. *)
Definition map_append (k : hkey) (key : string) (m : gmap hkey (list string))
  : gmap hkey (list string) :=
  if bool_decide (key ∈ default [] (m !! k)) then m
  else <[k := (default [] (m !! k) ++ [key])%list]> m.

Definition index_under (k : hkey) (key : string) : M t unit :=
  modify (fun self => {| items := items self;
                         projects := projects self;
                         _project_map := map_append k key (_project_map self) |}).

Definition exp_file (self : t) : string :=
  osp.join (ProjectsConfig.conf_dir (projects self)) ["experiments.yml"].

(** The body of the loop of [project_map] on one entry of
    [self.items()]. *)
Definition index_entry (kv : string * pyval) : M t unit :=
  let '(key, val) := kv in
  match val with
  | PDict d =>
    p <- of_result (dict_getitem d (PStr "project")) ;;
    k <- of_result (to_hkey p) ;;
    index_under k key
  | PArchive _ project _ =>
    k <- of_result (to_hkey project) ;;
    index_under k key
  | _ => ret tt
  end.

(** The property [project_map]; [self.items()] gives the stored values
    as they are, without realizing anything. *)
Definition project_map : M t (gmap hkey (list string)) :=
  self <- get ;;
  for_each (items self) index_entry ;;
  self <- get ;;
  ret (_project_map self).

Definition __setitem__ (key : string) (val : pyval) : M t unit :=
  (if isinstance_Archive val then project_map ;; ret tt else ret tt) ;;
  set_items (assoc_set key val).

(** The body of the loop of [exp_files] over the files of one project. *)
Definition scan_file (project config_path : string)
    (ret_ : list (string * pyval)) (fname : string)
  : M (world * t) (list (string * pyval)) :=
  if bool_decide (fname = ".project.yml") then ret ret_
  else
    let exp := osp.splitext_root (osp.basename fname) in
    let ret_ :=
      if negb (isinstance_Archive (default PNone (assoc exp ret_)))
      then assoc_set exp (PStr (osp.join config_path [exp ++ ".yml"])) ret_
      else ret_ in
    on_snd (index_under (KStr project) exp) ;;
    ret ret_.

(** The body of the loop of [exp_files] over [self.projects.items()]. *)
Definition scan_project (ret_ : list (string * pyval)) (pd : string * pyval)
  : M (world * t) (list (string * pyval)) :=
  let '(project, d) := pd in
  project_path <- of_result (subscript_str d "root") ;;
  root <- of_result (fspath project_path) ;;
  let config_path := osp.join root [".project"] in
  e <- on_fst (exists_ config_path) ;;
  if negb e then ret ret_
  else
    fnames <- on_fst (glob_yml config_path) ;;
    fold_M fnames ret_ (scan_file project config_path).

(** The property [exp_files]. *)
Definition exp_files : M (world * t) (list (string * pyval)) :=
  self <- on_snd get ;;
  let exp_file := exp_file self in
  e <- on_fst (exists_ exp_file) ;;
  ret0 <- (if e then
             loaded <- on_fst (safe_load (PStr exp_file)) ;;
             index <- of_result (items_of loaded) ;;
             ret (fold_left (fun r kv => assoc_set (fst kv) (snd kv) r) index [])
           else ret []) ;;
  fold_M (ProjectsConfig.items (projects self)) ret0 scan_project.

(** [ExperimentsConfig(projects, d, project_map)]. *)
Definition __init__ (projects : ProjectsConfig.t)
    (d : option (list (string * pyval)))
    (project_map : option (gmap hkey (list string))) : M world t :=
  fun w =>
    let self := {| items := []; projects := projects;
                   _project_map := default ∅ project_map |} in
    let body : M (world * t) unit :=
      if negb (bool_decide (ProjectsConfig.items projects = [])) then
        match d with
        | Some d_items =>
          for_each d_items (fun kv => on_snd (__setitem__ (fst kv) (snd kv)))
        | None =>
          found <- exp_files ;;
          for_each found (fun kv => on_snd (__setitem__ (fst kv) (snd kv)))
        end
      else ret tt in
    match body (w, self) with
    | ((w', self'), Ok _) => (w', Ok self')
    | ((w', _), Raise e) => (w', Raise e)
    end.

(** [self[attr]]. The object bound to [d] is the one stored under
    [attr]: what [fix_paths] does to it in place, up to a [raise], is
    what the registry holds afterwards. *)
Definition __getitem__ (attr : string) : M (world * t) pyval :=
  self <- on_snd get ;;
  match assoc attr (items self) with
  | None => raise KeyError
  | Some ret_ =>
    if negb (isinstance_dict ret_ || isinstance_Archive ret_) then
      let fname := ret_ in
      d <- on_fst (safe_load fname) ;;
      on_snd (__setitem__ attr d) ;;
      if isinstance_dict d then
        self <- on_snd get ;;
        let '(d', e) := fix_paths (ProjectsConfig.items (projects self)) d PNone PNone in
        on_snd (set_items (assoc_set attr d')) ;;
        match e with
        | Some e => raise e
        | None => ret d'
        end
      else ret d
    else ret ret_
  end.

(** [dict(self)] and [OrderedDict(self)]: the copy is filled key by
    key with [self[key]], so every value is read through [__getitem__]
    and every pending reference is realized (CPython 3.7 and later; the
    views [self.items()] and [self.values()] give the stored values as
    they are). *)
Definition copy_realized : M (world * t) (list (string * pyval)) :=
  self <- on_snd get ;;
  fold_M (map fst (items self)) []
    (fun acc key => v <- __getitem__ key ;; ret (assoc_set key v acc)).

(** The first loop of [save], on one entry of [dict(self).items()]: [d]
    is the object the registry holds under [exp], so what [rel_paths]
    does to it in place shows in the registry. *)
Definition save_one (kv : string * pyval) : M (world * t) unit :=
  let '(exp, d) := kv in
  match d with
  | PDict d_items =>
    self <- on_snd get ;;
    p <- of_result (dict_getitem d_items (PStr "project")) ;;
    pd <- of_result (dict_getitem (ProjectsConfig.items (projects self)) p) ;;
    project_path <- of_result (subscript_str pd "root") ;;
    w <- on_fst get ;;
    let '(d', e) := rel_paths (cwd w) (ProjectsConfig.items (projects self)) d PNone PNone in
    on_snd (set_items (assoc_set exp d')) ;;
    match e with
    | Some e => raise e
    | None =>
      root <- of_result (fspath project_path) ;;
      let fname := osp.join root [".project"; exp ++ ".yml"] in
      e <- on_fst (exists_ (osp.dirname fname)) ;;
      (if negb e then on_fst (makedirs (osp.dirname fname)) else ret tt) ;;
      on_fst (safe_dump d' fname)
    end
  | _ => ret tt
  end.

(** What [save] writes to the master index. *)
Definition master_index (self_items : list (string * pyval)) : pyval :=
  PDict (map (fun kv => (fst kv, if isinstance_Archive (snd kv) then snd kv else PNone))
             self_items).

(** [save]. *)
Definition save : M (world * t) unit :=
  copy <- copy_realized ;;
  for_each copy save_one ;;
  self <- on_snd get ;;
  let exp_file := exp_file self in
  let lck := exp_file ++ ".lck" in
  on_fst (acquire lck) ;;
  on_fst (safe_dump (master_index (items self)) exp_file) ;;
  on_fst (release lck).

(** [load]: [for key in self: self[key]]. *)
Definition load : M (world * t) unit :=
  self <- on_snd get ;;
  for_each (map fst (items self)) (fun key => __getitem__ key ;; ret tt).

(** [__reduce__]: the arguments
    [(self.projects, OrderedDict(self), self._project_map)] that [pickle]
    hands to the class when it rebuilds the object. [self._project_map]
    is the object that the reads before it may have updated. *)
Definition __reduce__
  : M (world * t) (ProjectsConfig.t * list (string * pyval) * gmap hkey (list string)) :=
  self <- on_snd get ;;
  let projects_ := projects self in
  d <- copy_realized ;;
  self <- on_snd get ;;
  ret (projects_, d, _project_map self).

End ExperimentsConfig.

(** ** The configuration directory *)

(** What [os.path.expanduser("~")] does: it returns a path, or it needs
    the password database and raises, [ImportError] where the module
    [pwd] is missing, another exception otherwise. *)
Inductive expansion : Type :=
| Expanded (path : string)
| NoPwdModule
| ExpansionRaises (e : exn).

(** The environment of the process as far as the module consults it:
    [os.environ], [sys.platform], the case mapping behind [str.upper]
    and the home directory that [expanduser] finds. *)
Record osenv : Type := {
  environ : gmap string string;
  platform : string;
  str_upper : string → string;
  expanduser_home : expansion;
}.

(** [os.path.isdir(p)]; nothing is at the empty path. *)
Definition isdir (p : string) : M world bool :=
  w <- get ;; ret (negb (bool_decide (p = "")) && is_dir w p).

(** The loop of [_get_home] over the environment variables. *)
Fixpoint first_dir (env : osenv) (evars : list string) : M world (option string) :=
  match evars with
  | [] => ret None
  | evar :: rest =>
    match environ env !! evar with
    | Some path =>
      e <- isdir path ;;
      if e then ret (Some path) else first_dir env rest
    | None => first_dir env rest
    end
  end.

(** [_get_home()]. Under Python 2 on Windows the expansion of ["~"] is
    worked out on bytes and decoded; it is the same text. *)
Definition _get_home (env : osenv) : M world (option string) :=
  found <- match expanduser_home env with
           | Expanded path => e <- isdir path ;; ret (if e then Some path else None)
           | NoPwdModule => ret None
           | ExpansionRaises e => raise e
           end ;;
  match found with
  | Some path => ret (Some path)
  | None => first_dir env ["HOME"; "USERPROFILE"; "TMP"]
  end.

(** [s.startswith(prefix)]. *)
Definition startswith (s prefix : string) : bool :=
  bool_decide (is_Some (strip_prefix prefix s)).

(** [get_configdir(name)]; [os.path.exists(None)] is a [TypeError]. *)
Definition get_configdir (env : osenv) (name : string) : M world string :=
  match environ env !! (str_upper env name ++ "CONFIGDIR") with
  | Some configdir => w <- get ;; ret (osp.abspath (cwd w) configdir)
  | None =>
    h <- _get_home env ;;
    let p :=
      match h with
      | Some h' =>
        if startswith (platform env) "linux" || startswith (platform env) "darwin"
        then Some (osp.join h' [".config/" ++ name])
        else Some (osp.join h' ["." ++ name])
      | None => None
      end in
    match p with
    | None => raise TypeError
    | Some p' =>
      e <- exists_ p' ;;
      (if negb e then makedirs p' else ret tt) ;;
      ret p'
    end
  end.

(** ** The configuration of one model organizer *)

Module Config.

(** The object. [self.projects] and [self.experiments.projects] are one
    and the same [ProjectsConfig]: it is kept once, inside
    [experiments]. *)
Record t : Type := {
  name : string;
  conf_dir : string;
  experiments : ExperimentsConfig.t;
  _globals_file : string;
  global_config : pyval;
}.

Definition projects (self : t) : ProjectsConfig.t :=
  ExperimentsConfig.projects (experiments self).

Definition set_experiments (self : t) (e : ExperimentsConfig.t) : t :=
  {| name := name self; conf_dir := conf_dir self; experiments := e;
     _globals_file := _globals_file self; global_config := global_config self |}.

Definition set_projects (self : t) (p : ProjectsConfig.t) : t :=
  set_experiments self
    {| ExperimentsConfig.items := ExperimentsConfig.items (experiments self);
       ExperimentsConfig.projects := p;
       ExperimentsConfig._project_map := ExperimentsConfig._project_map (experiments self) |}.

(** A method of [self.projects], resp. of [self.experiments], run on the
    attribute of the configuration. *)
Definition on_projects {A} (m : M (world * ProjectsConfig.t) A) : M (world * t) A :=
  fun st => match m (fst st, projects (snd st)) with
            | ((w', p'), r) => ((w', set_projects (snd st) p'), r)
            end.

Definition on_experiments {A} (m : M (world * ExperimentsConfig.t) A) : M (world * t) A :=
  fun st => match m (fst st, experiments (snd st)) with
            | ((w', e'), r) => ((w', set_experiments (snd st) e'), r)
            end.

(** [Config(name)]. *)
Definition __init__ (env : osenv) (name_ : string) : M world t :=
  conf_dir_ <- get_configdir env name_ ;;
  projects_ <- ProjectsConfig.__init__ conf_dir_ None ;;
  experiments_ <- ExperimentsConfig.__init__ projects_ None None ;;
  let globals_file := osp.join conf_dir_ ["globals.yml"] in
  e <- exists_ globals_file ;;
  global_config_ <- (if e then safe_load (PStr globals_file) else ret (PDict [])) ;;
  ret {| name := name_; conf_dir := conf_dir_; experiments := experiments_;
         _globals_file := globals_file; global_config := global_config_ |}.

(** [save]. *)
Definition save : M (world * t) unit :=
  on_projects ProjectsConfig.save ;;
  on_experiments ExperimentsConfig.save ;;
  self <- on_snd get ;;
  on_fst (safe_dump (global_config self) (_globals_file self)).

End Config.

(** ** Notions used to state the properties *)

(** The operations performed by a computation started in [w]. *)
Definition events_of {A} (m : M world A) (w : world) : list event :=
  drop (length (trace w)) (trace (fst (m w))).

(** Whether an operation on the file store touches [path]. *)
Definition touches (path : string) (ev : event) : bool :=
  match ev with
  | EvExists p | EvMakedirs p | EvOpenRead p | EvOpenWrite p =>
    bool_decide (p = path)
  | EvRename src dst => bool_decide (src = path) || bool_decide (dst = path)
  | EvAcquire _ | EvRelease _ => false
  end.

(** Whether every operation of [tr] that touches [path] happens while
    the lock [lck] is held; [n] counts the acquisitions of [lck] not yet
    released when [tr] starts. *)
Fixpoint under_lock (lck path : string) (n : nat) (tr : list event) : bool :=
  match tr with
  | [] => true
  | EvAcquire l :: rest =>
    under_lock lck path (if bool_decide (l = lck) then S n else n) rest
  | EvRelease l :: rest =>
    under_lock lck path (if bool_decide (l = lck) then pred n else n) rest
  | ev :: rest =>
    (negb (touches path ev) || negb (Nat.eqb n 0)) && under_lock lck path n rest
  end.

(** Entries related pairwise, key by key and in the same order. *)
Fixpoint entries_related (R : string → pyval → pyval → Prop)
    (its its' : list (string * pyval)) : Prop :=
  match its, its' with
  | [], [] => True
  | (key, val) :: rest, (key', val') :: rest' =>
    key' = key ∧ R key val val' ∧ entries_related R rest rest'
  | _, _ => False
  end.

(** What may happen to a value that is not a dictionary and sits under a
    key of [paths]: a string may become another string; in a sequence,
    elements that are strings may become other strings, every other
    element stays; any other value stays. *)
Definition path_value_frame (v v' : pyval) : Prop :=
  match v with
  | PStr _ | PArchive _ _ _ => isinstance_str v' = true
  | PList l =>
    ∃ l', v' = PList l'
          ∧ Forall2 (fun x x' => x' = x
                                 ∨ (isinstance_str x = true ∧ isinstance_str x' = true))
                    l l'
  | _ => v' = v
  end.

(** [v'] differs from [v] only under keys of [paths], at any depth of
    nested dictionaries: same keys in the same order, values under other
    keys and dictionaries inside sequences untouched. *)
Fixpoint only_paths_rewritten (v v' : pyval) {struct v} : Prop :=
  match v with
  | PDict items =>
    ∃ items', v' = PDict items'
              ∧ entries_related
                  (fun key val val' =>
                     match val with
                     | PDict _ => only_paths_rewritten val val'
                     | _ => if bool_decide (key ∈ paths)
                            then path_value_frame val val'
                            else val' = val
                     end)
                  items items'
  | _ => v' = v
  end.

(** A component that [normpath] keeps as it is. *)
Definition plain_comp (c : string) : bool :=
  negb (bool_decide (c = "")) && negb (bool_decide (c = "."))
  && negb (bool_decide (c = "..")).

(** A relative path in normal form: components separated by single
    slashes, none of them empty, [.] or [..]. *)
Definition plain_rel (s : string) : bool := forallb plain_comp (osp.split s).

Definition plain_rel_value (v : pyval) : Prop :=
  ∃ s, v = PStr s ∧ plain_rel s = true.

(** A value under a key of [paths] that the two rewritings take to an
    absolute path and back: a relative path in normal form, a sequence
    of such paths, or a value that neither rewriting looks into. *)
Definition relocatable_value (v : pyval) : Prop :=
  match v with
  | PStr _ => plain_rel_value v
  | PArchive _ _ _ => False
  | PList [] => False
  | PList (x :: l) =>
    if isinstance_str x then Forall plain_rel_value (x :: l) else True
  | _ => True
  end.

Fixpoint entries_all (P : string → pyval → Prop) (its : list (string * pyval)) : Prop :=
  match its with
  | [] => True
  | (key, val) :: rest => P key val ∧ entries_all P rest
  end.

(** A document all of whose path-like values are relocatable. *)
Fixpoint relocatable (v : pyval) {struct v} : Prop :=
  match v with
  | PDict items =>
    entries_all
      (fun key val =>
         match val with
         | PDict _ => relocatable val
         | _ => if bool_decide (key ∈ paths) then relocatable_value val else True
         end)
      items
  | _ => False
  end.

(** A component of a normalized path: not empty, no separator inside. *)
Definition good_comp (c : string) : Prop := c ≠ "" ∧ osp.has_sep c = false.

(** The components that [relpath] works with, for an absolute path. *)
Definition norm_comps (x : string) : list string :=
  fold_left (osp.normpath_step true) (osp.split x) [].

(** What the loop of [rewrite_dict_items] does with one entry. *)
Definition entry_step (recurse on_path : pyval → pyval * option exn)
    (key : string) (val : pyval) : pyval * option exn :=
  match val with
  | PDict _ => recurse val
  | _ => if bool_decide (key ∈ paths) then on_path val else (val, None)
  end.

(** A string object holding an absolute path. *)
Definition abs_str (v : pyval) : Prop := ∃ s, fspath v = Ok s ∧ osp.isabs s = true.

(** The project an entry of the experiments registry is indexed under,
    if any. *)
Definition entry_project (val : pyval) : result (option hkey) :=
  match val with
  | PDict d =>
    match dict_getitem d (PStr "project") with
    | Ok p => match to_hkey p with Ok k => Ok (Some k) | Raise e => Raise e end
    | Raise e => Raise e
    end
  | PArchive _ project _ =>
    match to_hkey project with Ok k => Ok (Some k) | Raise e => Raise e end
  | _ => Ok None
  end.

Definition with_map (self : ExperimentsConfig.t) (m : gmap hkey (list string))
  : ExperimentsConfig.t :=
  {| ExperimentsConfig.items := ExperimentsConfig.items self;
     ExperimentsConfig.projects := ExperimentsConfig.projects self;
     ExperimentsConfig._project_map := m |}.

(** The loop of [project_map] as a function on the index. *)
Fixpoint index_entries (its : list (string * pyval)) (m : gmap hkey (list string))
  : gmap hkey (list string) * option exn :=
  match its with
  | [] => (m, None)
  | (key, val) :: rest =>
    match entry_project val with
    | Raise e => (m, Some e)
    | Ok None => index_entries rest m
    | Ok (Some k) => index_entries rest (ExperimentsConfig.map_append k key m)
    end
  end.

(** [exp] is stored in [ret_] as an [Archive] or as a pending reference
    to a file [exp.yml]. *)
Definition pending_or_archived (ret_ : list (string * pyval)) (exp : string) : Prop :=
  ∃ v, assoc exp ret_ = Some v
       ∧ (isinstance_Archive v = true ∨ ∃ cp, v = PStr (osp.join cp [exp ++ ".yml"])).

(** [exp] is listed under [k] in the cached index. *)
Definition indexed (self : ExperimentsConfig.t) (k : hkey) (exp : string) : Prop :=
  exp ∈ default [] (ExperimentsConfig._project_map self !! k).

Definition recorded (s : world * ExperimentsConfig.t) (ret_ : list (string * pyval))
    (k : hkey) (exp : string) : Prop :=
  pending_or_archived ret_ exp ∧ indexed (snd s) k exp.

(** Nothing recorded so far is lost. *)
Definition scan_grows (p q : (world * ExperimentsConfig.t) * list (string * pyval))
  : Prop :=
  ∀ k exp, recorded (fst p) (snd p) k exp → recorded (fst q) (snd q) k exp.

(** What the scan keeps fixed: the file store, the registry itself, and
    the uniqueness of the keys found. *)
Definition scan_inv (w0 : world) (self0 : ExperimentsConfig.t)
    (s : world * ExperimentsConfig.t) (ret_ : list (string * pyval)) : Prop :=
  nodes (fst s) = nodes w0
  ∧ ExperimentsConfig.items (snd s) = ExperimentsConfig.items self0
  ∧ ExperimentsConfig.projects (snd s) = ExperimentsConfig.projects self0
  ∧ NoDup (map fst ret_).

(** *** Notions for the properties of the files, the scan and pickling *)

(** What a read that returned has done to the entry it read; [nodes0]
    is the file store. *)
Definition realized_from (nodes0 : gmap string node) (ps : list (string * pyval))
    (v v' : pyval) : Prop :=
  if isinstance_dict v || isinstance_Archive v then v' = v
  else ∃ f d0, fspath v = Ok f ∧ nodes0 !! f = Some (File (Parsed d0))
               ∧ v' = (if isinstance_dict d0 then fst (fix_paths ps d0 PNone PNone) else d0).

(** No experiment is listed twice under one project. *)
Definition index_nodup (m : gmap hkey (list string)) : Prop :=
  ∀ k l, m !! k = Some l → NoDup l.

(** [ret_'] continues [ret_]: the keys of [ret_] come first and in the
    same order, the archived entries are the same, and only names
    satisfying [P] have got another value. *)
Definition extends_by (P : string → Prop) (ret_ ret_' : list (string * pyval)) : Prop :=
  (∃ more, map fst ret_' = (map fst ret_ ++ more)%list)
  ∧ (∀ name v, isinstance_Archive v = true →
               assoc name ret_ = Some v ↔ assoc name ret_' = Some v)
  ∧ ∀ name, P name ∨ assoc name ret_' = assoc name ret_.

(** [name] is the name of a file that the scan of the project
    directories yields in the store [nodes0]. *)
Definition scanned (w0 : world) (ps : list (string * pyval)) (name : string) : Prop :=
  ∃ project d rootv root fname,
    (project, d) ∈ ps ∧ subscript_str d "root" = Ok rootv ∧ fspath rootv = Ok root
    ∧ fname ∈ glob_yml_in w0 (osp.join root [".project"])
    ∧ name = osp.splitext_root (osp.basename fname).

(** The last character of a string. *)
Fixpoint last_ascii (s : string) : option ascii :=
  match s with
  | "" => None
  | String c "" => Some c
  | String _ s' => last_ascii s'
  end.

(** The file an entry of the experiments registry is saved to:
    [<root>/.project/<exp>.yml] with the root of the project the
    document names; [ps] is [self.projects]. *)
Definition exp_fname (ps : list (string * pyval)) (exp : string) (d : pyval)
  : option string :=
  match d with
  | PDict d_items =>
    match (p ← dict_getitem d_items (PStr "project");
           pd ← dict_getitem ps p;
           project_path ← subscript_str pd "root";
           fspath project_path) with
    | Ok root => Some (osp.join root [".project"; exp ++ ".yml"])
    | Raise _ => None
    end
  | _ => None
  end.

(** What [save] leaves in the registry for a stored value. *)
Definition rel_doc (cwd : string) (ps : list (string * pyval)) (v : pyval) : pyval :=
  if isinstance_dict v then fst (rel_paths cwd ps v PNone PNone) else v.

(** An absolute path under the root [r]: [r] joined with a relative
    path in normal form. *)
Definition anchored_str (r : string) (v : pyval) : Prop :=
  ∃ p, v = PStr (osp.join r [p]) ∧ plain_rel p = true.

(** A value under a key of [paths] that the two rewritings take to a
    relative path and back. *)
Definition anchored_value (r : string) (v : pyval) : Prop :=
  match v with
  | PStr _ => anchored_str r v
  | PArchive _ _ _ => False
  | PList [] => False
  | PList (x :: l) =>
    if isinstance_str x then Forall (anchored_str r) (x :: l) else True
  | _ => True
  end.

(** A document all of whose path-like values are anchored at [r]. *)
Fixpoint anchored (r : string) (v : pyval) {struct v} : Prop :=
  match v with
  | PDict items =>
    entries_all
      (fun key val =>
         match val with
         | PDict _ => anchored r val
         | _ => if bool_decide (key ∈ paths) then anchored_value r val else True
         end)
      items
  | _ => False
  end.

(** The root a project document gives, and the file the document is
    saved to. *)
Definition project_root (d : pyval) : option (pyval * string) :=
  match d with
  | PDict d_items =>
    match dict_getitem d_items (PStr "root") with
    | Ok project_path =>
      match fspath project_path with
      | Ok root => Some (project_path, root)
      | Raise _ => None
      end
    | Raise _ => None
    end
  | _ => None
  end.

Definition project_fname (d : pyval) : option string :=
  match project_root d with
  | Some (_, root) => Some (osp.join root [".project"; ".project.yml"])
  | None => None
  end.

(** The index [projects.yml] of a registry of documents. *)
Definition roots_index (its : list (string * pyval)) : list (string * pyval) :=
  omap (fun kv => match project_root (snd kv) with
                  | Some (project_path, _) => Some (fst kv, project_path)
                  | None => None
                  end) its.

(** The files that [Config.save] writes: the records of the projects,
    the files of the experiments that are documents, and the three
    files of the configuration directory. *)
Definition written_files (cfg : Config.t) : list string :=
  (omap (fun kv => project_fname (snd kv)) (ProjectsConfig.items (Config.projects cfg))
   ++ omap (fun kv => exp_fname (ProjectsConfig.items (Config.projects cfg))
                        (fst kv) (snd kv))
           (ExperimentsConfig.items (Config.experiments cfg))
   ++ [ProjectsConfig.all_projects (Config.projects cfg);
       ExperimentsConfig.exp_file (Config.experiments cfg);
       Config._globals_file cfg])%list.

(** *** Notions for saving and for what the scan stores *)

(** No entry is pending: every value is a document or an [Archive]. *)
Definition settled (its : list (string * pyval)) : Prop :=
  Forall (fun kv => isinstance_dict (snd kv) || isinstance_Archive (snd kv) = true) its.

(** The lines of [ExperimentsConfig.save] that come after
    [copy = dict(self)]. *)
Definition save_from (copy : list (string * pyval))
  : M (world * ExperimentsConfig.t) unit :=
  for_each copy ExperimentsConfig.save_one ;;
  self <- on_snd get ;;
  let exp_file := ExperimentsConfig.exp_file self in
  let lck := exp_file ++ ".lck" in
  on_fst (acquire lck) ;;
  on_fst (safe_dump (ExperimentsConfig.master_index (ExperimentsConfig.items self))
            exp_file) ;;
  on_fst (release lck).





(** ** Concrete inputs *)

Definition empty_world : world :=
  {| nodes := ∅; cwd := "/"; held := []; trace := [] |}.

(** A configuration directory [/c] and a project [a] rooted at [/a]. *)
Definition c1_world : world :=
  {| nodes := {[ "/c" := Dir; "/a" := Dir ]}; cwd := "/"; held := []; trace := [] |}.

(** A projects registry with a realized project [a] and a project [b]
    whose value is not a document; both are known to [projects.yml]. *)
Definition c1_projects : ProjectsConfig.t :=
  {| ProjectsConfig.items :=
       [("a", PDict [("root", PStr "/a")]); ("b", PStr "/b/.project/.project.yml")];
     ProjectsConfig.conf_dir := "/c";
     ProjectsConfig.project_paths := PDict [("a", PStr "/a"); ("b", PStr "/b")] |}.

Definition c1_after : world * ProjectsConfig.t :=
  fst (ProjectsConfig.save (c1_world, c1_projects)).

(** A configuration directory holding a [projects.yml]. *)
Definition c2_world : world :=
  {| nodes := {[ "/c" := Dir;
                 "/c/projects.yml" := File (Parsed (PDict [("a", PStr "/a")])) ]};
     cwd := "/"; held := []; trace := [] |}.

Definition c3_projects : ProjectsConfig.t :=
  {| ProjectsConfig.items := [("p", PDict [("root", PStr "/p")])];
     ProjectsConfig.conf_dir := "/c";
     ProjectsConfig.project_paths := PDict [("p", PStr "/p")] |}.

(** A registry with one archived experiment. *)
Definition c3_registry : ExperimentsConfig.t :=
  {| ExperimentsConfig.items := [("e", PArchive "e" (PStr "p") PNone)];
     ExperimentsConfig.projects := c3_projects;
     ExperimentsConfig._project_map := ∅ |}.

(** A configuration directory in which [experiments.yml] is a file and
    the name of its backup, [experiments.yml~], is taken by a
    directory. *)
Definition c3_world : world :=
  {| nodes := {[ "/c" := Dir;
                 "/c/experiments.yml" := File (Parsed (PDict []));
                 "/c/experiments.yml~" := Dir ]};
     cwd := "/"; held := []; trace := [] |}.

(** A registry whose experiment [e] refers to a file. *)
Definition c4_registry : ExperimentsConfig.t :=
  {| ExperimentsConfig.items := [("e", PStr "/p/.project/e.yml")];
     ExperimentsConfig.projects := c3_projects;
     ExperimentsConfig._project_map := ∅ |}.

(** The file of [e] holds a document naming neither a project nor a
    root. *)
Definition c4_world : world :=
  {| nodes := {[ "/p/.project/e.yml" := File (Parsed (PDict [("outdir", PStr "out")])) ]};
     cwd := "/"; held := []; trace := [] |}.




(** A document with relative paths under path-like keys at two depths. *)
Definition c6_doc : pyval :=
  PDict [("project", PStr "p"); ("src", PStr "a/b");
         ("run", PDict [("data", PList [PStr "x"; PStr "y/z"]); ("steps", PInt 3)])].

Definition c6_doc_abs : pyval :=
  PDict [("project", PStr "p"); ("src", PStr "/r/a/b");
         ("run", PDict [("data", PList [PStr "/r/x"; PStr "/r/y/z"]); ("steps", PInt 3)])].





(** A configuration directory with both index files and the project [p]
    with its record file and the file of the experiment [e]. The master
    index also lists an experiment [g] that has no file and an archived
    experiment [h]. *)
Definition x_archive : pyval := PArchive "h" (PStr "p") (PStr "2016-01-01").

Definition x_index : list (string * pyval) :=
  [("e", PNone); ("g", PNone); ("h", x_archive)].

Definition x_world : world :=
  {| nodes := {[ "/c" := Dir; "/p" := Dir; "/p/.project" := Dir;
                 "/c/projects.yml" := File (Parsed (PDict [("p", PStr "/p")]));
                 "/c/experiments.yml" := File (Parsed (PDict x_index));
                 "/p/.project/.project.yml" := File (Parsed (PDict [("root", PStr "/p")]));
                 "/p/.project/e.yml"
                 := File (Parsed (PDict [("project", PStr "p"); ("outdir", PStr "out")])) ]};
     cwd := "/"; held := []; trace := [] |}.

(** A registry over the project [p] with the pending experiment [e]
    and the archived experiment [h]. *)
Definition x_pending : ExperimentsConfig.t :=
  {| ExperimentsConfig.items := [("e", PStr "/p/.project/e.yml"); ("h", x_archive)];
     ExperimentsConfig.projects := c3_projects;
     ExperimentsConfig._project_map := ∅ |}.

(** The same registry with the document of [e] realized. *)
Definition x_document : pyval :=
  PDict [("project", PStr "p"); ("outdir", PStr "/p/out")].

Definition x_realized : ExperimentsConfig.t :=
  {| ExperimentsConfig.items := [("e", x_document); ("h", x_archive)];
     ExperimentsConfig.projects := c3_projects;
     ExperimentsConfig._project_map := ∅ |}.

(** Python's [str.upper] on ASCII letters. *)
Definition ascii_upper (c : ascii) : ascii :=
  let n := nat_of_ascii c in
  if (97 <=? n)%nat && (n <=? 122)%nat then ascii_of_nat (n - 32) else c.

Fixpoint string_upper (s : string) : string :=
  match s with
  | EmptyString => EmptyString
  | String c s' => String (ascii_upper c) (string_upper s')
  end.

(** A Linux process whose home directory is [/home/u]. *)
Definition x_env_home : osenv :=
  {| environ := {[ "HOME" := "/home/u" ]}; platform := "linux";
     str_upper := string_upper; expanduser_home := Expanded "/home/u" |}.

Definition x_home_world : world :=
  {| nodes := {[ "/home" := Dir; "/home/u" := Dir ]};
     cwd := "/"; held := []; trace := [] |}.

(** A process without home directory. *)
Definition x_env_nohome : osenv :=
  {| environ := ∅; platform := "win32";
     str_upper := string_upper; expanduser_home := NoPwdModule |}.

(** A process with [ORGCONFIGDIR] set and the configuration of the
    organizer [org] kept in [/c]. *)
Definition x_env_var : osenv :=
  {| environ := {[ "ORGCONFIGDIR" := "/c" ]}; platform := "linux";
     str_upper := string_upper; expanduser_home := Expanded "/home/u" |}.

Definition x_config : Config.t :=
  {| Config.name := "org"; Config.conf_dir := "/c";
     Config.experiments := x_realized;
     Config._globals_file := "/c/globals.yml";
     Config.global_config := PDict [("verbose", PBool true)] |}.

(** What the construction from the files of [x_world] gives, and the
    outcomes of the methods on these inputs. *)
Definition x_scanned : ExperimentsConfig.t :=
  {| ExperimentsConfig.items :=
       [("e", PStr "/p/.project/e.yml"); ("g", PNone); ("h", x_archive)];
     ExperimentsConfig.projects := c3_projects;
     ExperimentsConfig._project_map := {[ KStr "p" := ["e"] ]} |}.

Definition x_rescanned : ExperimentsConfig.t :=
  {| ExperimentsConfig.items := [("e", PStr "/p/.project/e.yml"); ("h", x_archive)];
     ExperimentsConfig.projects := c3_projects;
     ExperimentsConfig._project_map := {[ KStr "p" := ["e"] ]} |}.

Definition x_read : world * ExperimentsConfig.t * result pyval :=
  ExperimentsConfig.__getitem__ "e" (x_world, x_pending).

Definition x_loaded : world * ExperimentsConfig.t * result unit :=
  ExperimentsConfig.load (x_world, x_pending).

Definition x_built : world * result ExperimentsConfig.t :=
  ExperimentsConfig.__init__ c3_projects None None x_world.

Definition x_saved : world * ExperimentsConfig.t * result unit :=
  ExperimentsConfig.save (x_world, x_pending).

Definition x_rebuilt : world * result ExperimentsConfig.t :=
  ExperimentsConfig.__init__ (ExperimentsConfig.projects (snd (fst x_saved))) None None
    (fst (fst x_saved)).


Definition x_reduced
  : world * ExperimentsConfig.t
    * result (ProjectsConfig.t * list (string * pyval) * gmap hkey (list string)) :=
  ExperimentsConfig.__reduce__ (x_world, x_pending).

Definition x_config_saved : world * Config.t * result unit :=
  Config.save (x_world, x_config).

Definition x_config_built : world * result Config.t :=
  Config.__init__ x_env_var "org" (fst (fst x_config_saved)).

(** *** Induction on Python values *)

Section pyval_induction.
Variable P : pyval → Prop.
Hypothesis HNone : P PNone.
Hypothesis HBool : ∀ b, P (PBool b).
Hypothesis HInt : ∀ z, P (PInt z).
Hypothesis HStr : ∀ s, P (PStr s).
Hypothesis HArchive : ∀ s project time, P project → P time → P (PArchive s project time).
Hypothesis HList : ∀ l, Forall P l → P (PList l).
Hypothesis HDict : ∀ items, Forall (fun kv => P (snd kv)) items → P (PDict items).

Fixpoint pyval_nested_ind (v : pyval) : P v :=
  match v with
  | PNone => HNone
  | PBool b => HBool b
  | PInt z => HInt z
  | PStr s => HStr s
  | PArchive s project time =>
    HArchive s project time (pyval_nested_ind project) (pyval_nested_ind time)
  | PList l =>
    HList l ((fix go (l : list pyval) : Forall P l :=
                match l with
                | [] => List.Forall_nil P
                | x :: rest => List.Forall_cons P x rest (pyval_nested_ind x) (go rest)
                end) l)
  | PDict items =>
    HDict items
      ((fix go (its : list (string * pyval)) : Forall (fun kv => P (snd kv)) its :=
          match its with
          | [] => List.Forall_nil _
          | kv :: rest =>
            List.Forall_cons (fun kv => P (snd kv)) kv rest (pyval_nested_ind (snd kv)) (go rest)
          end) items)
  end.
End pyval_induction.

(** * Properties *)

(** ** Running the monad *)

Lemma bind_Ok {S A B} (m : M S A) (k : A → M S B) (s s' : S) (b : B) :
  bind m k s = (s', Ok b) → ∃ s1 a, m s = (s1, Ok a) ∧ k a s1 = (s', Ok b).
Proof.
  unfold bind. destruct (m s) as [s1 [a|e]]; [eauto|discriminate].
Qed.

Lemma bind_run_Ok {S A B} (m : M S A) (k : A → M S B) (s s' : S) (a : A) :
  m s = (s', Ok a) → bind m k s = k a s'.
Proof. unfold bind. by intros ->. Qed.

Lemma on_fst_inv {S T A} (m : M S A) (s s' : S) (t t' : T) (r : result A) :
  on_fst m (s, t) = ((s', t'), r) → m s = (s', r) ∧ t' = t.
Proof.
  unfold on_fst. cbn. destruct (m s) as [s1 r1]. by intros [= -> -> ->].
Qed.

Lemma on_snd_inv {S T A} (m : M T A) (s s' : S) (t t' : T) (r : result A) :
  on_snd m (s, t) = ((s', t'), r) → m t = (t', r) ∧ s' = s.
Proof.
  unfold on_snd. cbn. destruct (m t) as [t1 r1]. by intros [= -> -> ->].
Qed.

Lemma for_each_skip {S A} (l : list A) (body : A → M S unit) (s : S) :
  Forall (fun x => ∀ s, body x s = (s, Ok tt)) l → for_each l body s = (s, Ok tt).
Proof.
  induction 1 as [|x l Hx _ IH]; [done|]. cbn. unfold bind. by rewrite Hx.
Qed.

Lemma fold_M_app {S A B} (l1 l2 : list A) (acc : B) (body : B → A → M S B) (s : S) :
  fold_M (l1 ++ l2) acc body s
  = (acc' <- fold_M l1 acc body ;; fold_M l2 acc' body)%M s.
Proof.
  revert acc s. induction l1 as [|x l1 IH]; intros acc s; [done|].
  cbn. unfold bind. destruct (body acc x s) as [s1 [a|e]]; [|done].
  rewrite IH. reflexivity.
Qed.

(** ** Locked file I/O *)

(** Claim C2, which the code breaks. In [safe_dump], when something
    exists at [fname], the first two operations are the existence test
    on [fname] and the backup rename of [fname] to [fname~]; the lock on
    [fname.lck] is acquired after them, so not every operation that
    touches [fname] happens under the lock. *)
Theorem safe_dump_backup_before_lock (d : pyval) (fname : string) (w : world) :
  path_exists w fname = true →
  (∃ rest, events_of (safe_dump d fname) w
           = EvExists fname :: EvRename fname (fname ++ "~") :: rest)
  ∧ under_lock (fname ++ ".lck") fname 0 (events_of (safe_dump d fname) w) = false.
Proof.
  intros Hex.
  assert (∃ rest, events_of (safe_dump d fname) w
           = EvExists fname :: EvRename fname (fname ++ "~") :: rest) as [rest Hrest].
  { unfold events_of, safe_dump, bind, exists_, rename, log, modify, get, ret, raise.
    cbn. unfold path_exists in *. cbn. rewrite Hex. cbn.
    destruct (nodes w !! fname) as [[c|]|] eqn:Hn; cbn;
      destruct (nodes w !! (fname ++ "~")) as [[c'|]|] eqn:Hn'; cbn;
      rewrite ?Hn, ?Hn'; cbn.
    all: try (eexists; rewrite <- ?app_assoc; rewrite drop_app_length; reflexivity).
    all: unfold try_finally, write_yaml, release, bind, log, modify, get, set_held, set_nodes; cbn.
    all: repeat match goal with |- context [if ?b then _ else _] => destruct b; cbn end.
    all: try (eexists; rewrite <- ?app_assoc; rewrite drop_app_length; reflexivity). }
  split; [by exists rest|].
  rewrite Hrest. cbn. rewrite bool_decide_true by done. reflexivity.
Qed.

Lemma safe_dump_backup_before_lock_witness :
  path_exists c2_world "/c/projects.yml" = true
  ∧ (∃ rest, events_of (safe_dump (PDict []) "/c/projects.yml") c2_world
             = EvExists "/c/projects.yml"
               :: EvRename "/c/projects.yml" ("/c/projects.yml" ++ "~") :: rest)
  ∧ under_lock ("/c/projects.yml" ++ ".lck") "/c/projects.yml" 0
      (events_of (safe_dump (PDict []) "/c/projects.yml") c2_world) = false.
Proof.
  assert (Hex : path_exists c2_world "/c/projects.yml" = true) by (vm_compute; reflexivity).
  split; [exact Hex|].
  exact (safe_dump_backup_before_lock (PDict []) "/c/projects.yml" c2_world Hex).
Defined.

Lemma read_yaml_held fname w : held (fst (read_yaml fname w)) = held w.
Proof.
  unfold read_yaml, bind, log, modify, get. cbn.
  destruct (nodes w !! fname) as [[[v|]|]|]; reflexivity.
Qed.

Lemma write_yaml_held d fname w : held (fst (write_yaml d fname w)) = held w.
Proof.
  unfold write_yaml, bind, log, modify, get. cbn.
  match goal with |- context [if ?b then _ else _] => destruct b end; reflexivity.
Qed.

Lemma rename_held a b w : held (fst (rename a b w)) = held w.
Proof.
  unfold rename, bind, log, modify, get. cbn.
  destruct (nodes w !! a) as [[c|]|]; cbn; try reflexivity;
    destruct (nodes w !! b) as [[c'|]|]; reflexivity.
Qed.

(** [lock.acquire(); try: body finally: lock.release()] gives back what
    it took, however [body] ends. *)
Lemma locked_region_held {A} (body : M world A) (lck : string) (w : world) :
  (∀ w0, held (fst (body w0)) = held w0) →
  held (fst ((acquire lck ;; try_finally body (release lck))%M w)) = held w.
Proof.
  intros Hbody. unfold bind, acquire, log, modify, set_held, try_finally. cbn.
  match goal with |- context [body ?x] =>
    pose proof (Hbody x) as Hw; destruct (body x) as [w3 r] end.
  cbn in *. rewrite Hw. cbn. by rewrite bool_decide_true.
Qed.

Lemma bind_held {A B} (m : M world A) (k : A → M world B) (w : world) :
  (∀ w0, held (fst (m w0)) = held w0) →
  (∀ a w0, held (fst (k a w0)) = held w0) →
  held (fst (bind m k w)) = held w.
Proof.
  intros Hm Hk. unfold bind. specialize (Hm w).
  destruct (m w) as [w1 [a|e]]; cbn in *; [|done]. by rewrite Hk.
Qed.

Lemma safe_load_releases (fname : pyval) (w : world) :
  held (fst (safe_load fname w)) = held w.
Proof.
  unfold safe_load. unfold bind at 1, of_result.
  destruct (fspath fname) as [name|e]; [|done].
  apply locked_region_held, read_yaml_held.
Qed.

Lemma safe_dump_releases (d : pyval) (fname : string) (w : world) :
  held (fst (safe_dump d fname w)) = held w.
Proof.
  unfold safe_dump. apply bind_held; [done|]. intros e w0.
  apply bind_held.
  - intros w1. destruct e; [apply rename_held|done].
  - intros _ w1. apply locked_region_held, write_yaml_held.
Qed.

Lemma write_yaml_Ok d f w w' :
  write_yaml d f w = (w', Ok tt) → nodes w' !! f = Some (File (Parsed d)).
Proof.
  unfold write_yaml, bind, log, modify, get, raise, set_nodes. cbn.
  match goal with |- context [if ?b then _ else _] => destruct b end; [done|].
  intros [= <-]. cbn. apply lookup_insert_eq.
Qed.

Lemma safe_dump_Ok (d : pyval) (f : string) (w w' : world) :
  safe_dump d f w = (w', Ok tt) → nodes w' !! f = Some (File (Parsed d)).
Proof.
  unfold safe_dump. intros H.
  apply bind_Ok in H as (w1 & e & _ & H).
  apply bind_Ok in H as (w2 & [] & _ & H).
  apply bind_Ok in H as (w3 & [] & _ & H).
  unfold try_finally in H.
  destruct (write_yaml d f w3) as [w4 [[]|err]] eqn:Hw; cbn in H; [|done].
  injection H as <-. cbn. by apply write_yaml_Ok in Hw.
Qed.

(** ** The projects registry *)

(** Claim C1, which the code breaks. When the last name of the projects
    registry holds a value that is not a document (an unrealized
    reference) and [self.project_paths] knows it under the root path
    [v], a [save()] that returns has written [v] alone to
    [projects.yml] and kept it as [self.project_paths]: the [else]
    branch of the loop rebinds the local [project_paths] to that root
    path instead of adding the entry [name -> v], so the index on disk
    is no mapping from the project names. *)
Theorem projects_save_writes_bare_root (w w' : world) (self self' : ProjectsConfig.t)
    (before : list (string * pyval)) (name : string) (ref v : pyval) :
  ProjectsConfig.items self = (before ++ [(name, ref)])%list →
  isinstance_dict ref = false →
  subscript_str (ProjectsConfig.project_paths self) name = Ok v →
  ProjectsConfig.save (w, self) = ((w', self'), Ok tt) →
  nodes w' !! ProjectsConfig.all_projects self = Some (File (Parsed v))
  ∧ ProjectsConfig.project_paths self' = v.
Proof.
  intros Hitems Href Hv Hsave. unfold ProjectsConfig.save in Hsave.
  apply bind_Ok in Hsave as ([w1 s1] & self1 & Hget & Hsave).
  injection Hget as <- <- <-.
  apply bind_Ok in Hsave as ([w2 s2] & pp & Hfold & Hsave).
  apply on_fst_inv in Hfold as [Hfold ->].
  rewrite Hitems, fold_M_app in Hfold.
  apply bind_Ok in Hfold as (w3 & acc & _ & Hlast).
  cbn in Hlast. apply bind_Ok in Hlast as (w4 & pp' & Hone & Hret).
  injection Hret as <- <-.
  assert (pp' = v) as ->.
  { destruct ref; try discriminate; cbn in Hone; unfold of_result in Hone;
      rewrite Hv in Hone; by injection Hone. }
  apply bind_Ok in Hsave as ([w5 s5] & [] & Hmod & Hsave).
  apply on_snd_inv in Hmod as [Hmod ->]. injection Hmod as <-.
  destruct self' as [i' c' p']. 
  apply on_fst_inv in Hsave as [Hsave Hself]. injection Hself as -> -> ->.
  split; [|done]. by apply safe_dump_Ok in Hsave.
Qed.

Lemma projects_save_writes_bare_root_witness :
  ProjectsConfig.save (c1_world, c1_projects) = ((fst c1_after, snd c1_after), Ok tt)
  ∧ nodes (fst c1_after) !! ProjectsConfig.all_projects c1_projects
    = Some (File (Parsed (PStr "/b")))
  ∧ ProjectsConfig.project_paths (snd c1_after) = PStr "/b".
Proof.
  assert (Hsave : ProjectsConfig.save (c1_world, c1_projects)
                  = ((fst c1_after, snd c1_after), Ok tt))
    by (vm_compute; reflexivity).
  split; [exact Hsave|].
  exact (projects_save_writes_bare_root c1_world (fst c1_after) c1_projects (snd c1_after)
           [("a", PDict [("root", PStr "/a")])] "b" (PStr "/b/.project/.project.yml")
           (PStr "/b") eq_refl eq_refl eq_refl Hsave).
Defined.

(** Claim C9. When [projects.yml] does not exist, constructing a
    [ProjectsConfig] returns an empty registry, without raising and
    without touching a file or keeping a lock; constructing an
    [ExperimentsConfig] over it returns an empty registry, without
    raising, whether [experiments.yml] exists or not. *)
Theorem bootstrap_without_index_files (w : world) (conf_dir : string) :
  path_exists w (osp.join conf_dir ["projects.yml"]) = false →
  ∃ w1 pc,
    ProjectsConfig.__init__ conf_dir None w = (w1, Ok pc)
    ∧ ProjectsConfig.items pc = []
    ∧ nodes w1 = nodes w ∧ held w1 = held w
    ∧ ∀ project_map, ∃ ec,
        ExperimentsConfig.__init__ pc None project_map w1 = (w1, Ok ec)
        ∧ ExperimentsConfig.items ec = [].
Proof.
  intros Hex. unfold ProjectsConfig.__init__, exists_.
  unfold bind at 1. unfold bind at 1. cbn [log modify fst snd].
  unfold bind at 1. cbn [get fst snd ret].
  change (path_exists _ ?f) with (path_exists w f). rewrite Hex.
  cbn. eexists _, _. split; [reflexivity|]. cbn. repeat split.
  intros pm. eexists. split; reflexivity.
Qed.

Lemma bootstrap_without_index_files_witness :
  path_exists empty_world (osp.join "/c" ["projects.yml"]) = false
  ∧ ∃ w1 pc,
      ProjectsConfig.__init__ "/c" None empty_world = (w1, Ok pc)
      ∧ ProjectsConfig.items pc = []
      ∧ nodes w1 = nodes empty_world ∧ held w1 = held empty_world
      ∧ ∀ project_map, ∃ ec,
          ExperimentsConfig.__init__ pc None project_map w1 = (w1, Ok ec)
          ∧ ExperimentsConfig.items ec = [].
Proof.
  assert (Hex : path_exists empty_world (osp.join "/c" ["projects.yml"]) = false)
    by (vm_compute; reflexivity).
  split; [exact Hex|].
  exact (bootstrap_without_index_files empty_world "/c" Hex).
Defined.

(** ** Reading an experiment *)

(** Claim C4, amended. If the stored value of [attr] is a reference
    (neither a document nor an [Archive]) and loading it with
    [safe_load] raises [e], then reading [attr] raises [e] and leaves
    the registry as it was: the stored value is still the same
    reference, and a second read attempts the load again. *)
Theorem failed_load_keeps_reference (w w' : world) (self : ExperimentsConfig.t)
    (attr : string) (fname : pyval) (e : exn) :
  assoc attr (ExperimentsConfig.items self) = Some fname →
  isinstance_dict fname || isinstance_Archive fname = false →
  safe_load fname w = (w', Raise e) →
  ExperimentsConfig.__getitem__ attr (w, self) = ((w', self), Raise e).
Proof.
  intros Hget Hkind Hload. unfold ExperimentsConfig.__getitem__.
  unfold bind at 1. cbn [on_snd get fst snd]. rewrite Hget, Hkind. cbn [negb].
  unfold bind at 1, on_fst. cbn [fst snd]. by rewrite Hload.
Qed.

Lemma failed_load_keeps_reference_witness :
  assoc "e" (ExperimentsConfig.items c4_registry) = Some (PStr "/p/.project/e.yml")
  ∧ isinstance_dict (PStr "/p/.project/e.yml")
    || isinstance_Archive (PStr "/p/.project/e.yml") = false
  ∧ safe_load (PStr "/p/.project/e.yml") empty_world
    = (fst (safe_load (PStr "/p/.project/e.yml") empty_world), Raise IOError)
  ∧ ExperimentsConfig.__getitem__ "e" (empty_world, c4_registry)
    = ((fst (safe_load (PStr "/p/.project/e.yml") empty_world), c4_registry),
       Raise IOError).
Proof.
  assert (Hload : safe_load (PStr "/p/.project/e.yml") empty_world
                  = (fst (safe_load (PStr "/p/.project/e.yml") empty_world), Raise IOError))
    by (vm_compute; reflexivity).
  split; [reflexivity|]. split; [reflexivity|]. split; [exact Hload|].
  exact (failed_load_keeps_reference empty_world _ c4_registry "e"
           (PStr "/p/.project/e.yml") IOError eq_refl eq_refl Hload).
Defined.

(** Claim C4 as stated fails: the file of [e] loads, the document is
    stored, then [fix_paths] raises [KeyError] (no [project], no
    [root]); the read raises, the registry holds the document instead of
    the reference, and a second read returns it without loading. *)
Lemma failed_normalization_caches_document :
  assoc "e" (ExperimentsConfig.items c4_registry) = Some (PStr "/p/.project/e.yml")
  ∧ snd (ExperimentsConfig.__getitem__ "e" (c4_world, c4_registry)) = Raise KeyError
  ∧ assoc "e" (ExperimentsConfig.items
                 (snd (fst (ExperimentsConfig.__getitem__ "e" (c4_world, c4_registry)))))
    = Some (PDict [("outdir", PStr "out")])
  ∧ assoc "e" (ExperimentsConfig.items
                 (snd (fst (ExperimentsConfig.__getitem__ "e" (c4_world, c4_registry)))))
    ≠ Some (PStr "/p/.project/e.yml")
  ∧ snd (ExperimentsConfig.__getitem__ "e"
           (fst (ExperimentsConfig.__getitem__ "e" (c4_world, c4_registry))))
    = Ok (PDict [("outdir", PStr "out")]).
Proof.
  assert (Hstored :
    assoc "e" (ExperimentsConfig.items
                 (snd (fst (ExperimentsConfig.__getitem__ "e" (c4_world, c4_registry)))))
    = Some (PDict [("outdir", PStr "out")])) by (vm_compute; reflexivity).
  split; [reflexivity|]. split; [vm_compute; reflexivity|]. split; [exact Hstored|].
  split; [rewrite Hstored; discriminate|]. vm_compute; reflexivity.
Qed.

(** ** The path normalizer: what it leaves alone *)

Lemma path_value_frame_refl v : path_value_frame v v.
Proof.
  destruct v; cbn; try done. exists l. split; [done|].
  induction l; constructor; auto.
Qed.

Lemma entries_related_refl (R : string → pyval → pyval → Prop) its :
  Forall (fun kv => R (fst kv) (snd kv) (snd kv)) its → entries_related R its its.
Proof. induction 1 as [|[k v] its H _ IH]; cbn; auto. Qed.

Lemma only_paths_rewritten_refl v : only_paths_rewritten v v.
Proof.
  induction v as [| | | | | |items IH] using pyval_nested_ind; cbn; try done.
  exists items. split; [done|]. apply entries_related_refl.
  eapply Forall_impl; [exact IH|]. intros [k v] Hv. cbn in *.
  destruct v; try done; case_bool_decide; try done; apply path_value_frame_refl.
Qed.

Lemma rewrite_each_frame (f : pyval → result pyval) (l : list pyval) :
  (∀ x x', f x = Ok x' → isinstance_str x = true ∧ isinstance_str x' = true) →
  Forall2 (fun x x' => x' = x ∨ (isinstance_str x = true ∧ isinstance_str x' = true))
          l (fst (rewrite_each f l)).
Proof.
  intros Hf. induction l as [|x l IH]; cbn; [constructor|].
  destruct (f x) as [s|e] eqn:Hx; cbn.
  - destruct (rewrite_each f l) as [l' e']. cbn in *. constructor; [|done].
    right. by eapply Hf.
  - constructor; [by left|]. clear. induction l; constructor; auto.
Qed.

Lemma rewrite_path_value_frame (want_abs : bool) (f : pyval → result pyval) (v : pyval) :
  (∀ x x', f x = Ok x' → isinstance_str x = true ∧ isinstance_str x' = true) →
  path_value_frame v (fst (rewrite_path_value want_abs f v)).
Proof.
  intros Hf. unfold rewrite_path_value.
  destruct (path_test want_abs v) eqn:Ht.
  { destruct v; try discriminate; destruct (f _) as [x'|] eqn:Hfx; cbn; try done;
      by apply Hf in Hfx as [_ ?]. }
  destruct (utils.safe_list v) as [|x0 xs] eqn:Hsl; [apply path_value_frame_refl|].
  destruct (isinstance_str x0); [|apply path_value_frame_refl].
  destruct (subscript_0 v) as [v0|e]; [|apply path_value_frame_refl].
  destruct (osp.isabs_val v0) as [a|e]; [|apply path_value_frame_refl].
  destruct (Bool.eqb a want_abs); [|apply path_value_frame_refl].
  destruct v; cbn; try done.
  destruct (rewrite_each f l) as [l' e'] eqn:Hl. cbn. exists l'. split; [done|].
  pose proof (rewrite_each_frame f l Hf) as H. by rewrite Hl in H.
Qed.

Lemma rewrite_dict_items_frame (recurse on_path : pyval → pyval * option exn) its :
  Forall (fun kv => only_paths_rewritten (snd kv) (fst (recurse (snd kv)))) its →
  (∀ v, path_value_frame v (fst (on_path v))) →
  entries_related
    (fun key val val' =>
       match val with
       | PDict _ => only_paths_rewritten val val'
       | _ => if bool_decide (key ∈ paths) then path_value_frame val val' else val' = val
       end)
    its (fst (rewrite_dict_items recurse on_path its)).
Proof.
  intros Hrec Hpath. induction Hrec as [|[key val] rest Hval _ IH]; [done|].
  cbn [rewrite_dict_items].
  set (r := match val with
            | PDict _ => recurse val
            | _ => if bool_decide (key ∈ paths) then on_path val else (val, None)
            end).
  assert (Hr : match val with
               | PDict _ => only_paths_rewritten val (fst r)
               | _ => if bool_decide (key ∈ paths) then path_value_frame val (fst r)
                      else fst r = val
               end).
  { subst r. destruct val; try done; case_bool_decide; try done; apply Hpath. }
  destruct r as [val' [e|]]; cbn in Hr |- *.
  - split; [done|]. split; [done|]. apply entries_related_refl.
    clear. induction rest as [|[k v] rest IH]; constructor; [|done]. cbn.
    destruct v; try done; try (case_bool_decide; try done; apply path_value_frame_refl).
    apply only_paths_rewritten_refl.
  - destruct (rewrite_dict_items recurse on_path rest) as [rest' e']. cbn in *. done.
Qed.

Lemma join_val_str root x x' :
  osp.join_val root x = Ok x' → isinstance_str x = true ∧ isinstance_str x' = true.
Proof.
  unfold osp.join_val. destruct (fspath root); cbn; [|done].
  destruct x; cbn; try done; intros [= <-]; by destruct (osp.startswith_sep _).
Qed.

Lemma relpath_val_str cwd root x x' :
  osp.relpath_val cwd x root = Ok x' → isinstance_str x = true ∧ isinstance_str x' = true.
Proof.
  unfold osp.relpath_val, osp.relpath. destruct (negb (truthy x)); [done|].
  destruct x; cbn; try done.
  all: destruct root; cbn; try done.
  all: repeat match goal with |- context [match ?l with [] => _ | _ :: _ => _ end] =>
         destruct l end; cbn; by intros [= <-].
Qed.

(** Claim C10. Whatever the document, the root and the outcome
    (normal return or exception), [fix_paths] and [rel_paths] leave the
    keys and their order as they are and change values only under keys
    of [paths], at any depth of nested dictionaries: a value under
    another key stays, and in a sequence under a path-like key only
    elements that are strings change, so a dictionary inside a sequence
    is never rewritten. *)
Theorem normalizer_frame (cwd : string) (projects : list (string * pyval))
    (d root project : pyval) :
  only_paths_rewritten d (fst (fix_paths projects d root project))
  ∧ only_paths_rewritten d (fst (rel_paths cwd projects d root project)).
Proof.
  revert root project.
  induction d as [| | | | | |items IH] using pyval_nested_ind; intros root project;
    try (split; reflexivity).
  cbn [fix_paths rel_paths].
  destruct (resolve_root projects items root project) as [[root' project']|e];
    [|split; apply only_paths_rewritten_refl].
  split.
  - pose proof (rewrite_dict_items_frame
                  (fun val => fix_paths projects val root' project')
                  (rewrite_path_value false (osp.join_val root')) items) as H.
    destruct (rewrite_dict_items _ _ items) as [items' e']. cbn in *.
    exists items'. split; [done|]. apply H.
    + eapply Forall_impl; [exact IH|]. intros kv Hkv. apply Hkv.
    + intros v. apply rewrite_path_value_frame. apply join_val_str.
  - pose proof (rewrite_dict_items_frame
                  (fun val => rel_paths cwd projects val root' project')
                  (rewrite_path_value true (fun v => osp.relpath_val cwd v root')) items) as H.
    destruct (rewrite_dict_items _ _ items) as [items' e']. cbn in *.
    exists items'. split; [done|]. apply H.
    + eapply Forall_impl; [exact IH|]. intros kv Hkv. apply Hkv.
    + intros v. apply rewrite_path_value_frame. intros x x'. apply relpath_val_str.
Qed.

(** *** Empty sequences *)

(** Claim C7, which the code breaks. On a document whose first entry
    is a path-like key holding an empty sequence, [fix_paths] and
    [rel_paths] both raise [IndexError] (from [safe_list(val)[0]]); the
    document is left as it was. *)
Theorem empty_sequence_raises (cwd : string) (projects after : list (string * pyval))
    (key : string) (root project root' project' : pyval) :
  key ∈ paths →
  resolve_root projects ((key, PList []) :: after) root project = Ok (root', project') →
  fix_paths projects (PDict ((key, PList []) :: after)) root project
  = (PDict ((key, PList []) :: after), Some IndexError)
  ∧ rel_paths cwd projects (PDict ((key, PList []) :: after)) root project
    = (PDict ((key, PList []) :: after), Some IndexError).
Proof.
  intros Hkey Hroot. cbn [fix_paths rel_paths]. rewrite Hroot.
  cbn [rewrite_dict_items]. rewrite bool_decide_true by done.
  split; reflexivity.
Qed.

Lemma empty_sequence_raises_witness :
  "src" ∈ paths
  ∧ resolve_root [] [("src", PList []); ("n", PInt 1)] (PStr "/r") PNone
    = Ok (PStr "/r", PNone)
  ∧ fix_paths [] (PDict [("src", PList []); ("n", PInt 1)]) (PStr "/r") PNone
    = (PDict [("src", PList []); ("n", PInt 1)], Some IndexError)
  ∧ rel_paths "/" [] (PDict [("src", PList []); ("n", PInt 1)]) (PStr "/r") PNone
    = (PDict [("src", PList []); ("n", PInt 1)], Some IndexError).
Proof.
  assert (Hkey : "src" ∈ paths)
    by (apply (bool_decide_unpack ("src" ∈ paths)); vm_compute; exact I).
  split; [exact Hkey|]. split; [reflexivity|].
  exact (empty_sequence_raises "/" [] [("n", PInt 1)] "src" (PStr "/r") PNone
           (PStr "/r") PNone Hkey eq_refl).
Defined.

(** ** The experiments registry: archiving *)

Import ExperimentsConfig.

(** *** The project index *)

Lemma project_map_loop its self :
  for_each its index_entry self
  = match index_entries its (_project_map self) with
    | (m, None) => (with_map self m, Ok tt)
    | (m, Some e) => (with_map self m, Raise e)
    end.
Proof.
  revert self. induction its as [|[key val] rest IH]; intros self.
  - by destruct self.
  - cbn [for_each index_entries]. unfold bind at 1. unfold index_entry at 1.
    destruct val as [| | | |s pr tm|l|d]; cbn [entry_project];
      try (change (ret tt self) with (self, Ok tt); cbn iota; rewrite IH; reflexivity).
    + unfold bind, of_result. destruct (to_hkey pr) as [k|e]; [|by destruct self].
      unfold index_under, modify. rewrite IH. reflexivity.
    + unfold bind, of_result.
      destruct (dict_getitem d (PStr "project")) as [p|e]; [|by destruct self].
      destruct (to_hkey p) as [k|e]; [|by destruct self].
      unfold index_under, modify. rewrite IH. reflexivity.
Qed.

Lemma project_map_run self :
  project_map self
  = match index_entries (items self) (_project_map self) with
    | (m, None) => (with_map self m, Ok m)
    | (m, Some e) => (with_map self m, Raise e)
    end.
Proof.
  unfold project_map. unfold bind at 1. cbn [get].
  unfold bind at 1. rewrite project_map_loop.
  by destruct (index_entries (items self) (_project_map self)) as [m [e|]].
Qed.

Lemma map_append_mono k key k' key' m :
  key' ∈ default [] (m !! k') → key' ∈ default [] (map_append k key m !! k').
Proof.
  intros H. unfold map_append. case_bool_decide; [done|].
  destruct (decide (k = k')) as [->|Hne].
  - rewrite lookup_insert_eq. cbn. apply elem_of_app. by left.
  - by rewrite lookup_insert_ne.
Qed.

Lemma map_append_elem k key m : key ∈ default [] (map_append k key m !! k).
Proof.
  unfold map_append. case_bool_decide; [done|].
  rewrite lookup_insert_eq. cbn. apply elem_of_app. right. by apply list_elem_of_singleton.
Qed.

Lemma index_entries_mono its m m' k key :
  index_entries its m = (m', None) →
  key ∈ default [] (m !! k) → key ∈ default [] (m' !! k).
Proof.
  revert m. induction its as [|[key0 val] rest IH]; intros m; cbn.
  - by intros [= <-].
  - destruct (entry_project val) as [[k0|]|e]; [| |done]; intros Hrun Hin.
    + eapply IH; [done|]. by apply map_append_mono.
    + by eapply IH.
Qed.

Lemma index_entries_complete its m m' key val k :
  index_entries its m = (m', None) →
  (key, val) ∈ its → entry_project val = Ok (Some k) →
  key ∈ default [] (m' !! k).
Proof.
  revert m. induction its as [|[key0 val0] rest IH]; intros m Hrun Hin Hk.
  - by apply elem_of_nil in Hin.
  - cbn in Hrun. apply elem_of_cons in Hin as [[= <- <-]|Hin].
    + rewrite Hk in Hrun. eapply index_entries_mono; [done|]. apply map_append_elem.
    + destruct (entry_project val0) as [[k0|]|e]; [| |done]; by eapply IH.
Qed.


Lemma index_entries_Ok_inv its m m' :
  index_entries its m = (m', None) →
  Forall (fun kv => ∃ o, entry_project (snd kv) = Ok o) its.
Proof.
  revert m. induction its as [|[key val] rest IH]; intros m; cbn; [constructor|].
  destruct (entry_project val) as [o|e] eqn:Ho; [|by destruct e].
  intros Hrun. constructor; [by exists o|]. destruct o; by eapply IH.
Qed.

(** *** Ordered dictionaries *)

Lemma assoc_set_lookup {A} k (v : A) its : assoc k (assoc_set k v its) = Some v.
Proof.
  induction its as [|[k' v'] rest IH]; cbn.
  - by rewrite bool_decide_true.
  - case_bool_decide; cbn; [by rewrite bool_decide_true|].
    by rewrite bool_decide_false.
Qed.

Lemma assoc_elem_of {A} k (v : A) its : assoc k its = Some v → (k, v) ∈ its.
Proof.
  induction its as [|[k' v'] rest IH]; cbn; [done|].
  case_bool_decide; [intros [= ->]; subst; apply elem_of_cons; by left|].
  intros Hrest. apply elem_of_cons. right. by apply IH.
Qed.

Lemma assoc_set_elem_of {A} k (v : A) its kv :
  kv ∈ assoc_set k v its → kv = (k, v) ∨ kv ∈ its.
Proof.
  induction its as [|[k' v'] rest IH]; cbn.
  - intros ->%list_elem_of_singleton. by left.
  - case_bool_decide.
    + intros [->|H']%elem_of_cons; [by left|]. right. apply elem_of_cons. by right.
    + intros [->|H']%elem_of_cons; [right; apply elem_of_cons; by left|].
      destruct (IH H'); [by left|]. right. apply elem_of_cons. by right.
Qed.

Lemma assoc_NoDup {A} k (v : A) its :
  NoDup (map fst its) → (k, v) ∈ its → assoc k its = Some v.
Proof.
  induction its as [|[k' v'] rest IH]; cbn; [by intros _ ?%elem_of_nil|].
  intros [Hnin Hnd]%NoDup_cons [[= -> ->]|Hin]%elem_of_cons.
  - by rewrite bool_decide_true.
  - rewrite bool_decide_false; [by apply IH|].
    intros ->. apply Hnin. apply list_elem_of_fmap. by exists (k', v).
Qed.

Lemma assoc_set_keys {A} k (v : A) its :
  is_Some (assoc k its) → map fst (assoc_set k v its) = map fst its.
Proof.
  induction its as [|[k' v'] rest IH]; cbn; [by intros [? ?]|].
  case_bool_decide; cbn; [by subst|]. intros H'. by rewrite IH.
Qed.

Lemma assoc_set_NoDup {A} k (v : A) its :
  NoDup (map fst its) → NoDup (map fst (assoc_set k v its)).
Proof.
  induction its as [|[k' v'] rest IH]; cbn.
  - intros _. apply NoDup_singleton.
  - intros [Hnin Hnd]%NoDup_cons. case_bool_decide; cbn.
    + subst. by apply NoDup_cons.
    + apply NoDup_cons. split; [|by apply IH].
      intros ([k2 v2] & Hk2 & Hin)%list_elem_of_fmap. cbn in Hk2. subst k2.
      apply assoc_set_elem_of in Hin as [[= ? ?]|Hin]; [done|].
      apply Hnin. apply list_elem_of_fmap. by exists (k', v2).
Qed.

(** *** Assigning an [Archive] *)

Lemma setitem_archive_run key s p t self :
  __setitem__ key (PArchive s p t) self
  = match index_entries (items self) (_project_map self) with
    | (m, None) =>
      ({| items := assoc_set key (PArchive s p t) (items self);
          projects := projects self; _project_map := m |}, Ok tt)
    | (m, Some e) => (with_map self m, Raise e)
    end.
Proof.
  unfold __setitem__. cbn [isinstance_Archive]. unfold bind at 1. unfold bind at 1.
  rewrite project_map_run.
  by destruct (index_entries (items self) (_project_map self)) as [m [e|]].
Qed.

(** *** What [save] writes to the master index *)

Lemma assoc_set_lookup_ne {A} k k' (v : A) its :
  k ≠ k' → assoc k' (assoc_set k v its) = assoc k' its.
Proof.
  intros Hne. induction its as [|[k0 v0] rest IH]; cbn.
  - by rewrite bool_decide_false.
  - case_bool_decide as Hk; cbn.
    + subst k0. by rewrite !bool_decide_false.
    + case_bool_decide; [done|]. exact IH.
Qed.

Lemma master_index_assoc_set exp d' its :
  isinstance_Archive d' = false →
  (∃ v, assoc exp its = Some v ∧ isinstance_Archive v = false) →
  master_index (assoc_set exp d' its) = master_index its.
Proof.
  intros Hd' (v & Hv & Hna). unfold master_index. f_equal.
  induction its as [|[k0 v0] rest IH]; cbn in *; [done|].
  case_bool_decide as Hk; cbn.
  - injection Hv as ->. subst k0. by rewrite Hd', Hna.
  - f_equal. by apply IH.
Qed.


Lemma rel_paths_is_dict cwd projects its root project :
  isinstance_dict (fst (rel_paths cwd projects (PDict its) root project)) = true.
Proof.
  cbn [rel_paths]. destruct (resolve_root _ _ _ _) as [[? ?]|]; [|done].
  by destruct (rewrite_dict_items _ _ its).
Qed.

Lemma save_one_Ok exp d w self w' self' :
  save_one (exp, d) (w, self) = ((w', self'), Ok tt) →
  projects self' = projects self
  ∧ (items self' = items self
     ∨ ∃ d', isinstance_dict d = true ∧ isinstance_dict d' = true
             ∧ items self' = assoc_set exp d' (items self)).
Proof.
  unfold save_one. destruct d as [| | | | | |d_items];
    try (intros [= <- <-]; by split; [|left]).
  intros H.
  apply bind_Ok in H as ([w1 s1] & self1 & Hget & H). injection Hget as <- <- <-.
  apply bind_Ok in H as ([w1 s1] & p & Hp & H).
  unfold of_result in Hp. injection Hp as <- <- Hp.
  apply bind_Ok in H as ([w1 s1] & pd & Hpd & H).
  unfold of_result in Hpd. injection Hpd as <- <- Hpd.
  apply bind_Ok in H as ([w1 s1] & project_path & Hpp & H).
  unfold of_result in Hpp. injection Hpp as <- <- Hpp.
  apply bind_Ok in H as ([w1 s1] & w0 & Hw0 & H). injection Hw0 as <- <- <-.
  pose proof (rel_paths_is_dict (cwd w) (ProjectsConfig.items (projects self))
                d_items PNone PNone) as Hisd.
  destruct (rel_paths _ _ (PDict d_items) PNone PNone) as [d' e]. cbn in Hisd.
  apply bind_Ok in H as ([w1 s1] & [] & Hset & H).
  apply on_snd_inv in Hset as [Hset ->]. injection Hset as <-.
  destruct e as [e|]; [done|].
  apply bind_Ok in H as ([w2 s2] & root & Hroot & H).
  unfold of_result in Hroot. injection Hroot as <- <- Hroot.
  apply bind_Ok in H as ([w3 s3] & ex & Hex & H).
  apply on_fst_inv in Hex as [_ ->].
  apply bind_Ok in H as ([w4 s4] & [] & Hmk & H).
  assert (s4 = {| items := assoc_set exp d' (items self); projects := projects self;
                  _project_map := _project_map self |}) as ->.
  { destruct ex; cbn in Hmk; [by injection Hmk|]. by apply on_fst_inv in Hmk as [_ ->]. }
  apply on_fst_inv in H as [_ ->]. cbn. split; [done|]. right. by exists d'.
Qed.

Lemma save_loop_Ok l w self w' self' :
  for_each l save_one (w, self) = ((w', self'), Ok tt) →
  (∀ exp d, (exp, d) ∈ l → isinstance_dict d = true →
            ∃ v, assoc exp (items self) = Some v ∧ isinstance_Archive v = false) →
  master_index (items self') = master_index (items self)
  ∧ projects self' = projects self.
Proof.
  revert w self. induction l as [|[exp d] rest IH]; intros w self.
  - by intros [= <- <-].
  - cbn [for_each]. intros H Hpre.
    apply bind_Ok in H as ([w1 self1] & [] & Hone & H).
    apply save_one_Ok in Hone as [Hproj Hitems].
    apply IH in H as [Hidx Hproj'].
    + rewrite Hidx, Hproj', Hproj. split; [|done].
      destruct Hitems as [->|(d' & Hd & Hd' & ->)]; [done|].
      apply master_index_assoc_set; [by destruct d'|].
      apply (Hpre exp d); [apply elem_of_cons; by left|done].
    + intros exp2 d2 Hin Hd2.
      destruct (Hpre exp2 d2) as (v & Hv & Hna); [apply elem_of_cons; by right|done|].
      destruct Hitems as [->|(d' & Hd & Hd' & ->)]; [by exists v|].
      destruct (decide (exp = exp2)) as [->|Hne].
      * exists d'. rewrite assoc_set_lookup. split; [done|]. by destruct d'.
      * exists v. by rewrite assoc_set_lookup_ne.
Qed.

(** ** The path normalizer: there and back *)

#[local] Arguments String.append !_ _ / : simpl nomatch.

(** *** Strings and paths *)

Lemma string_app_assoc (a b c : string) : (a ++ b) ++ c = a ++ (b ++ c).
Proof. induction a as [|x a IH]; simpl; [done|]. by rewrite IH. Qed.

Lemma string_app_empty_r (a : string) : a ++ "" = a.
Proof. induction a as [|x a IH]; simpl; [done|]. by rewrite IH. Qed.

Lemma split_nonempty s : osp.split s ≠ [].
Proof.
  destruct s as [|c s]; cbn; [done|]. case_bool_decide; [done|].
  destruct (osp.split s); done.
Qed.

Lemma split_app_sep a b :
  osp.split (a ++ String osp.sep b) = (osp.split a ++ osp.split b)%list.
Proof.
  induction a as [|c a IH]; cbn.
  - by rewrite bool_decide_true.
  - case_bool_decide; [by rewrite IH|].
    rewrite IH. pose proof (split_nonempty a). destruct (osp.split a); done.
Qed.

Lemma split_no_sep s : osp.has_sep s = false → osp.split s = [s].
Proof.
  induction s as [|c s IH]; cbn; [done|].
  intros [Hc Hs]%orb_false_iff. rewrite Hc. by rewrite IH.
Qed.

Lemma split_comps_no_sep s : Forall (fun c => osp.has_sep c = false) (osp.split s).
Proof.
  induction s as [|c s IH]; cbn; [by repeat constructor|].
  case_bool_decide as Hc; [by constructor|].
  pose proof (split_nonempty s). destruct (osp.split s) as [|h t]; [done|].
  inversion IH; subst. constructor; [|done]. cbn. by rewrite bool_decide_false.
Qed.

Lemma sepjoin_cons c rest :
  rest ≠ [] → osp.sepjoin (c :: rest) = c ++ String osp.sep (osp.sepjoin rest).
Proof. by destruct rest. Qed.

Lemma sepjoin_split s : osp.sepjoin (osp.split s) = s.
Proof.
  induction s as [|c s IH]; [done|].
  pose proof (split_nonempty s) as Hne.
  change (osp.split (String c s))
    with (if bool_decide (c = osp.sep) then "" :: osp.split s
          else match osp.split s with
               | h :: t => String c h :: t
               | [] => [String c ""]
               end).
  case_bool_decide as Hc.
  - rewrite sepjoin_cons, IH by done. by subst c.
  - destruct (osp.split s) as [|h t]; [done|].
    destruct t as [|h' t].
    + cbn in IH. by subst h.
    + rewrite sepjoin_cons in IH |- * by done. by rewrite <- IH.
Qed.

Lemma split_sepjoin_comps comps :
  Forall good_comp comps → osp.nonempty_comps (osp.sepjoin comps) = comps.
Proof.
  unfold osp.nonempty_comps.
  induction 1 as [|c rest [Hne Hsep] Hrest IH]; [done|].
  destruct rest as [|c' rest].
  - cbn [osp.sepjoin]. rewrite split_no_sep by done. cbn.
    by rewrite decide_True.
  - change (osp.sepjoin (c :: c' :: rest))
      with (c ++ String osp.sep (osp.sepjoin (c' :: rest))).
    rewrite split_app_sep, split_no_sep by done.
    cbn [app]. rewrite filter_cons, decide_True by done. by rewrite IH.
Qed.

Lemma nonempty_comps_slashes n s :
  osp.nonempty_comps (osp.slashes n ++ s) = osp.nonempty_comps s.
Proof.
  unfold osp.nonempty_comps. induction n as [|n IH]; [done|].
  cbn. rewrite bool_decide_true by done. rewrite filter_cons, decide_False by auto.
  exact IH.
Qed.

Lemma normpath_step_plain abs acc c :
  plain_comp c = true → osp.normpath_step abs acc c = (acc ++ [c])%list.
Proof.
  unfold plain_comp, osp.normpath_step.
  intros [[H1 H2]%andb_true_iff H3]%andb_true_iff.
  apply negb_true_iff in H1, H2, H3. rewrite H1, H2, H3. reflexivity.
Qed.

Lemma normpath_fold_plain abs comps acc :
  forallb plain_comp comps = true →
  fold_left (osp.normpath_step abs) comps acc = (acc ++ comps)%list.
Proof.
  revert acc. induction comps as [|c comps IH]; intros acc; cbn.
  - by rewrite app_nil_r.
  - intros [Hc Hr]%andb_true_iff. rewrite normpath_step_plain by done.
    rewrite IH by done. by rewrite <- app_assoc.
Qed.

Lemma Forall_removelast {A} (P : A → Prop) l : Forall P l → Forall P (removelast l).
Proof.
  induction 1 as [|x l Hx Hl IH]; [constructor|]. cbn.
  destruct l; [constructor|]. by constructor.
Qed.

Lemma normpath_fold_good abs comps acc :
  Forall (fun c => osp.has_sep c = false) comps →
  Forall good_comp acc →
  Forall good_comp (fold_left (osp.normpath_step abs) comps acc).
Proof.
  intros Hc. revert acc. induction Hc as [|c comps Hc _ IH]; intros acc Hacc; [done|].
  cbn. apply IH. unfold osp.normpath_step.
  case_bool_decide as H1; cbn; [done|].
  case_bool_decide as H2; cbn; [done|].
  match goal with |- Forall _ (if ?b then _ else _) => destruct b end.
  - apply Forall_app. split; [done|]. by repeat constructor.
  - by apply Forall_removelast.
Qed.

Lemma isabs_initial_slashes x :
  osp.isabs x = true → osp.initial_slashes x ≠ 0 ∧ x ≠ "".
Proof.
  destruct x as [|c1 [|c2 [|c3 x]]]; cbn; try done;
    intros Hc; rewrite Hc; split; try done; by repeat case_match.
Qed.

Lemma abspath_comps cwd x :
  osp.isabs x = true → osp.nonempty_comps (osp.abspath cwd x) = norm_comps x.
Proof.
  intros Habs. unfold osp.abspath. rewrite Habs.
  destruct (isabs_initial_slashes x Habs) as [Hn Hx].
  unfold osp.normpath. rewrite bool_decide_false by done.
  destruct (osp.initial_slashes x) as [|n] eqn:Hi; [done|].
  cbn [Nat.eqb negb].
  rewrite bool_decide_false by (cbn; discriminate).
  rewrite nonempty_comps_slashes. apply split_sepjoin_comps.
  apply normpath_fold_good; [apply split_comps_no_sep|constructor].
Qed.

Lemma endswith_sep_inv r :
  osp.endswith_sep r = true → ∃ a, r = a ++ String osp.sep "".
Proof.
  induction r as [|c r IH]; [done|]. cbn.
  destruct r as [|c' r].
  - intros ->%bool_decide_eq_true. by exists "".
  - intros H. destruct (IH H) as [a Ha]. exists (String c a). cbn. by rewrite <- Ha.
Qed.

Lemma plain_rel_not_abs p : plain_rel p = true → osp.startswith_sep p = false ∧ p ≠ "".
Proof.
  unfold plain_rel. destruct p as [|c p]; cbn; [done|].
  case_bool_decide; cbn; [done|]. done.
Qed.

Lemma norm_comps_join r p :
  osp.isabs r = true → plain_rel p = true →
  osp.isabs (osp.join r [p]) = true
  ∧ norm_comps (osp.join r [p]) = (norm_comps r ++ osp.split p)%list.
Proof.
  intros Hr Hp. destruct (plain_rel_not_abs p Hp) as [Hps Hpne].
  cbn. unfold osp.join2. rewrite Hps.
  destruct (isabs_initial_slashes r Hr) as [_ Hrne].
  rewrite bool_decide_false by done. cbn [orb].
  unfold norm_comps.
  destruct (osp.endswith_sep r) eqn:Hend.
  - destruct (endswith_sep_inv r Hend) as [a ->]. split.
    + destruct a; cbn in *; done.
    + rewrite string_app_assoc. cbn [append].
      rewrite !split_app_sep, !fold_left_app. cbn [osp.split fold_left].
      unfold osp.normpath_step at 2. cbn.
      by apply normpath_fold_plain.
  - split.
    + destruct r; cbn in *; done.
    + change (r ++ "/" ++ p) with (r ++ String osp.sep p).
      rewrite split_app_sep, fold_left_app. by apply normpath_fold_plain.
Qed.

Lemma commonprefix_app l m : osp.commonprefix l (l ++ m)%list = l.
Proof.
  induction l as [|x l IH]; cbn; [by destruct m|].
  by rewrite bool_decide_true, IH.
Qed.

Lemma endswith_sep_app a b : b ≠ "" → osp.endswith_sep (a ++ b) = osp.endswith_sep b.
Proof.
  intros Hb. induction a as [|c a IH]; cbn; [done|].
  rewrite IH. destruct (a ++ b) eqn:Hab; [|done].
  destruct a; cbn in Hab; [done|discriminate].
Qed.

Lemma no_sep_endswith c : osp.has_sep c = false → osp.endswith_sep c = false.
Proof.
  induction c as [|x c IH]; cbn; [done|].
  intros [Hx Hc]%orb_false_iff. destruct c; [done|]. by apply IH.
Qed.

Lemma no_sep_startswith c : osp.has_sep c = false → osp.startswith_sep c = false.
Proof. destruct c; cbn; [done|]. by intros [Hx Hc]%orb_false_iff. Qed.

Lemma join_plain comps acc :
  Forall good_comp comps → acc ≠ "" → osp.endswith_sep acc = false →
  osp.join acc comps = osp.sepjoin (acc :: comps).
Proof.
  unfold osp.join. intros Hc. revert acc.
  induction Hc as [|c comps [Hne Hsep] _ IH]; intros acc Hacc Hend; [done|].
  cbn [fold_left]. unfold osp.join2 at 2.
  rewrite no_sep_startswith, bool_decide_false, Hend by done. cbn [orb].
  rewrite IH.
  - destruct comps as [|c' comps]; [done|].
    cbn [osp.sepjoin]. rewrite !string_app_assoc. reflexivity.
  - by destruct acc.
  - rewrite endswith_sep_app by (cbn; discriminate).
    cbn. rewrite bool_decide_true by done.
    destruct c; [done|]. by apply (no_sep_endswith (String a c)).
Qed.

Lemma plain_split_good p : plain_rel p = true → Forall good_comp (osp.split p).
Proof.
  unfold plain_rel. intros Hp.
  pose proof (split_comps_no_sep p) as Hs.
  induction Hs as [|c comps Hc _ IH]; [constructor|].
  cbn in Hp. apply andb_true_iff in Hp as [Hpc Hr].
  constructor; [|by apply IH]. split; [|done].
  unfold plain_comp in Hpc. intros ->. done.
Qed.

(** [relpath] undoes [join] on a relative path in normal form. *)
Lemma relpath_join cwd r p :
  osp.isabs r = true → plain_rel p = true →
  osp.relpath cwd (PStr (osp.join r [p])) (PStr r) = Ok p.
Proof.
  intros Hr Hp. destruct (norm_comps_join r p Hr Hp) as [Habs Hcomps].
  unfold osp.relpath.
  assert (Hne : osp.join r [p] ≠ "").
  { intros H. rewrite H in Habs. done. }
  cbn [truthy]. rewrite bool_decide_false by done. cbn [negb fspath mbind result_bind].
  rewrite !abspath_comps by done. rewrite Hcomps, commonprefix_app.
  rewrite Nat.sub_diag, drop_app_length. cbn [repeat app].
  pose proof (plain_split_good p Hp) as Hgood.
  pose proof (sepjoin_split p) as Hjoin.
  destruct (osp.split p) as [|c rest] eqn:Hsplit; [by apply split_nonempty in Hsplit|].
  apply Forall_cons in Hgood as [[Hcne Hcsep] Hrest].
  rewrite join_plain; [by rewrite Hjoin|done|done|by apply no_sep_endswith].
Qed.

(** *** The dictionary loop, entry by entry *)

Lemma rewrite_dict_items_cons recurse on_path key val rest :
  rewrite_dict_items recurse on_path ((key, val) :: rest)
  = match entry_step recurse on_path key val with
    | (val', Some e) => ((key, val') :: rest, Some e)
    | (val', None) =>
      let '(rest', e') := rewrite_dict_items recurse on_path rest in
      ((key, val') :: rest', e')
    end.
Proof.
  cbn [rewrite_dict_items]. unfold entry_step.
  destruct val; try reflexivity;
    repeat match goal with
           | |- context [if ?b then _ else _] => destruct b
           | |- context [let '(_, _) := ?x in _] => destruct x as [? [?|]]
           end; reflexivity.
Qed.

Lemma rewrite_dict_items_Ok_inv recurse on_path its its' :
  rewrite_dict_items recurse on_path its = (its', None) →
  Forall2 (fun kv kv' => fst kv' = fst kv
                         ∧ entry_step recurse on_path (fst kv) (snd kv) = (snd kv', None))
          its its'.
Proof.
  revert its'. induction its as [|[key val] rest IH]; intros its'.
  - cbn. intros [= <-]. constructor.
  - rewrite rewrite_dict_items_cons.
    destruct (entry_step recurse on_path key val) as [val' [e|]] eqn:Hstep; [done|].
    destruct (rewrite_dict_items recurse on_path rest) as [rest' e'] eqn:Hrest.
    intros [= <- ->]. constructor; [done|]. by apply IH.
Qed.

Lemma rewrite_dict_items_Ok recurse on_path its its' :
  Forall2 (fun kv kv' => fst kv' = fst kv
                         ∧ entry_step recurse on_path (fst kv) (snd kv) = (snd kv', None))
          its its' →
  rewrite_dict_items recurse on_path its = (its', None).
Proof.
  induction 1 as [|[key val] [key' val'] rest rest' [Hk Hstep] _ IH]; [done|].
  cbn in Hk, Hstep. subst key'.
  rewrite rewrite_dict_items_cons, Hstep, IH. reflexivity.
Qed.

(** *** Idempotence of [fix_paths] under an absolute root *)

Lemma join_isabs r s : osp.isabs r = true → osp.isabs (osp.join r [s]) = true.
Proof.
  intros Hr. cbn. unfold osp.join2. destruct (osp.startswith_sep s) eqn:Hs; [done|].
  destruct r as [|c r]; [done|]. cbn in Hr.
  destruct (bool_decide (String c r = "") || osp.endswith_sep (String c r)); done.
Qed.

Lemma abs_str_noop f v :
  abs_str v → rewrite_path_value false f v = (v, None).
Proof.
  intros (s & Hs & Habs). unfold rewrite_path_value.
  assert (path_test false v = false) as ->.
  { destruct v; try done; cbn in Hs; injection Hs as ->; cbn; by rewrite Habs. }
  assert (utils.safe_list v = [v]) as -> by (by destruct v).
  assert (isinstance_str v = true) as -> by (by destruct v).
  assert (subscript_0 v = Ok (PStr (String osp.sep ""))) as ->.
  { destruct s as [|c s]; [done|]. cbn in Habs. apply bool_decide_eq_true in Habs as ->.
    destruct v; try done; cbn in Hs; by injection Hs as ->. }
  reflexivity.
Qed.

Lemma rewrite_each_Ok_inv f l l' :
  rewrite_each f l = (l', None) → Forall2 (fun x x' => f x = Ok x') l l'.
Proof.
  revert l'. induction l as [|x l IH]; intros l'; cbn.
  - intros [= <-]. constructor.
  - destruct (f x) as [x'|e] eqn:Hx; [|done].
    destruct (rewrite_each f l) as [l1 e1]. intros [= <- ->].
    constructor; [done|]. by apply IH.
Qed.

Lemma join_val_abs r x x' :
  osp.isabs r = true → osp.join_val (PStr r) x = Ok x' → abs_str x'.
Proof.
  intros Hr. unfold osp.join_val. cbn. destruct (fspath x) as [s|] eqn:Hs; cbn; [|done].
  intros [= <-]. destruct (osp.startswith_sep s) eqn:Habs.
  - by exists s.
  - exists (osp.join r [s]). split; [done|]. by apply join_isabs.
Qed.

Lemma fix_value_idem r v v' :
  osp.isabs r = true →
  rewrite_path_value false (osp.join_val (PStr r)) v = (v', None) →
  rewrite_path_value false (osp.join_val (PStr r)) v' = (v', None)
  ∧ (isinstance_dict v = false → isinstance_dict v' = false).
Proof.
  intros Hr. unfold rewrite_path_value at 1.
  destruct (path_test false v) eqn:Ht.
  { destruct (osp.join_val (PStr r) v) as [j|] eqn:Hj; [|done]. intros [= <-].
    apply join_val_abs in Hj; [|done].
    split; [by apply abs_str_noop|]. intros _. destruct Hj as (s & Hs & _). by destruct j. }
  destruct (utils.safe_list v) as [|x0 xs] eqn:Hsl; [done|].
  destruct (isinstance_str x0) eqn:Hx0; cycle 1.
  { intros [= <-]. split; [|done].
    unfold rewrite_path_value. by rewrite Ht, Hsl, Hx0. }
  destruct (subscript_0 v) as [v0|] eqn:Hv0; [|done].
  destruct (osp.isabs_val v0) as [a|] eqn:Ha; [|done].
  destruct a; cbn [Bool.eqb].
  { intros [= <-]. split; [|done].
    unfold rewrite_path_value. by rewrite Ht, Hsl, Hx0, Hv0, Ha. }
  unfold rewrite_items. destruct v; try done.
  destruct (rewrite_each _ l) as [l' e'] eqn:Hl. intros [= <- ->].
  split; [|done].
  apply rewrite_each_Ok_inv in Hl. cbn in Hsl. subst l.
  inversion Hl as [|? x0' ? xs' Hj Hrest]; subst.
  apply join_val_abs in Hj as (s & Hs & Habs); [|done].
  unfold rewrite_path_value. cbn [path_test utils.safe_list subscript_0].
  assert (isinstance_str x0' = true) as -> by (by destruct x0').
  unfold osp.isabs_val. rewrite Hs. cbn. by rewrite Habs.
Qed.

Lemma fix_paths_is_dict projects items root project :
  isinstance_dict (fst (fix_paths projects (PDict items) root project)) = true.
Proof.
  cbn [fix_paths]. destruct (resolve_root _ _ _ _) as [[? ?]|]; [|done].
  by destruct (rewrite_dict_items _ _ items).
Qed.

Lemma fix_paths_idempotent projects project r d d1 :
  osp.isabs r = true →
  fix_paths projects d (PStr r) project = (d1, None) →
  fix_paths projects d1 (PStr r) project = (d1, None).
Proof.
  intros Hr. revert d1.
  induction d as [| | | |s p t _ _|l _|items IH] using pyval_nested_ind;
    intros d'; try done.
  cbn [fix_paths resolve_root].
  destruct (rewrite_dict_items _ _ items) as [items1 e] eqn:Hloop.
  intros [= <- ->]. cbn [fix_paths resolve_root].
  apply rewrite_dict_items_Ok_inv in Hloop.
  rewrite (rewrite_dict_items_Ok _ _ items1 items1); [done|].
  clear -Hloop IH Hr.
  induction Hloop as [|[k v] [k1 v1] rest rest1 [Hk Hstep] _ IHl]; [constructor|].
  apply Forall_cons in IH as [IHv IHrest]. cbn in Hk, Hstep, IHv. subst k1.
  constructor; [|by apply IHl]. split; [done|]. cbn.
  unfold entry_step in Hstep |- *.
  destruct v as [| | | |? ? ?|?|its].
  7:{ pose proof (fix_paths_is_dict projects its (PStr r) project) as Hd.
      rewrite Hstep in Hd. cbn in Hd. destruct v1; try done. by apply IHv. }
  all: destruct (bool_decide (k ∈ paths));
    [ apply fix_value_idem in Hstep as [Hidem Hnd]; [|done];
      specialize (Hnd eq_refl); destruct v1; done
    | by injection Hstep as <- ].
Qed.

(** *** [rel_paths] undoes [fix_paths] on relocatable documents *)

Lemma plain_rel_isabs s : plain_rel s = true → osp.isabs s = false.
Proof. intros H. by apply plain_rel_not_abs in H as [? _]. Qed.

Lemma rewrite_each_roundtrip cwd r l :
  osp.isabs r = true → Forall plain_rel_value l →
  ∃ l1, rewrite_each (osp.join_val (PStr r)) l = (l1, None)
        ∧ rewrite_each (fun x => osp.relpath_val cwd x (PStr r)) l1 = (l, None)
        ∧ ∀ x xs, l = x :: xs →
            ∃ j js, l1 = PStr j :: js ∧ osp.isabs j = true.
Proof.
  intros Hr. induction 1 as [|x l (s & -> & Hs) _ (l1 & Hfix & Hrel & _)].
  - exists []. by repeat split.
  - exists (PStr (osp.join r [s]) :: l1). cbn [rewrite_each].
    unfold osp.join_val at 1, osp.relpath_val at 1. cbn [fspath mbind result_bind].
    rewrite (proj1 (plain_rel_not_abs s Hs)).
    rewrite Hfix, relpath_join, Hrel by done. repeat split.
    intros ? ? _. eexists _, _. split; [done|]. by apply join_isabs.
Qed.

Lemma roundtrip_value cwd r v :
  osp.isabs r = true → isinstance_dict v = false → relocatable_value v →
  ∃ v1, rewrite_path_value false (osp.join_val (PStr r)) v = (v1, None)
        ∧ rewrite_path_value true (fun x => osp.relpath_val cwd x (PStr r)) v1 = (v, None)
        ∧ isinstance_dict v1 = false.
Proof.
  intros Hr Hnd Hv. destruct v as [| | |s| |l|]; try done.
  1-3: by eexists; repeat split.
  - destruct Hv as (s' & [= <-] & Hs).
    exists (PStr (osp.join r [s])). unfold rewrite_path_value. cbn [path_test].
    rewrite plain_rel_isabs by done. cbn [Bool.eqb].
    unfold osp.join_val, osp.relpath_val. cbn [fspath mbind result_bind].
    rewrite (proj1 (plain_rel_not_abs s Hs)). cbn [path_test].
    rewrite join_isabs by done. cbn [Bool.eqb].
    by rewrite relpath_join.
  - destruct l as [|x xs]; [done|]. cbn in Hv.
    destruct (isinstance_str x) eqn:Hx.
    + destruct (rewrite_each_roundtrip cwd r (x :: xs) Hr Hv) as (l1 & Hfix & Hrel & Hhead).
      destruct (Hhead x xs eq_refl) as (j & js & -> & Hj).
      apply Forall_cons in Hv as [(s & -> & Hs) _].
      exists (PList (PStr j :: js)).
      unfold rewrite_path_value. cbn [path_test utils.safe_list isinstance_str subscript_0].
      unfold osp.isabs_val. cbn [fspath mbind result_bind].
      rewrite plain_rel_isabs, Hj by done. cbn [Bool.eqb rewrite_items].
      by rewrite Hfix, Hrel.
    + exists (PList (x :: xs)). unfold rewrite_path_value.
      cbn [path_test utils.safe_list]. by rewrite Hx.
Qed.

Lemma fix_rel_roundtrip cwd projects project r d :
  osp.isabs r = true → relocatable d →
  ∃ d1, fix_paths projects d (PStr r) project = (d1, None)
        ∧ rel_paths cwd projects d1 (PStr r) project = (d, None).
Proof.
  intros Hr.
  induction d as [| | | |s p t _ _|l _|items IH] using pyval_nested_ind; try done.
  intros Hd. cbn [relocatable] in Hd. cbn [fix_paths rel_paths resolve_root].
  assert (∃ items1,
    rewrite_dict_items (fun val => fix_paths projects val (PStr r) project)
      (rewrite_path_value false (osp.join_val (PStr r))) items = (items1, None)
    ∧ rewrite_dict_items (fun val => rel_paths cwd projects val (PStr r) project)
        (rewrite_path_value true (fun v => osp.relpath_val cwd v (PStr r))) items1
      = (items, None)) as (items1 & Hfix & Hrel).
  { clear -IH Hd Hr. induction items as [|[k v] rest IHl].
    - by exists [].
    - apply Forall_cons in IH as [IHv IHrest]. cbn in Hd, IHv. destruct Hd as [Hv Hrest].
      destruct (IHl IHrest Hrest) as (rest1 & Hfix & Hrel).
      assert (∃ v1,
        entry_step (fun val => fix_paths projects val (PStr r) project)
          (rewrite_path_value false (osp.join_val (PStr r))) k v = (v1, None)
        ∧ entry_step (fun val => rel_paths cwd projects val (PStr r) project)
            (rewrite_path_value true (fun v => osp.relpath_val cwd v (PStr r))) k v1
          = (v, None)) as (v1 & Hv1 & Hv1').
      { unfold entry_step. destruct (isinstance_dict v) eqn:Hdict.
        - destruct v as [| | | | | |its]; try done.
          destruct (IHv Hv) as (d1 & Hd1 & Hd1').
          exists d1. split; [done|].
          pose proof (fix_paths_is_dict projects its (PStr r) project) as Hisd.
          rewrite Hd1 in Hisd. cbn in Hisd. by destruct d1.
        - destruct (bool_decide (k ∈ paths)).
          + assert (relocatable_value v) as Hrv by (by destruct v).
            destruct (roundtrip_value cwd r v Hr Hdict Hrv) as (v1 & H1 & H2 & H3).
            exists v1. by destruct v, v1.
          + exists v. by destruct v. }
      exists ((k, v1) :: rest1).
      rewrite !rewrite_dict_items_cons, Hv1, Hv1', Hfix, Hrel. done. }
  exists (PDict items1). rewrite Hfix. split; [done|].
  cbn [rel_paths resolve_root]. by rewrite Hrel.
Qed.

(** Claim C6, amended. For an absolute root [r]: if [fix_paths(d, r)]
    returns [d1], then [fix_paths(d1, r)] returns [d1] again; and if
    every path-like value of [d], at any depth of nested dictionaries,
    is a relative path in normal form, a non-empty sequence of such
    paths, or a value that neither method rewrites, then
    [fix_paths(d, r)] returns and [rel_paths] takes its result back to
    [d]. *)
Theorem path_rewriting_laws (cwd : string) (projects : list (string * pyval))
    (project : pyval) (r : string) (d : pyval) :
  osp.isabs r = true →
  (∀ d1, fix_paths projects d (PStr r) project = (d1, None) →
         fix_paths projects d1 (PStr r) project = (d1, None))
  ∧ (relocatable d →
     ∃ d1, fix_paths projects d (PStr r) project = (d1, None)
           ∧ rel_paths cwd projects d1 (PStr r) project = (d, None)).
Proof.
  intros Hr. split.
  - intros d1. by apply fix_paths_idempotent.
  - by apply fix_rel_roundtrip.
Qed.

Lemma c6_doc_relocatable : relocatable c6_doc.
Proof.
  vm_compute. repeat split; try (eexists; split; reflexivity).
  repeat constructor; eexists; split; reflexivity.
Qed.

Lemma path_rewriting_laws_witness :
  osp.isabs "/r" = true
  ∧ relocatable c6_doc
  ∧ fix_paths [] c6_doc (PStr "/r") PNone = (c6_doc_abs, None)
  ∧ fix_paths [] c6_doc_abs (PStr "/r") PNone = (c6_doc_abs, None)
  ∧ ∃ d1, fix_paths [] c6_doc (PStr "/r") PNone = (d1, None)
          ∧ rel_paths "/" [] d1 (PStr "/r") PNone = (c6_doc, None).
Proof.
  assert (Hfix : fix_paths [] c6_doc (PStr "/r") PNone = (c6_doc_abs, None))
    by (vm_compute; reflexivity).
  split; [reflexivity|]. split; [exact c6_doc_relocatable|]. split; [exact Hfix|].
  split.
  - exact (proj1 (path_rewriting_laws "/" [] PNone "/r" c6_doc eq_refl) c6_doc_abs Hfix).
  - exact (proj2 (path_rewriting_laws "/" [] PNone "/r" c6_doc eq_refl) c6_doc_relocatable).
Defined.

(** Claim C6 as stated fails: a value that is absolute already comes
    back relative, and under a relative root a second [fix_paths]
    prefixes the root again. *)
Lemma absolute_value_does_not_round_trip :
  fix_paths [] (PDict [("src", PStr "/r/x")]) (PStr "/r") PNone
  = (PDict [("src", PStr "/r/x")], None)
  ∧ rel_paths "/" [] (PDict [("src", PStr "/r/x")]) (PStr "/r") PNone
    = (PDict [("src", PStr "x")], None)
  ∧ PDict [("src", PStr "x")] ≠ PDict [("src", PStr "/r/x")]
  ∧ fix_paths [] (PDict [("src", PStr "x")]) (PStr "r") PNone
    = (PDict [("src", PStr "r/x")], None)
  ∧ fix_paths [] (PDict [("src", PStr "r/x")]) (PStr "r") PNone
    = (PDict [("src", PStr "r/r/x")], None)
  ∧ PDict [("src", PStr "r/r/x")] ≠ PDict [("src", PStr "r/x")].
Proof.
  repeat split; try (vm_compute; reflexivity); discriminate.
Qed.

(** ** The experiments registry: the scan of the project directories *)

(** *** File names found by the scan *)

Lemma has_sep_app a b : osp.has_sep (a ++ b) = osp.has_sep a || osp.has_sep b.
Proof.
  induction a as [|c a IH]; [done|]. cbn. rewrite IH. by rewrite orb_assoc.
Qed.

Lemma endswith_has_sep a : osp.endswith_sep a = true → osp.has_sep a = true.
Proof.
  intros [a' ->]%endswith_sep_inv. rewrite has_sep_app. cbn.
  rewrite bool_decide_true by done. by rewrite orb_true_r.
Qed.

Lemma basename_no_sep name : osp.has_sep name = false → osp.basename name = name.
Proof.
  destruct name as [|c name]; [done|]. intros H.
  change (osp.basename (String c name))
    with (if osp.has_sep (String c name) then osp.basename name else String c name).
  by rewrite H.
Qed.

Lemma basename_app_sep a name :
  osp.has_sep name = false → osp.basename (a ++ String osp.sep name) = name.
Proof.
  intros Hname. induction a as [|c a IH].
  - change ("" ++ String osp.sep name) with (String osp.sep name).
    cbn [osp.basename osp.has_sep]. rewrite bool_decide_true by done.
    cbn [orb]. by apply basename_no_sep.
  - change (String c a ++ String osp.sep name) with (String c (a ++ String osp.sep name)).
    cbn [osp.basename]. cbn [osp.has_sep]. rewrite has_sep_app. cbn [osp.has_sep].
    rewrite (bool_decide_true (osp.sep = osp.sep)) by done.
    cbn [orb]. rewrite !orb_true_r. exact IH.
Qed.

(** A name joined to a directory keeps its base name. *)
Lemma basename_join dir name :
  osp.has_sep name = false → osp.basename (osp.join dir [name]) = name.
Proof.
  intros Hname. cbn. unfold osp.join2.
  rewrite no_sep_startswith by done.
  case_bool_decide as Hdir; cbn [orb].
  - subst dir. by apply basename_no_sep.
  - destruct (osp.endswith_sep dir) eqn:Hend.
    + apply endswith_sep_inv in Hend as [a ->].
      rewrite string_app_assoc. by apply basename_app_sep.
    + by apply basename_app_sep.
Qed.

Lemma splitext_root_visible name :
  ishidden name = false → name ≠ "" →
  ∃ c rest, osp.splitext_root name = String c rest ∧ c ≠ osp.extsep.
Proof.
  destruct name as [|c s]; [done|]. cbn. intros Hc _.
  rewrite Hc. destruct (osp.has_dot s).
  - eexists c, _. split; [done|]. by apply bool_decide_eq_false in Hc.
  - exists c, s. split; [done|]. by apply bool_decide_eq_false in Hc.
Qed.

(** What [glob.glob] returns for [dir/*.yml]: visible names of [dir]. *)
Lemma glob_yml_in_inv w dir fname :
  fname ∈ glob_yml_in w dir →
  ∃ name, fname = osp.join dir [name] ∧ ishidden name = false
          ∧ osp.has_sep name = false ∧ name ≠ ""
          ∧ nodes w !! dir = Some Dir.
Proof.
  unfold glob_yml_in. intros (name & -> & Hin)%list_elem_of_fmap.
  apply list_elem_of_filter in Hin as [Hvis Hin].
  apply andb_true_iff in Hvis as [Hvis _]. apply negb_true_iff in Hvis.
  exists name. split; [done|]. split; [done|].
  unfold listdir in Hin. destruct (nodes w !! dir) as [[c|]|]; try by apply elem_of_nil in Hin.
  apply list_elem_of_omap in Hin as (p & _ & Hp).
  destruct (strip_prefix _ p) as [n|]; [|done].
  destruct (negb (bool_decide (n = "")) && negb (osp.has_sep n)) eqn:Hn; [|done].
  injection Hp as ->. apply andb_true_iff in Hn as [Hne Hsep].
  apply negb_true_iff in Hne, Hsep. apply bool_decide_eq_false in Hne. done.
Qed.

Lemma scanned_name_not_record w dir fname :
  fname ∈ glob_yml_in w dir →
  fname ≠ ".project.yml"
  ∧ fname ≠ osp.join dir [".project.yml"]
  ∧ osp.splitext_root (osp.basename fname) ≠ ".project".
Proof.
  intros (name & -> & Hvis & Hsep & Hne & _)%glob_yml_in_inv.
  assert (name ≠ ".project.yml") as Hname by (intros ->; done).
  split; [|split].
  - intros Heq. apply Hname. rewrite <- (basename_join dir name Hsep), Heq. done.
  - intros Heq. apply Hname.
    rewrite <- (basename_join dir name Hsep), Heq. by apply basename_join.
  - rewrite basename_join by done.
    destruct (splitext_root_visible name Hvis Hne) as (c & rest & -> & Hc).
    intros [= -> _]. done.
Qed.

Lemma glob_yml_in_nodes w w' dir :
  nodes w' = nodes w → glob_yml_in w' dir = glob_yml_in w dir.
Proof. unfold glob_yml_in, listdir. by intros ->. Qed.

(** *** Loops with local variables *)

Lemma fold_M_elem {S A B} (I : S → B → Prop) (R : S * B → S * B → Prop)
    (Est : A → S → B → Prop) (body : B → A → M S B) (l : list A) :
  (∀ p, R p p) →
  (∀ p q r, R p q → R q r → R p r) →
  (∀ x s acc s' acc', Est x s acc → R (s, acc) (s', acc') → Est x s' acc') →
  (∀ x acc s s' acc', x ∈ l → I s acc → body acc x s = (s', Ok acc') →
     I s' acc' ∧ R (s, acc) (s', acc') ∧ Est x s' acc') →
  ∀ acc s s' acc',
    I s acc → fold_M l acc body s = (s', Ok acc') →
    I s' acc' ∧ R (s, acc) (s', acc') ∧ ∀ x, x ∈ l → Est x s' acc'.
Proof.
  intros Hrefl Htrans Hkeep. induction l as [|x l IH]; intros Hbody acc s s' acc' HI Hrun.
  - injection Hrun as <- <-. repeat split; [done|done|]. by intros x ?%elem_of_nil.
  - cbn in Hrun. apply bind_Ok in Hrun as (s1 & acc1 & Hx & Hrun).
    destruct (Hbody x acc s s1 acc1) as (HI1 & HR1 & Hest); [apply elem_of_cons; by left|done|done|].
    destruct (IH (fun y a0 s0 s0' a0' Hy => Hbody y a0 s0 s0' a0' (proj2 (elem_of_cons _ _ _) (or_intror Hy)))
                 acc1 s1 s' acc' HI1 Hrun) as (HI' & HR' & Hall).
    split; [done|]. split; [by eapply Htrans|].
    intros y [->|Hy]%elem_of_cons; [by eapply Hkeep|by apply Hall].
Qed.

(** *** The loops of [exp_files] *)

Lemma scan_file_step w0 self0 project config_path ret_ fname s s' ret_' :
  fname ∈ glob_yml_in w0 config_path →
  scan_inv w0 self0 s ret_ →
  scan_file project config_path ret_ fname s = (s', Ok ret_') →
  scan_inv w0 self0 s' ret_'
  ∧ scan_grows (s, ret_) (s', ret_')
  ∧ recorded s' ret_' (KStr project) (osp.splitext_root (osp.basename fname)).
Proof.
  intros Hin (Hnodes & Hitems & Hproj & Hnd) Hrun.
  destruct (scanned_name_not_record _ _ _ Hin) as (Hne & _ & _).
  unfold scan_file in Hrun. rewrite bool_decide_false in Hrun by done.
  set (exp := osp.splitext_root (osp.basename fname)) in *.
  destruct s as [w self]. unfold bind, on_snd, index_under, modify, ret in Hrun.
  cbn in Hrun. injection Hrun as <- <-.
  assert (Hpend : pending_or_archived
            (if negb (isinstance_Archive (default PNone (assoc exp ret_)))
             then assoc_set exp (PStr (osp.join config_path [exp ++ ".yml"])) ret_
             else ret_) exp).
  { destruct (isinstance_Archive (default PNone (assoc exp ret_))) eqn:Ha; cbn [negb].
    - destruct (assoc exp ret_) as [v|] eqn:Hv; [|done]. exists v. split; [done|]. by left.
    - eexists. rewrite assoc_set_lookup. split; [done|]. right. by eexists. }
  split; [|split].
  - repeat split; try done. cbn. destruct (negb _); [by apply assoc_set_NoDup|done].
  - intros k e [(v & Hv & Hkind) Hidx]. cbn in *. split.
    + destruct (negb _); [|by exists v].
      destruct (decide (exp = e)) as [<-|Hneq]; [done|].
      exists v. by rewrite assoc_set_lookup_ne.
    + by apply map_append_mono.
  - split; [done|]. apply map_append_elem.
Qed.

Lemma scan_grows_refl p : scan_grows p p.
Proof. by intros k exp. Qed.

Lemma scan_grows_trans p q r : scan_grows p q → scan_grows q r → scan_grows p r.
Proof. intros H1 H2 k exp H'. by apply H2, H1. Qed.

Lemma scan_files_loop w0 self0 project config_path fnames ret_ s s' ret_' :
  fnames ⊆ glob_yml_in w0 config_path →
  scan_inv w0 self0 s ret_ →
  fold_M fnames ret_ (scan_file project config_path) s = (s', Ok ret_') →
  scan_inv w0 self0 s' ret_'
  ∧ scan_grows (s, ret_) (s', ret_')
  ∧ ∀ fname, fname ∈ fnames →
      recorded s' ret_' (KStr project) (osp.splitext_root (osp.basename fname)).
Proof.
  intros Hsub HI Hrun.
  eapply (fold_M_elem (scan_inv w0 self0) scan_grows
            (fun fname s ret_ =>
               recorded s ret_ (KStr project) (osp.splitext_root (osp.basename fname))));
    try done.
  - apply scan_grows_refl.
  - apply scan_grows_trans.
  - intros x s1 a1 s2 a2 Hrec Hg. by apply (Hg _ _ Hrec).
  - intros x a1 s1 s2 a2 Hx HI1 Hstep.
    eapply scan_file_step; [|done|done]. by apply Hsub.
Qed.

Lemma join2_nonempty a b : b ≠ "" → osp.join2 a b ≠ "".
Proof.
  intros Hb. unfold osp.join2. destruct (osp.startswith_sep b); [done|].
  destruct (bool_decide (a = "") || osp.endswith_sep a);
    destruct a; cbn; try done.
Qed.

Lemma scan_project_step w0 self0 ret_ project d s s' ret_' :
  scan_inv w0 self0 s ret_ →
  scan_project ret_ (project, d) s = (s', Ok ret_') →
  scan_inv w0 self0 s' ret_'
  ∧ scan_grows (s, ret_) (s', ret_')
  ∧ ∀ rootv root fname,
      subscript_str d "root" = Ok rootv →
      fspath rootv = Ok root →
      fname ∈ glob_yml_in w0 (osp.join root [".project"]) →
      recorded s' ret_' (KStr project) (osp.splitext_root (osp.basename fname)).
Proof.
  intros HI Hrun. unfold scan_project in Hrun. destruct s as [w self].
  apply bind_Ok in Hrun as ([w1 s1] & project_path & Hpp & Hrun).
  unfold of_result in Hpp. injection Hpp as <- <- Hpp.
  apply bind_Ok in Hrun as ([w1 s1] & root0 & Hcp & Hrun).
  unfold of_result in Hcp. injection Hcp as <- <- Hcp.
  set (config_path := osp.join root0 [".project"]) in *.
  apply bind_Ok in Hrun as ([w1 s1] & e & Hex & Hrun).
  apply on_fst_inv in Hex as [Hex ->].
  assert (w1 = fst (log (EvExists config_path) w) ∧ e = path_exists w config_path)
    as [-> ->].
  { unfold exists_, bind, log, modify, get, ret in Hex. cbn in Hex.
    by injection Hex as <- <-. }
  destruct HI as (Hnodes & Hitems & Hproj & Hnd). cbn [fst snd] in *.
  destruct (path_exists w config_path) eqn:Hexists; cbn [negb] in Hrun.
  - apply bind_Ok in Hrun as ([w2 s2] & fnames & Hglob & Hrun).
    apply on_fst_inv in Hglob as [Hglob ->]. injection Hglob as <- <-.
    eapply scan_files_loop in Hrun as (HI' & Hgrow & Hall).
    + split; [exact HI'|]. split.
      * intros k exp [Hp Hi]. apply Hgrow. by split.
      * intros rootv root fname Hroot Hjoin Hin.
        rewrite Hpp in Hroot. injection Hroot as <-.
        rewrite Hcp in Hjoin. injection Hjoin as <-.
        apply Hall. erewrite glob_yml_in_nodes; [exact Hin|]. exact Hnodes.
    + intros x Hx. erewrite <- glob_yml_in_nodes; [exact Hx|]. exact Hnodes.
    + by repeat split.
  - injection Hrun as <- <-. split; [by repeat split|]. split; [by intros k exp [? ?]|].
    intros rootv root fname Hroot Hjoin Hin. exfalso.
    rewrite Hpp in Hroot. injection Hroot as <-.
    rewrite Hcp in Hjoin. injection Hjoin as <-.
    apply glob_yml_in_inv in Hin as (name & _ & _ & _ & _ & Hdir).
    unfold path_exists in Hexists. fold config_path in Hdir.
    rewrite Hnodes, Hdir in Hexists.
    rewrite bool_decide_false in Hexists by (by apply join2_nonempty).
    rewrite (bool_decide_true (is_Some _)) in Hexists by done.
    by rewrite orb_true_r in Hexists.
Qed.

Lemma read_yaml_nodes f w : nodes (fst (read_yaml f w)) = nodes w.
Proof.
  unfold read_yaml, bind, log, modify, get. cbn.
  destruct (nodes w !! f) as [[[v|]|]|]; reflexivity.
Qed.

Lemma safe_load_nodes fname w : nodes (fst (safe_load fname w)) = nodes w.
Proof.
  unfold safe_load, bind at 1, of_result. destruct (fspath fname) as [name|]; [|done].
  unfold acquire, release, set_held, log, modify, try_finally, bind.
  cbn -[read_yaml].
  match goal with |- context [read_yaml name ?x] =>
    pose proof (read_yaml_nodes name x) as Hr; destruct (read_yaml name x) as [w1 r] end.
  cbn in *. exact Hr.
Qed.

Lemma fold_assoc_set_NoDup {A} (l acc : list (string * A)) :
  NoDup (map fst acc) →
  NoDup (map fst (fold_left (fun r kv => assoc_set (fst kv) (snd kv) r) l acc)).
Proof.
  revert acc. induction l as [|[k v] l IH]; intros acc Hacc; [done|].
  cbn. apply IH. by apply assoc_set_NoDup.
Qed.

Lemma exp_files_scan w self w' self' found :
  exp_files (w, self) = ((w', self'), Ok found) →
  scan_inv w self (w', self') found
  ∧ ∀ project d rootv root fname,
      (project, d) ∈ ProjectsConfig.items (projects self) →
      subscript_str d "root" = Ok rootv →
      fspath rootv = Ok root →
      fname ∈ glob_yml_in w (osp.join root [".project"]) →
      recorded (w', self') found (KStr project)
        (osp.splitext_root (osp.basename fname)).
Proof.
  intros Hrun. unfold exp_files in Hrun.
  apply bind_Ok in Hrun as ([w1 s1] & self0 & Hget & Hrun). injection Hget as <- <- <-.
  apply bind_Ok in Hrun as ([w1 s1] & e & Hex & Hrun).
  apply on_fst_inv in Hex as [Hex ->].
  assert (nodes w1 = nodes w) as Hn1 by (by injection Hex as <- _).
  apply bind_Ok in Hrun as ([w2 s2] & ret0 & Hret0 & Hrun).
  assert (scan_inv w self (w2, s2) ret0) as HI.
  { destruct e.
    - apply bind_Ok in Hret0 as ([w3 s3] & loaded & Hload & Hret0).
      apply on_fst_inv in Hload as [Hload ->].
      pose proof (safe_load_nodes (PStr (exp_file self)) w1) as Hn3.
      rewrite Hload in Hn3. cbn in Hn3.
      apply bind_Ok in Hret0 as ([w4 s4] & index & Hidx & Hret0).
      unfold of_result in Hidx. injection Hidx as <- <- _.
      injection Hret0 as <- <- <-. repeat split; try done; [cbn; congruence|].
      apply fold_assoc_set_NoDup. constructor.
    - injection Hret0 as <- <- <-. repeat split; try done. constructor. }
  pose proof (fold_M_elem (scan_inv w self) scan_grows
    (fun (pd : string * pyval) s ret_ =>
       ∀ rootv root fname,
         subscript_str (snd pd) "root" = Ok rootv →
         fspath rootv = Ok root →
         fname ∈ glob_yml_in w (osp.join root [".project"]) →
         recorded s ret_ (KStr (fst pd)) (osp.splitext_root (osp.basename fname)))
    scan_project (ProjectsConfig.items (projects self))) as Hfold.
  destruct (Hfold scan_grows_refl scan_grows_trans) with (acc := ret0) (s := (w2, s2))
    (s' := (w', self')) (acc' := found) as (HI' & _ & Hall); try done.
  - intros pd s a s' a' Hest Hg rootv cp fname H1 H2 H3. apply (Hg _ _ (Hest _ _ _ H1 H2 H3)).
  - intros [project d] a s s' a' _ HIs Hstep.
    by apply (scan_project_step w self a project d s s' a').
  - split; [done|]. intros project d rootv cp fname Hin. by apply (Hall (project, d)).
Qed.

(** *** Filling the registry from what the scan found *)

Lemma assoc_set_fresh {A} k (v : A) its :
  k ∉ map fst its → assoc_set k v its = (its ++ [(k, v)])%list.
Proof.
  induction its as [|[k' v'] rest IH]; cbn; [done|].
  intros Hnin. apply not_elem_of_cons in Hnin as [Hne Hnin].
  rewrite bool_decide_false by done. by rewrite IH.
Qed.

Lemma fold_assoc_set_fresh {A} (l acc : list (string * A)) :
  NoDup (map fst (acc ++ l)) →
  fold_left (fun r kv => assoc_set (fst kv) (snd kv) r) l acc = (acc ++ l)%list.
Proof.
  revert acc. induction l as [|[k v] l IH]; intros acc Hnd; cbn.
  - by rewrite app_nil_r.
  - rewrite assoc_set_fresh.
    + rewrite IH; rewrite <- app_assoc; done.
    + rewrite map_app in Hnd. apply NoDup_app in Hnd as (_ & Hdisj & _).
      intros Hin. apply (Hdisj k Hin). cbn. apply elem_of_cons. by left.
Qed.

Lemma setitem_run key val self self' :
  __setitem__ key val self = (self', Ok tt) →
  items self' = assoc_set key val (items self)
  ∧ ∀ k exp, indexed self k exp → indexed self' k exp.
Proof.
  destruct (isinstance_Archive val) eqn:Ha.
  - destruct val; try discriminate. rewrite setitem_archive_run.
    destruct (index_entries (items self) (_project_map self)) as [m [e|]] eqn:Hidx; [done|].
    intros [= <-]. split; [done|]. intros k exp Hin. unfold indexed in *. cbn.
    by eapply index_entries_mono.
  - unfold __setitem__. rewrite Ha. unfold bind, ret, set_items, modify.
    intros [= <-]. by split.
Qed.

Lemma setitem_loop found w self w' self' :
  for_each found (fun kv => on_snd (S := world) (__setitem__ (fst kv) (snd kv))) (w, self)
  = ((w', self'), Ok tt) →
  items self' = fold_left (fun r kv => assoc_set (fst kv) (snd kv) r) found (items self)
  ∧ ∀ k exp, indexed self k exp → indexed self' k exp.
Proof.
  revert w self. induction found as [|[key val] rest IH]; intros w self.
  - by intros [= <- <-].
  - cbn [for_each]. intros Hrun.
    apply bind_Ok in Hrun as ([w1 self1] & [] & Hset & Hrun).
    apply on_snd_inv in Hset as [Hset ->]. apply setitem_run in Hset as [Hitems Hmono].
    apply IH in Hrun as [Hitems' Hmono']. cbn. rewrite Hitems', Hitems.
    split; [done|]. intros k exp Hin. by apply Hmono', Hmono.
Qed.

(** * The registries on the file store *)

Ltac decide_by_computation := refine (bool_decide_unpack _ _); vm_compute; exact I.

(** ** Locked file I/O: what a call does to the store *)

Lemma safe_load_events (f : string) (w : world) :
  events_of (safe_load (PStr f)) w
  = [EvAcquire (f ++ ".lck"); EvOpenRead f; EvRelease (f ++ ".lck")].
Proof.
  unfold events_of, safe_load, bind, of_result, acquire, try_finally, read_yaml, release,
    log, modify, set_held, get, ret, raise. cbn.
  destruct (nodes w !! f) as [[[v|]|]|]; cbn;
    rewrite <- !app_assoc; rewrite drop_app_length; reflexivity.
Qed.

Lemma rename_Ok_nodes a b w w' :
  rename a b w = (w', Ok tt) →
  ∃ n, nodes w !! a = Some n ∧ nodes w' = <[b := n]> (delete a (nodes w))
       ∧ held w' = held w ∧ cwd w' = cwd w.
Proof.
  unfold rename, bind, log, modify, get, raise, set_nodes. cbn.
  destruct (nodes w !! a) as [[c|]|] eqn:Ha; [| |done];
    destruct (nodes w !! b) as [[c'|]|] eqn:Hb; try done;
    intros [= <-]; eexists; done.
Qed.

Lemma write_yaml_Ok_nodes d f w w' :
  write_yaml d f w = (w', Ok tt) →
  f ≠ "" ∧ is_dir w f = false ∧ is_dir w (osp.dirname f) = true
  ∧ nodes w' = <[f := File (Parsed d)]> (nodes w) ∧ held w' = held w ∧ cwd w' = cwd w.
Proof.
  unfold write_yaml, bind, log, modify, get, raise, set_nodes. cbn.
  change (is_dir _ f) with (is_dir w f).
  change (is_dir _ (osp.dirname f)) with (is_dir w (osp.dirname f)).
  destruct (bool_decide (f = "")) eqn:Hf; [done|].
  destruct (is_dir w f) eqn:Hd; [done|].
  destruct (is_dir w (osp.dirname f)) eqn:Hp; [|done].
  cbn. intros [= <-]. apply bool_decide_eq_false in Hf. done.
Qed.

Lemma exists_run p w :
  exists_ p w
  = ({| nodes := nodes w; cwd := cwd w; held := held w;
        trace := (trace w ++ [EvExists p])%list |}, Ok (path_exists w p)).
Proof. reflexivity. Qed.

Lemma locked_region_Ok {A} (body : M world A) lck w w' (a : A) :
  (acquire lck ;; try_finally body (release lck))%M w = (w', Ok a) →
  ∃ w1 w2, nodes w1 = nodes w ∧ cwd w1 = cwd w ∧ held w1 = lck :: held w
           ∧ body w1 = (w2, Ok a)
           ∧ nodes w' = nodes w2 ∧ cwd w' = cwd w2 ∧ held w' = remove_one lck (held w2).
Proof.
  unfold bind, acquire, log, modify, set_held, try_finally, release. cbn.
  match goal with |- context [body ?x] => set (w1 := x) end.
  destruct (body w1) as [w2 r] eqn:Hb. cbn. intros [= <- ->].
  exists w1, w2. done.
Qed.

(** The store after a [safe_dump] that returned. *)
Lemma safe_dump_Ok_nodes (d : pyval) (f : string) (w w' : world) :
  safe_dump d f w = (w', Ok tt) →
  nodes w' = <[f := File (Parsed d)]>
               (match nodes w !! f with
                | Some n => <[f ++ "~" := n]> (delete f (nodes w))
                | None => nodes w
                end)
  ∧ held w' = held w ∧ cwd w' = cwd w.
Proof.
  unfold safe_dump. intros H.
  apply bind_Ok in H as (w1 & e & He & H). rewrite exists_run in He.
  injection He as <- <-.
  apply bind_Ok in H as (w2 & [] & Hr & H).
  apply locked_region_Ok in H as (w3 & w4 & Hn3 & Hc3 & Hh3 & Hw & Hn' & Hc' & Hh').
  apply write_yaml_Ok_nodes in Hw as (Hf & Hd & Hp & Hn4 & Hh4 & Hc4).
  rewrite Hn', Hc', Hh', Hn4, Hh4, Hc4, Hn3, Hh3, Hc3. cbn.
  rewrite bool_decide_true by done.
  destruct (path_exists w f) eqn:Hex.
  - apply rename_Ok_nodes in Hr as (n & Hn & Hn2 & Hh2 & Hc2). cbn in *.
    rewrite Hn, Hn2, Hh2, Hc2. done.
  - injection Hr as <-. cbn.
    unfold path_exists in Hex. apply andb_false_iff in Hex as [Hex|Hex].
    + apply negb_false_iff, bool_decide_eq_true in Hex. done.
    + apply orb_false_iff in Hex as [_ Hex]. apply bool_decide_eq_false in Hex.
      destruct (nodes w !! f) eqn:Hn; [|done]. exfalso. apply Hex. eauto.
Qed.

Lemma string_app_length (a b : string) :
  String.length (a ++ b) = String.length a + String.length b.
Proof. induction a as [|x a IH]; simpl; [done|]. by rewrite IH. Qed.

Lemma backup_name_ne (f : string) : f ++ "~" ≠ f.
Proof.
  intros H. apply (f_equal String.length) in H.
  rewrite string_app_length in H. cbn in H. lia.
Qed.

Lemma safe_load_Ok_file (f : string) (v : pyval) (w : world) :
  nodes w !! f = Some (File (Parsed v)) →
  ∃ w', safe_load (PStr f) w = (w', Ok v).
Proof.
  intros Hn. unfold safe_load, bind, of_result, acquire, try_finally, read_yaml, release,
    log, modify, set_held, get, ret. cbn. rewrite Hn. cbn. eauto.
Qed.

Lemma safe_load_Ok_inv (fname v : pyval) (w w' : world) :
  safe_load fname w = (w', Ok v) →
  ∃ f, fspath fname = Ok f ∧ nodes w !! f = Some (File (Parsed v))
       ∧ nodes w' = nodes w ∧ held w' = held w ∧ cwd w' = cwd w.
Proof.
  unfold safe_load. intros H.
  apply bind_Ok in H as (w1 & f & Hf & H). unfold of_result in Hf.
  injection Hf as <- Hf. exists f. split; [done|].
  apply locked_region_Ok in H as (w3 & w4 & Hn3 & Hc3 & Hh3 & Hr & Hn' & Hc' & Hh').
  unfold read_yaml, bind, log, modify, get, ret, raise in Hr. cbn in Hr.
  rewrite Hn3 in Hr.
  destruct (nodes w !! f) as [[[v'|]|]|] eqn:Hn; try done.
  injection Hr as <- <-. cbn in *. rewrite Hn', Hc', Hh', Hh3, Hc3. cbn.
  rewrite bool_decide_true by done. done.
Qed.

(** Property X1.
    [safe_load] of a file name performs three operations, whatever the
    outcome: it acquires the lock on [fname.lck], opens [fname] for reading
    and releases the lock. The file is touched only while the lock is held
    and no lock object stays acquired, also when the file is missing or
    cannot be parsed. *)
Theorem safe_load_lock_discipline (fname : pyval) (f : string) (w : world) :
  fspath fname = Ok f →
  events_of (safe_load fname) w
  = [EvAcquire (f ++ ".lck"); EvOpenRead f; EvRelease (f ++ ".lck")]
  ∧ under_lock (f ++ ".lck") f 0 (events_of (safe_load fname) w) = true
  ∧ held (fst (safe_load fname w)) = held w.
Proof.
  intros Hf.
  assert (events_of (safe_load fname) w
          = [EvAcquire (f ++ ".lck"); EvOpenRead f; EvRelease (f ++ ".lck")]) as Hev.
  { rewrite <- (safe_load_events f w). unfold events_of, safe_load. by rewrite Hf. }
  split; [exact Hev|]. split; [|apply safe_load_releases].
  rewrite Hev. cbn. rewrite !bool_decide_true by done. reflexivity.
Qed.

Lemma safe_load_lock_discipline_witness :
  fspath (PStr "/c/projects.yml") = Ok "/c/projects.yml"
  ∧ events_of (safe_load (PStr "/c/projects.yml")) c2_world
    = [EvAcquire ("/c/projects.yml" ++ ".lck"); EvOpenRead "/c/projects.yml";
       EvRelease ("/c/projects.yml" ++ ".lck")]
  ∧ under_lock ("/c/projects.yml" ++ ".lck") "/c/projects.yml" 0
      (events_of (safe_load (PStr "/c/projects.yml")) c2_world) = true
  ∧ held (fst (safe_load (PStr "/c/projects.yml") c2_world)) = held c2_world.
Proof.
  split; [reflexivity|].
  exact (safe_load_lock_discipline (PStr "/c/projects.yml") "/c/projects.yml" c2_world
           eq_refl).
Defined.

(** Property X3.
    The backup of [safe_dump]: when [safe_dump(d, fname)] returns, a file
    that was at [fname] is at [fname~] with the content it had, and
    nothing is put at [fname~] when there was nothing at [fname]; unless
    [fname] was a directory, every other path of the store is as it
    was. *)
Theorem safe_dump_keeps_backup (d : pyval) (f : string) (w w' : world) :
  safe_dump d f w = (w', Ok tt) →
  (∀ c, nodes w !! f = Some (File c) → nodes w' !! (f ++ "~") = Some (File c))
  ∧ (nodes w !! f = None → nodes w' !! (f ++ "~") = nodes w !! (f ++ "~"))
  ∧ (nodes w !! f ≠ Some Dir →
     ∀ q, q ≠ f → q ≠ f ++ "~" → nodes w' !! q = nodes w !! q).
Proof.
  intros H. apply safe_dump_Ok_nodes in H as (Hn & _ & _).
  pose proof (backup_name_ne f) as Hne.
  split; [|split].
  - intros c Hc. rewrite Hn, Hc.
    rewrite lookup_insert_ne by done. apply lookup_insert_eq.
  - intros Hc. rewrite Hn, Hc. by rewrite lookup_insert_ne.
  - intros _ q Hq Hq'. rewrite Hn. rewrite lookup_insert_ne by done.
    destruct (nodes w !! f); [|done].
    rewrite lookup_insert_ne by done. by rewrite lookup_delete_ne.
Qed.

Lemma safe_dump_keeps_backup_witness :
  safe_dump (PDict []) "/c/projects.yml" c2_world
  = (fst (safe_dump (PDict []) "/c/projects.yml" c2_world), Ok tt)
  ∧ nodes (fst (safe_dump (PDict []) "/c/projects.yml" c2_world))
      !! ("/c/projects.yml" ++ "~")
    = Some (File (Parsed (PDict [("a", PStr "/a")])))
  ∧ nodes (fst (safe_dump (PDict []) "/c/projects.yml" c2_world)) !! "/c"
    = nodes c2_world !! "/c".
Proof.
  assert (H : safe_dump (PDict []) "/c/projects.yml" c2_world
              = (fst (safe_dump (PDict []) "/c/projects.yml" c2_world), Ok tt))
    by (vm_compute; reflexivity).
  split; [exact H|].
  destruct (safe_dump_keeps_backup _ _ _ _ H) as (Hb & _ & Hfr).
  split.
  - apply Hb. vm_compute. reflexivity.
  - apply Hfr; [vm_compute; discriminate|discriminate|discriminate].
Defined.

(** ** Reading experiments: realization on first access *)

Lemma assoc_set_twice {A} k (v v0 : A) its :
  assoc_set k v (assoc_set k v0 its) = assoc_set k v its.
Proof.
  induction its as [|[k' v'] rest IH]; cbn.
  - by rewrite bool_decide_true.
  - case_bool_decide; cbn.
    + by rewrite bool_decide_true.
    + rewrite bool_decide_false by done. by rewrite IH.
Qed.

Lemma assoc_set_keys_fst {A} k (v : A) its :
  map fst (assoc_set k v its)
  = if bool_decide (k ∈ map fst its) then map fst its else (map fst its ++ [k])%list.
Proof.
  induction its as [|[k' v'] rest IH]; cbn; [done|].
  destruct (decide (k = k')) as [->|Hk].
  - rewrite (bool_decide_true (k' = k')) by done. cbn.
    rewrite bool_decide_true; [done|]. apply elem_of_cons. by left.
  - rewrite (bool_decide_false (k = k')) by done. cbn. rewrite IH.
    destruct (decide (k ∈ map fst rest)) as [Hin|Hin].
    + rewrite !bool_decide_true; [done| |done]. apply elem_of_cons. by right.
    + rewrite !bool_decide_false; [done| |done]. intros [?|?]%elem_of_cons; done.
Qed.

Lemma assoc_Some_key {A} k (v : A) its : assoc k its = Some v → k ∈ map fst its.
Proof.
  induction its as [|[k' v'] rest IH]; cbn; [done|].
  case_bool_decide as Hk.
  - intros _. subst. apply elem_of_cons. by left.
  - intros H. apply elem_of_cons. right. by apply IH.
Qed.

Lemma setitem_Ok_inv key val self self' :
  __setitem__ key val self = (self', Ok tt) →
  items self' = assoc_set key val (items self)
  ∧ projects self' = projects self
  ∧ (isinstance_Archive val = false → _project_map self' = _project_map self)
  ∧ ∀ k exp, indexed self k exp → indexed self' k exp.
Proof.
  intros H. pose proof (setitem_run _ _ _ _ H) as [Hit Hmono].
  split; [done|]. split; [|split; [|done]].
  - destruct (isinstance_Archive val) eqn:Ha.
    + destruct val; try discriminate. rewrite setitem_archive_run in H.
      destruct (index_entries (items self) (_project_map self)) as [m [e|]]; [done|].
      by injection H as <-.
    + unfold __setitem__ in H. rewrite Ha in H.
      unfold bind, ret, set_items, modify in H. by injection H as <-.
  - intros Ha. unfold __setitem__ in H. rewrite Ha in H.
    unfold bind, ret, set_items, modify in H. by injection H as <-.
Qed.

(** A read of a pending reference that returned. *)
Lemma getitem_pending_Ok (w w' : world) (self self' : t) (attr : string) (ref d : pyval) :
  assoc attr (items self) = Some ref →
  isinstance_dict ref || isinstance_Archive ref = false →
  __getitem__ attr (w, self) = ((w', self'), Ok d) →
  ∃ d0, safe_load ref w = (w', Ok d0)
        ∧ d = (if isinstance_dict d0
               then fst (fix_paths (ProjectsConfig.items (projects self)) d0 PNone PNone)
               else d0)
        ∧ (isinstance_dict d0 = true → isinstance_dict d = true)
        ∧ items self' = assoc_set attr d (items self)
        ∧ projects self' = projects self
        ∧ ∀ k exp, indexed self k exp → indexed self' k exp.
Proof.
  intros Hget Hkind. unfold __getitem__.
  unfold bind at 1. cbn [on_snd get fst snd]. rewrite Hget, Hkind. cbn [negb].
  intros H. apply bind_Ok in H as ([w1 self1] & d0 & Hload & H).
  apply on_fst_inv in Hload as [Hload ->].
  apply bind_Ok in H as ([w2 self2] & [] & Hset & H).
  apply on_snd_inv in Hset as [Hset ->].
  apply setitem_Ok_inv in Hset as (Hit & Hpr & _ & Hmono).
  exists d0. destruct (isinstance_dict d0) eqn:Hd0.
  - unfold bind at 1 in H. cbn [on_snd get fst snd] in H. rewrite Hpr in H.
    destruct (fix_paths (ProjectsConfig.items (projects self)) d0 PNone PNone)
      as [d' [e|]] eqn:Hfix; cbn in H; [done|].
    injection H as <- <- <-. cbn.
    split; [done|]. split; [done|]. split.
    { intros _. destruct d0 as [| | | | | |its0]; try discriminate.
      pose proof (fix_paths_is_dict (ProjectsConfig.items (projects self)) its0
                    PNone PNone) as Hd. by rewrite Hfix in Hd. }
    split; [by rewrite Hit, assoc_set_twice|]. done.
  - injection H as <- <- <-. done.
Qed.

Lemma getitem_realized (w : world) (self : t) (attr : string) (v : pyval) :
  assoc attr (items self) = Some v →
  isinstance_dict v || isinstance_Archive v = true →
  __getitem__ attr (w, self) = ((w, self), Ok v).
Proof.
  intros Hget Hkind. unfold __getitem__.
  unfold bind at 1. cbn [on_snd get fst snd]. by rewrite Hget, Hkind.
Qed.

Lemma getitem_Ok_key (w w' : world) (self self' : t) (attr : string) (d : pyval) :
  __getitem__ attr (w, self) = ((w', self'), Ok d) → is_Some (assoc attr (items self)).
Proof.
  unfold __getitem__. unfold bind at 1. cbn [on_snd get fst snd].
  destruct (assoc attr (items self)); [eauto|done].
Qed.

Lemma load_loop (keys : list string) (w w' : world) (self self' : t) :
  NoDup keys →
  for_each keys (fun key => __getitem__ key ;; ret tt) (w, self) = ((w', self'), Ok tt) →
  nodes w' = nodes w ∧ held w' = held w
  ∧ projects self' = projects self
  ∧ map fst (items self') = map fst (items self)
  ∧ (∀ k, k ∉ keys → assoc k (items self') = assoc k (items self))
  ∧ ∀ k, k ∈ keys →
      ∃ v v', assoc k (items self) = Some v ∧ assoc k (items self') = Some v'
              ∧ realized_from (nodes w) (ProjectsConfig.items (projects self)) v v'.
Proof.
  revert w self. induction keys as [|key rest IH]; intros w self Hnd.
  - intros [= <- <-]. repeat split; try done. intros k Hk. by apply elem_of_nil in Hk.
  - cbn [for_each]. intros H. apply NoDup_cons in Hnd as [Hnin Hnd].
    apply bind_Ok in H as ([w1 self1] & [] & Hget & H).
    apply bind_Ok in Hget as ([w1' self1'] & d & Hget & Hret).
    injection Hret as -> ->.
    apply (IH _ _ Hnd) in H as (Hn & Hh & Hp & Hk & Hout & Hin).
    pose proof (getitem_Ok_key _ _ _ _ _ _ Hget) as [v Hv].
    destruct (isinstance_dict v || isinstance_Archive v) eqn:Hkind.
    + rewrite (getitem_realized _ _ _ _ Hv Hkind) in Hget.
      injection Hget as <- <- <-.
      repeat split; try done.
      * intros k Hk'. apply Hout. intros Hr. apply Hk'. apply elem_of_cons. by right.
      * intros k [->|Hk']%elem_of_cons; [|by apply Hin].
        exists v, v. rewrite (Hout _ Hnin). repeat split; try done.
        unfold realized_from. by rewrite Hkind.
    + destruct (getitem_pending_Ok _ _ _ _ _ _ _ Hv Hkind Hget)
        as (d0 & Hload & Hd & _ & Hit & Hpr & _).
      apply safe_load_Ok_inv in Hload as (f & Hf & Hfile & Hn1 & Hh1 & _).
      rewrite Hn, Hh, Hp, Hk, Hn1, Hh1, Hpr.
      assert (Hkeys : map fst (items self1) = map fst (items self)).
      { rewrite Hit, assoc_set_keys_fst. rewrite bool_decide_true; [done|].
        by eapply assoc_Some_key. }
      repeat split; try done.
      * intros k Hk'. rewrite Hout.
        -- rewrite Hit. apply assoc_set_lookup_ne. intros ->. apply Hk'.
           apply elem_of_cons. by left.
        -- intros Hr. apply Hk'. apply elem_of_cons. by right.
      * intros k [->|Hk']%elem_of_cons.
        -- exists v, d. rewrite (Hout _ Hnin), Hit, assoc_set_lookup.
           repeat split; try done. unfold realized_from. rewrite Hkind.
           exists f, d0. done.
        -- destruct (Hin _ Hk') as (u & u' & Hu & Hu' & Hrel).
           assert (k ≠ key) as Hne by (intros ->; done).
           exists u, u'. rewrite Hit, assoc_set_lookup_ne in Hu by done.
           rewrite Hn1, Hpr in Hrel. done.
Qed.

Lemma getitem_Ok_stored (w w' : world) (self self' : t) (attr : string) (d : pyval) :
  __getitem__ attr (w, self) = ((w', self'), Ok d) → assoc attr (items self') = Some d.
Proof.
  intros H. pose proof (getitem_Ok_key _ _ _ _ _ _ H) as [v Hv].
  destruct (isinstance_dict v || isinstance_Archive v) eqn:Hkind.
  - rewrite (getitem_realized _ _ _ _ Hv Hkind) in H. by injection H as <- <- <-.
  - destruct (getitem_pending_Ok _ _ _ _ _ _ _ Hv Hkind H) as (d0 & _ & _ & _ & Hit & _).
    rewrite Hit. apply assoc_set_lookup.
Qed.

(** The loop of [OrderedDict(self)]: it does what [load] does, and the
    copy holds, key by key, what the registry holds afterwards. *)
Lemma copy_loop (keys : list string) (acc : list (string * pyval)) (w w' : world)
    (self self' : t) (d : list (string * pyval)) :
  NoDup keys →
  fold_M keys acc (fun acc key => v <- __getitem__ key ;; ret (assoc_set key v acc))
    (w, self) = ((w', self'), Ok d) →
  for_each keys (fun key => __getitem__ key ;; ret tt) (w, self) = ((w', self'), Ok tt)
  ∧ ∃ vals, Forall2 (fun k kv => fst kv = k ∧ assoc k (items self') = Some (snd kv))
                    keys vals
            ∧ d = fold_left (fun a kv => assoc_set (fst kv) (snd kv) a) vals acc.
Proof.
  revert acc w self. induction keys as [|key rest IH]; intros acc w self Hnd.
  - intros [= <- <- <-]. split; [done|]. exists []. split; [constructor|done].
  - cbn [fold_M for_each]. intros H. apply NoDup_cons in Hnd as [Hnin Hnd].
    apply bind_Ok in H as ([w1 self1] & acc1 & Hstep & H).
    apply bind_Ok in Hstep as ([w1' self1'] & v & Hget & Hret).
    injection Hret as -> -> <-.
    destruct (IH _ _ _ Hnd H) as (Hrest & vals & Hvals & Hd).
    split.
    { erewrite bind_run_Ok; [exact Hrest|]. by erewrite bind_run_Ok. }
    exists ((key, v) :: vals). split; [|done].
    constructor; [|done]. split; [done|]. cbn.
    apply load_loop in Hrest as (_ & _ & _ & _ & Hout & _); [|done].
    rewrite (Hout key Hnin). by eapply getitem_Ok_stored.
Qed.

Lemma vals_are_items (l vals : list (string * pyval)) :
  NoDup (map fst l) →
  Forall2 (fun k kv => fst kv = k ∧ assoc k l = Some (snd kv)) (map fst l) vals →
  vals = l.
Proof.
  revert vals. induction l as [|[k v] l IH]; intros vals Hnd H.
  - by inversion H.
  - cbn [map fst] in H, Hnd. apply NoDup_cons in Hnd as [Hnin Hnd].
    inversion H as [|? kv ? vals' Hhead Hrest]; subst.
    destruct kv as [k' v']. destruct Hhead as [Hk Hv]. cbn in Hk, Hv. subst k'.
    rewrite bool_decide_true in Hv by done. injection Hv as <-.
    f_equal. apply IH; [done|].
    clear -Hrest Hnin. induction Hrest as [|k1 kv ks vs [Hk1 Hv1] _ IHr]; constructor.
    + split; [done|]. cbn [assoc] in Hv1. rewrite bool_decide_false in Hv1; [done|].
      intros ->. apply Hnin. apply elem_of_cons. by left.
    + apply IHr. intros Hin. apply Hnin. apply elem_of_cons. by right.
Qed.

Lemma load_loop_cwd (keys : list string) (w w' : world) (self self' : t) :
  for_each keys (fun key => __getitem__ key ;; ret tt) (w, self) = ((w', self'), Ok tt) →
  cwd w' = cwd w.
Proof.
  revert w self. induction keys as [|key rest IH]; intros w self.
  - by intros [= <- <-].
  - cbn [for_each]. intros H.
    apply bind_Ok in H as ([w1 self1] & [] & Hget & H).
    apply bind_Ok in Hget as ([w1' self1'] & d & Hget & Hret).
    injection Hret as -> ->.
    apply IH in H. rewrite H.
    pose proof (getitem_Ok_key _ _ _ _ _ _ Hget) as [v Hv].
    destruct (isinstance_dict v || isinstance_Archive v) eqn:Hkind.
    + rewrite (getitem_realized _ _ _ _ Hv Hkind) in Hget. by injection Hget as <- <- <-.
    + destruct (getitem_pending_Ok _ _ _ _ _ _ _ Hv Hkind Hget) as (d0 & Hload & _).
      by apply safe_load_Ok_inv in Hload as (f & _ & _ & _ & _ & Hc).
Qed.

Lemma assoc_of_key {A} k (its : list (string * A)) :
  k ∈ map fst its → is_Some (assoc k its).
Proof.
  induction its as [|[k' v'] rest IH]; cbn; [by intros ?%elem_of_nil|].
  intros [->|Hin]%elem_of_cons.
  - rewrite bool_decide_true by done. eauto.
  - case_bool_decide; [eauto|by apply IH].
Qed.

(** Where nothing is pending, the reads change nothing. *)
Lemma load_loop_settled (keys : list string) (w : world) (self : t) :
  settled (items self) →
  Forall (fun k => k ∈ map fst (items self)) keys →
  for_each keys (fun key => __getitem__ key ;; ret tt) (w, self) = ((w, self), Ok tt).
Proof.
  intros Hs. induction 1 as [|key rest Hkey _ IH]; [done|].
  cbn [for_each]. destruct (assoc_of_key _ _ Hkey) as [v Hv].
  erewrite bind_run_Ok; [exact IH|].
  erewrite bind_run_Ok; [reflexivity|].
  apply getitem_realized; [done|].
  apply (proj1 (Forall_forall _ _) Hs (key, v)). by apply assoc_elem_of.
Qed.

(** The loop of [dict(self)] returns where the loop of [load] does. *)
Lemma copy_loop_total (keys : list string) (acc : list (string * pyval)) (w w' : world)
    (self self' : t) :
  for_each keys (fun key => __getitem__ key ;; ret tt) (w, self) = ((w', self'), Ok tt) →
  ∃ d, fold_M keys acc (fun acc key => v <- __getitem__ key ;; ret (assoc_set key v acc))
         (w, self) = ((w', self'), Ok d).
Proof.
  revert acc w self. induction keys as [|key rest IH]; intros acc w self.
  - intros [= <- <-]. by eexists.
  - cbn [for_each fold_M]. intros H.
    apply bind_Ok in H as ([w1 self1] & [] & Hget & H).
    apply bind_Ok in Hget as ([w1' self1'] & d & Hget & Hret).
    injection Hret as -> ->.
    destruct (IH (assoc_set key d acc) _ _ H) as [d' Hd'].
    exists d'. erewrite bind_run_Ok; [exact Hd'|]. by erewrite bind_run_Ok.
Qed.

(** [dict(self)], when it returns: it has done what [load()] does, and
    the copy holds the entries of the registry as they are then. *)
Lemma copy_realized_Ok (w w1 : world) (self self1 : t) (copy : list (string * pyval)) :
  NoDup (map fst (items self)) →
  copy_realized (w, self) = ((w1, self1), Ok copy) →
  load (w, self) = ((w1, self1), Ok tt) ∧ copy = items self1.
Proof.
  intros Hnd Hcopy. unfold copy_realized in Hcopy.
  apply bind_Ok in Hcopy as ([w0 s0] & self0 & Hget & Hcopy). injection Hget as <- <- <-.
  apply copy_loop in Hcopy as (Hload & vals & Hvals & ->); [|done].
  unfold load. erewrite bind_run_Ok; [|reflexivity]. split; [exact Hload|].
  pose proof (load_loop _ _ _ _ _ Hnd Hload) as (_ & _ & _ & Hkeys & _).
  assert (NoDup (map fst (items self1))) as Hnd1 by (by rewrite Hkeys).
  rewrite <- Hkeys in Hvals. apply vals_are_items in Hvals; [|done]. subst vals.
  by apply fold_assoc_set_fresh.
Qed.

Lemma copy_realized_settled (w : world) (self : t) :
  NoDup (map fst (items self)) → settled (items self) →
  copy_realized (w, self) = ((w, self), Ok (items self)).
Proof.
  intros Hnd Hs.
  destruct (copy_loop_total (map fst (items self)) [] w w self self) as [d Hd].
  { apply load_loop_settled; [done|]. by apply Forall_forall. }
  assert (copy_realized (w, self) = ((w, self), Ok d)) as Hc.
  { unfold copy_realized. by erewrite bind_run_Ok. }
  by destruct (copy_realized_Ok _ _ _ _ _ Hnd Hc) as [_ ->].
Qed.

(** A [load] that returned. *)
Lemma load_Ok_inv (w w1 : world) (self self1 : t) :
  NoDup (map fst (items self)) →
  load (w, self) = ((w1, self1), Ok tt) →
  nodes w1 = nodes w ∧ held w1 = held w ∧ cwd w1 = cwd w
  ∧ projects self1 = projects self
  ∧ map fst (items self1) = map fst (items self)
  ∧ ∀ key v, assoc key (items self) = Some v →
      ∃ v', assoc key (items self1) = Some v'
            ∧ realized_from (nodes w) (ProjectsConfig.items (projects self)) v v'.
Proof.
  intros Hnd H. unfold load in H.
  apply bind_Ok in H as ([w0 s0] & self0 & Hget & H). injection Hget as <- <- <-.
  pose proof (load_loop_cwd _ _ _ _ _ H) as Hc.
  apply load_loop in H as (Hn & Hh & Hp & Hk & _ & Hin); [|done].
  repeat (split; [done|]). intros key v Hv.
  destruct (Hin key) as (v0 & v' & Hv0 & Hv' & Hr); [by eapply assoc_Some_key|].
  rewrite Hv in Hv0. injection Hv0 as <-. by exists v'.
Qed.

(** Property X4.
    [self[attr]] on a pending reference, when it returns: the value
    returned is what [safe_load] read from the referenced file, with
    [fix_paths] applied to it when it is a document; the registry holds
    that very value under [attr], at the place the reference had, and no
    other entry has changed; and when the value is a document, reading
    [attr] again returns it without any access to the file store. *)
Theorem first_read_realizes (w w' : world) (self self' : t) (attr : string)
    (ref d : pyval) :
  assoc attr (items self) = Some ref →
  isinstance_dict ref || isinstance_Archive ref = false →
  __getitem__ attr (w, self) = ((w', self'), Ok d) →
  (∃ d0, safe_load ref w = (w', Ok d0)
         ∧ d = (if isinstance_dict d0
                then fst (fix_paths (ProjectsConfig.items (projects self)) d0 PNone PNone)
                else d0))
  ∧ assoc attr (items self') = Some d
  ∧ map fst (items self') = map fst (items self)
  ∧ (∀ k, k ≠ attr → assoc k (items self') = assoc k (items self))
  ∧ (isinstance_dict d = true →
     ∀ w2, __getitem__ attr (w2, self') = ((w2, self'), Ok d)).
Proof.
  intros Hget Hkind Hrun.
  destruct (getitem_pending_Ok _ _ _ _ _ _ _ Hget Hkind Hrun)
    as (d0 & Hload & Hd & _ & Hit & _ & _).
  assert (Hstored : assoc attr (items self') = Some d)
    by (rewrite Hit; apply assoc_set_lookup).
  split; [by exists d0|]. split; [done|]. split; [|split].
  - rewrite Hit, assoc_set_keys_fst. rewrite bool_decide_true; [done|].
    by eapply assoc_Some_key.
  - intros k Hk. rewrite Hit. apply assoc_set_lookup_ne. congruence.
  - intros Hdict w2. apply getitem_realized; [done|]. by rewrite Hdict.
Qed.

Lemma x_pending_nodup : NoDup (map fst (items x_pending)).
Proof. decide_by_computation. Qed.

Lemma x_realized_nodup : NoDup (map fst (items x_realized)).
Proof. decide_by_computation. Qed.

Lemma x_index_nodup : NoDup (map fst x_index).
Proof. decide_by_computation. Qed.

Lemma x_built_Ok : x_built = (fst x_built, Ok x_scanned).
Proof. vm_compute. reflexivity. Qed.

Lemma x_not_scanned : ¬ scanned x_world (ProjectsConfig.items c3_projects) "g".
Proof.
  intros (project & d & rootv & root & fname & Hin & Hsub & Hfs & Hg & Hname).
  apply list_elem_of_singleton in Hin as [= -> ->].
  injection Hsub as <-. injection Hfs as <-.
  revert Hg. vm_compute glob_yml_in. intros ->%list_elem_of_singleton.
  vm_compute in Hname. discriminate Hname.
Qed.

Lemma x_saved_Ok : x_saved = ((fst (fst x_saved), snd (fst x_saved)), Ok tt).
Proof. vm_compute. reflexivity. Qed.

Lemma first_read_realizes_witness :
  assoc "e" (items x_pending) = Some (PStr "/p/.project/e.yml")
  ∧ x_read = ((fst (fst x_read), snd (fst x_read)), Ok x_document)
  ∧ assoc "e" (items (snd (fst x_read))) = Some x_document
  ∧ map fst (items (snd (fst x_read))) = map fst (items x_pending).
Proof.
  assert (H : x_read = ((fst (fst x_read), snd (fst x_read)), Ok x_document))
    by (vm_compute; reflexivity).
  split; [reflexivity|]. split; [exact H|].
  destruct (first_read_realizes x_world _ x_pending _ "e" (PStr "/p/.project/e.yml")
              x_document eq_refl eq_refl H) as (_ & Ha & Hk & _).
  by split.
Defined.

(** Property X5.
    [load()], when it returns: the keys and their order are as before,
    the file store and the locks held are as before; every entry that
    was a document or an [Archive] is unchanged, and every other entry
    holds what its file contained, with [fix_paths] applied when that is
    a document. *)
Theorem load_realizes_all (w w' : world) (self self' : t) :
  NoDup (map fst (items self)) →
  load (w, self) = ((w', self'), Ok tt) →
  nodes w' = nodes w ∧ held w' = held w
  ∧ map fst (items self') = map fst (items self)
  ∧ ∀ key v, assoc key (items self) = Some v →
      ∃ v', assoc key (items self') = Some v'
            ∧ realized_from (nodes w) (ProjectsConfig.items (projects self)) v v'.
Proof.
  intros Hnd. unfold load. unfold bind at 1. cbn [on_snd get fst snd].
  intros H. apply (load_loop _ _ _ _ _ Hnd) in H as (Hn & Hh & _ & Hk & _ & Hin).
  repeat split; try done.
  intros key v Hv. destruct (Hin key) as (u & u' & Hu & Hu' & Hrel).
  { by eapply assoc_Some_key. }
  exists u'. split; [done|]. congruence.
Qed.

Lemma load_realizes_all_witness :
  NoDup (map fst (items x_pending))
  ∧ x_loaded = ((fst (fst x_loaded), snd (fst x_loaded)), Ok tt)
  ∧ nodes (fst (fst x_loaded)) = nodes x_world
  ∧ map fst (items (snd (fst x_loaded))) = map fst (items x_pending).
Proof.
  assert (H : x_loaded = ((fst (fst x_loaded), snd (fst x_loaded)), Ok tt))
    by (vm_compute; reflexivity).
  split; [exact x_pending_nodup|]. split; [exact H|].
  destruct (load_realizes_all x_world _ x_pending _ x_pending_nodup H)
    as (Hn & _ & Hk & _).
  by split.
Defined.

(** ** The project index: no duplicates, nothing recomputed twice *)

Lemma map_append_nodup k key m : index_nodup m → index_nodup (map_append k key m).
Proof.
  intros Hm. unfold map_append. case_bool_decide as Hin; [done|].
  intros k' l. destruct (decide (k = k')) as [->|Hne].
  - rewrite lookup_insert_eq. intros [= <-].
    apply NoDup_app. split; [|split].
    + destruct (m !! k') as [l0|] eqn:Hl; cbn; [by eapply Hm|constructor].
    + intros x Hx Hx'. apply list_elem_of_singleton in Hx' as ->. done.
    + apply NoDup_singleton.
  - rewrite lookup_insert_ne by done. apply Hm.
Qed.

Lemma map_append_present k key m :
  key ∈ default [] (m !! k) → map_append k key m = m.
Proof. intros H. unfold map_append. by rewrite bool_decide_true. Qed.

Lemma index_entries_nodup its m :
  index_nodup m → index_nodup (fst (index_entries its m)).
Proof.
  revert m. induction its as [|[key val] rest IH]; intros m Hm; cbn; [done|].
  destruct (entry_project val) as [[k|]|e]; cbn; [|by apply IH|done].
  by apply IH, map_append_nodup.
Qed.

Lemma index_entries_fixed its m :
  (∀ key val k, (key, val) ∈ its → entry_project val = Ok (Some k) →
                key ∈ default [] (m !! k)) →
  Forall (fun kv => ∃ o, entry_project (snd kv) = Ok o) its →
  index_entries its m = (m, None).
Proof.
  induction its as [|[key val] rest IH]; intros Hall Hok; cbn; [done|].
  apply Forall_cons in Hok as [[o Ho] Hok]. cbn in Ho. rewrite Ho.
  assert (index_entries rest m = (m, None)) as Hrest.
  { apply IH; [|done]. intros key' val' k Hin. apply Hall. apply elem_of_cons. by right. }
  destruct o as [k|]; [|done].
  rewrite map_append_present; [done|].
  apply (Hall key val); [|done]. apply elem_of_cons. by left.
Qed.

(** Recomputing the index right after it was computed changes nothing. *)
Lemma index_entries_idempotent its m m' :
  index_entries its m = (m', None) → index_entries its m' = (m', None).
Proof.
  intros H. apply index_entries_fixed.
  - intros key val k Hin Hk. by eapply index_entries_complete.
  - by eapply index_entries_Ok_inv.
Qed.

(** Property X6.
    The property [project_map]: the entries are never changed; when it
    returns, reading it again returns the same index and changes
    nothing; and an index without duplicates stays without duplicates,
    also when the property raises half way. *)
Theorem project_map_settles (self : t) :
  items (fst (project_map self)) = items self
  ∧ projects (fst (project_map self)) = projects self
  ∧ (index_nodup (_project_map self) →
     index_nodup (_project_map (fst (project_map self))))
  ∧ ∀ self1 pm, project_map self = (self1, Ok pm) →
      _project_map self1 = pm ∧ project_map self1 = (self1, Ok pm).
Proof.
  rewrite project_map_run.
  pose proof (index_entries_nodup (items self) (_project_map self)) as Hnd.
  destruct (index_entries (items self) (_project_map self)) as [m [e|]] eqn:Hidx; cbn [fst snd with_map items projects _project_map] in *.
  - split; [done|]. split; [done|]. split; [done|]. intros self1 pm [=].
  - split; [done|]. split; [done|]. split; [done|].
    intros self1 pm [= <- <-]. split; [done|].
    rewrite project_map_run. cbn.
    by rewrite (index_entries_idempotent _ _ _ Hidx).
Qed.

(** ** The experiments registry: what construction keeps of the master index *)

Lemma extends_by_refl P ret_ : extends_by P ret_ ret_.
Proof.
  split; [|split]; [|done|by right]. exists []. by rewrite app_nil_r.
Qed.

Lemma extends_by_trans P a b c : extends_by P a b → extends_by P b c → extends_by P a c.
Proof.
  intros ([m1 H1] & Ha1 & Hc1) ([m2 H2] & Ha2 & Hc2). split; [|split].
  - exists (m1 ++ m2)%list. by rewrite H2, H1, app_assoc.
  - intros name v Hk. by rewrite (Ha1 name v Hk), (Ha2 name v Hk).
  - intros name. destruct (Hc1 name) as [?|E1]; [by left|].
    destruct (Hc2 name) as [?|E2]; [by left|]. right. congruence.
Qed.

Lemma extends_by_mono (P Q : string → Prop) a b :
  (∀ n, P n → Q n) → extends_by P a b → extends_by Q a b.
Proof.
  intros HPQ (H1 & H2 & H3). split; [done|]. split; [done|].
  intros name. destruct (H3 name); [left; by apply HPQ|by right].
Qed.

Lemma scan_file_Ok_ret w0 project config_path ret_ fname s s' ret_' :
  fname ∈ glob_yml_in w0 config_path →
  scan_file project config_path ret_ fname s = (s', Ok ret_') →
  let exp := osp.splitext_root (osp.basename fname) in
  ret_' = (if negb (isinstance_Archive (default PNone (assoc exp ret_)))
           then assoc_set exp (PStr (osp.join config_path [exp ++ ".yml"])) ret_
           else ret_).
Proof.
  intros Hin Hrun.
  destruct (scanned_name_not_record _ _ _ Hin) as (Hne & _ & _).
  unfold scan_file in Hrun. rewrite bool_decide_false in Hrun by done.
  destruct s as [w self]. unfold bind, on_snd, index_under, modify, ret in Hrun.
  cbn in Hrun. by injection Hrun as <- <-.
Qed.

Lemma scan_file_extends w0 project config_path ret_ fname s s' ret_' :
  fname ∈ glob_yml_in w0 config_path →
  scan_file project config_path ret_ fname s = (s', Ok ret_') →
  extends_by (fun name => name = osp.splitext_root (osp.basename fname)) ret_ ret_'.
Proof.
  intros Hin Hrun. pose proof (scan_file_Ok_ret _ _ _ _ _ _ _ _ Hin Hrun) as Hret.
  cbn zeta in Hret. set (exp := osp.splitext_root (osp.basename fname)) in *.
  destruct (isinstance_Archive (default PNone (assoc exp ret_))) eqn:Ha;
    cbn [negb] in Hret; subst ret_'; [apply extends_by_refl|].
  split; [|split].
  - rewrite assoc_set_keys_fst. case_bool_decide; [exists []; by rewrite app_nil_r|].
    by eexists.
  - intros name v Hk. destruct (decide (exp = name)) as [<-|Hne].
    + rewrite assoc_set_lookup. split.
      * intros Hv. rewrite Hv in Ha. cbn in Ha. congruence.
      * intros [= <-]. done.
    + by rewrite assoc_set_lookup_ne.
  - intros name. destruct (decide (exp = name)) as [<-|Hne]; [by left|].
    right. by apply assoc_set_lookup_ne.
Qed.

Lemma scan_files_extends w0 self0 project config_path fnames ret_ s s' ret_' :
  fnames ⊆ glob_yml_in w0 config_path →
  scan_inv w0 self0 s ret_ →
  fold_M fnames ret_ (scan_file project config_path) s = (s', Ok ret_') →
  extends_by (fun name => ∃ fname, fname ∈ glob_yml_in w0 config_path
                                   ∧ name = osp.splitext_root (osp.basename fname))
             ret_ ret_'.
Proof.
  intros Hsub HI Hrun.
  set (P := fun name => ∃ fname, fname ∈ glob_yml_in w0 config_path
                                 ∧ name = osp.splitext_root (osp.basename fname)).
  pose proof (fold_M_elem (scan_inv w0 self0)
                (fun p q => extends_by P (snd p) (snd q))
                (fun _ _ _ => True)
                (scan_file project config_path) fnames) as Hfold.
  destruct (Hfold (fun p => extends_by_refl P (snd p))
                  (fun p q r => extends_by_trans P (snd p) (snd q) (snd r)))
    with (acc := ret_) (s := s) (s' := s') (acc' := ret_') as (_ & HR & _); try done.
  intros x a1 s1 s2 a2 Hx HI1 Hstep. apply Hsub in Hx.
  destruct (scan_file_step _ _ _ _ _ _ _ _ _ Hx HI1 Hstep) as (HI2 & _ & _).
  split; [done|]. split; [|done]. cbn.
  eapply extends_by_mono; [|by eapply scan_file_extends].
  intros n ->. by exists x.
Qed.

Lemma scan_project_extends w0 self0 ps ret_ project d s s' ret_' :
  (project, d) ∈ ps →
  scan_inv w0 self0 s ret_ →
  scan_project ret_ (project, d) s = (s', Ok ret_') →
  extends_by (scanned w0 ps) ret_ ret_'.
Proof.
  intros Hmem HI Hrun. unfold scan_project in Hrun. destruct s as [w self].
  apply bind_Ok in Hrun as ([w1 s1] & project_path & Hpp & Hrun).
  unfold of_result in Hpp. injection Hpp as <- <- Hpp.
  apply bind_Ok in Hrun as ([w1 s1] & root0 & Hcp & Hrun).
  unfold of_result in Hcp. injection Hcp as <- <- Hcp.
  set (config_path := osp.join root0 [".project"]) in *.
  apply bind_Ok in Hrun as ([w1 s1] & e & Hex & Hrun).
  apply on_fst_inv in Hex as [Hex ->]. rewrite exists_run in Hex.
  injection Hex as <- <-.
  destruct HI as (Hnodes & Hitems & Hproj & Hnd). cbn [fst snd] in *.
  destruct (path_exists w config_path) eqn:Hexists; cbn [negb] in Hrun.
  - apply bind_Ok in Hrun as ([w2 s2] & fnames & Hglob & Hrun).
    apply on_fst_inv in Hglob as [Hglob ->]. injection Hglob as <- <-.
    eapply (scan_files_extends w0 self0) in Hrun.
    + eapply extends_by_mono; [|exact Hrun].
      intros n (fname & Hin & ->). exists project, d, project_path, root0, fname.
      by repeat split.
    + intros x Hx. erewrite <- glob_yml_in_nodes; [exact Hx|]. exact Hnodes.
    + by repeat split.
  - injection Hrun as <- <-. apply extends_by_refl.
Qed.

Lemma exp_files_Ok_inv w self w' self' found :
  exp_files (w, self) = ((w', self'), Ok found) →
  ∃ ret0 s1,
    match nodes w !! exp_file self with
    | Some (File (Parsed (PDict index))) =>
      ret0 = fold_left (fun r kv => assoc_set (fst kv) (snd kv) r) index []
    | None => ret0 = []
    | _ => False
    end
    ∧ scan_inv w self s1 ret0
    ∧ fold_M (ProjectsConfig.items (projects self)) ret0 scan_project s1
      = ((w', self'), Ok found).
Proof.
  intros Hrun. unfold exp_files in Hrun.
  apply bind_Ok in Hrun as ([w1 s1] & self0 & Hget & Hrun). injection Hget as <- <- <-.
  apply bind_Ok in Hrun as ([w1 s1] & e & Hex & Hrun).
  apply on_fst_inv in Hex as [Hex ->]. rewrite exists_run in Hex. injection Hex as <- <-.
  apply bind_Ok in Hrun as ([w2 s2] & ret0 & Hret0 & Hrun).
  exists ret0, (w2, s2). split; [|split; [|done]].
  - destruct (path_exists w (exp_file self)) eqn:Hexists.
    + apply bind_Ok in Hret0 as ([w3 s3] & loaded & Hload & Hret0).
      apply on_fst_inv in Hload as [Hload ->].
      apply safe_load_Ok_inv in Hload as (f & [= <-] & Hfile & _).
      cbn [nodes] in Hfile. rewrite Hfile.
      apply bind_Ok in Hret0 as ([w4 s4] & index & Hidx & Hret0).
      unfold of_result in Hidx. injection Hidx as <- <- Hidx.
      destruct loaded; try discriminate. injection Hidx as ->.
      by injection Hret0 as <- <- <-.
    + injection Hret0 as <- <- <-.
      unfold path_exists in Hexists.
      rewrite bool_decide_false in Hexists by (by apply join2_nonempty).
      cbn in Hexists. apply orb_false_iff in Hexists as [_ Hexists].
      apply bool_decide_eq_false in Hexists.
      destruct (nodes w !! exp_file self) eqn:Hn; [|done].
      exfalso. apply Hexists. eauto.
  - destruct (path_exists w (exp_file self)).
    + apply bind_Ok in Hret0 as ([w3 s3] & loaded & Hload & Hret0).
      apply on_fst_inv in Hload as [Hload ->].
      apply safe_load_Ok_inv in Hload as (f & _ & _ & Hn3 & _).
      apply bind_Ok in Hret0 as ([w4 s4] & index & Hidx & Hret0).
      unfold of_result in Hidx. injection Hidx as <- <- _.
      injection Hret0 as <- <- <-. repeat split; try done.
      apply fold_assoc_set_NoDup. constructor.
    + injection Hret0 as <- <- <-. repeat split; try done. constructor.
Qed.

Lemma exp_files_extends w self w' self' found ret0 s1 :
  scan_inv w self s1 ret0 →
  fold_M (ProjectsConfig.items (projects self)) ret0 scan_project s1
  = ((w', self'), Ok found) →
  scan_inv w self (w', self') found
  ∧ extends_by (scanned w (ProjectsConfig.items (projects self))) ret0 found.
Proof.
  intros HI Hrun.
  set (P := scanned w (ProjectsConfig.items (projects self))).
  pose proof (fold_M_elem (scan_inv w self)
                (fun p q => extends_by P (snd p) (snd q))
                (fun _ _ _ => True)
                scan_project (ProjectsConfig.items (projects self))) as Hfold.
  destruct (Hfold (fun p => extends_by_refl P (snd p))
                  (fun p q r => extends_by_trans P (snd p) (snd q) (snd r)))
    with (acc := ret0) (s := s1) (s' := (w', self')) (acc' := found) as (HI' & HR & _);
    try done.
  intros [project d] a s s' a' Hx HIs Hstep.
  destruct (scan_project_step _ _ _ _ _ _ _ _ HIs Hstep) as (HI2 & _ & _).
  split; [done|]. split; [|done]. cbn.
  by eapply scan_project_extends.
Qed.

Lemma setitem_loop_frame found w self w' self' :
  for_each found (fun kv => on_snd (S := world) (__setitem__ (fst kv) (snd kv))) (w, self)
  = ((w', self'), Ok tt) →
  w' = w ∧ projects self' = projects self.
Proof.
  revert self. induction found as [|[key val] rest IH]; intros self.
  - by intros [= <- <-].
  - cbn [for_each]. intros Hrun.
    apply bind_Ok in Hrun as ([w1 self1] & [] & Hset & Hrun).
    apply on_snd_inv in Hset as [Hset ->]. apply setitem_Ok_inv in Hset as (_ & Hp & _).
    apply IH in Hrun as [-> Hp']. split; [done|]. congruence.
Qed.

(** A construction from the files that returned: what the scan found
    is what the registry holds. *)
Lemma init_scan_Ok_inv pc pm w w' ec :
  __init__ pc None pm w = (w', Ok ec) →
  ProjectsConfig.items pc ≠ [] →
  ∃ self2,
    exp_files (w, {| items := []; projects := pc; _project_map := default ∅ pm |})
    = ((w', self2), Ok (items ec))
    ∧ projects ec = pc ∧ NoDup (map fst (items ec)) ∧ nodes w' = nodes w.
Proof.
  intros Hinit Hne. unfold __init__ in Hinit.
  rewrite bool_decide_false in Hinit by done. cbn [negb] in Hinit.
  set (self0 := {| items := []; projects := pc; _project_map := default ∅ pm |}) in *.
  match type of Hinit with
  | match ?body ?st with _ => _ end = _ => destruct (body st) as [[w1 self1] [[]|e]] eqn:Hbody
  end; [|done].
  injection Hinit as <- <-.
  apply bind_Ok in Hbody as ([w2 self2] & found & Hscan & Hfill).
  pose proof (exp_files_scan _ _ _ _ _ Hscan) as [(Hn & Hitems & Hp & Hnd) _].
  cbn [fst snd] in Hn, Hitems, Hp.
  pose proof (setitem_loop_frame _ _ _ _ _ Hfill) as [-> Hp'].
  apply setitem_loop in Hfill as [Hfilled _].
  cbn in Hitems. rewrite Hitems in Hfilled. cbn in Hfilled.
  rewrite fold_assoc_set_fresh in Hfilled by done. cbn in Hfilled.
  exists self2. rewrite Hfilled. repeat split; try done. by rewrite Hp', Hp.
Qed.

Lemma init_extends_index pc pm w w' ec index :
  __init__ pc None pm w = (w', Ok ec) →
  ProjectsConfig.items pc ≠ [] →
  nodes w !! osp.join (ProjectsConfig.conf_dir pc) ["experiments.yml"]
  = Some (File (Parsed (PDict index))) →
  NoDup (map fst index) →
  extends_by (scanned w (ProjectsConfig.items pc)) index (items ec).
Proof.
  intros Hinit Hne Hfile Hnd.
  apply init_scan_Ok_inv in Hinit as (self2 & Hscan & _); [|done].
  apply exp_files_Ok_inv in Hscan as (ret0 & s1 & Hret0 & HI & Hfold).
  unfold exp_file in Hret0. cbn [projects] in Hret0. rewrite Hfile in Hret0.
  rewrite fold_assoc_set_fresh in Hret0 by done. cbn in Hret0. subst ret0.
  by apply (exp_files_extends w) in Hfold as [_ Hext].
Qed.

(** Property X7.
    Construction from the files restores the order of the master
    index: when [experiments.yml] holds a mapping, its names are the
    first keys of the registry, in the order of the file (names found
    only by the scan of the project directories come after them); a name
    archived in the file is archived in the registry; and a name that
    the scan does not find keeps the value the file gives it. *)
Theorem init_keeps_index_order (pc : ProjectsConfig.t)
    (project_map : option (gmap hkey (list string))) (w w' : world) (ec : t)
    (index : list (string * pyval)) :
  __init__ pc None project_map w = (w', Ok ec) →
  ProjectsConfig.items pc ≠ [] →
  nodes w !! osp.join (ProjectsConfig.conf_dir pc) ["experiments.yml"]
  = Some (File (Parsed (PDict index))) →
  NoDup (map fst index) →
  (∃ more, map fst (items ec) = (map fst index ++ more)%list)
  ∧ (∀ name v, assoc name index = Some v → isinstance_Archive v = true →
               assoc name (items ec) = Some v)
  ∧ ∀ name, ¬ scanned w (ProjectsConfig.items pc) name →
            assoc name (items ec) = assoc name index.
Proof.
  intros Hinit Hne Hfile Hnd.
  destruct (init_extends_index _ _ _ _ _ _ Hinit Hne Hfile Hnd) as (Hk & Ha & Hc).
  split; [done|]. split; [intros name v Hv Hkind; by apply Ha|].
  intros name Hns. by destruct (Hc name).
Qed.

Lemma init_keeps_index_order_witness :
  x_built = (fst x_built, Ok x_scanned)
  ∧ ProjectsConfig.items c3_projects ≠ []
  ∧ nodes x_world !! osp.join (ProjectsConfig.conf_dir c3_projects) ["experiments.yml"]
    = Some (File (Parsed (PDict x_index)))
  ∧ NoDup (map fst x_index)
  ∧ ∃ more, map fst (items x_scanned) = (map fst x_index ++ more)%list.
Proof.
  assert (Hne : ProjectsConfig.items c3_projects ≠ []) by done.
  assert (Hfile : nodes x_world
                    !! osp.join (ProjectsConfig.conf_dir c3_projects) ["experiments.yml"]
                  = Some (File (Parsed (PDict x_index))))
    by (vm_compute; reflexivity).
  split; [exact x_built_Ok|]. split; [exact Hne|]. split; [exact Hfile|].
  split; [exact x_index_nodup|].
  exact (proj1 (init_keeps_index_order c3_projects None x_world _ _ x_index
                  x_built_Ok Hne Hfile x_index_nodup)).
Defined.

(** Property X8.
    An experiment that the master index lists as not archived and whose
    file the scan of the project directories does not find is a key of
    the constructed registry with the value [None]; reading it raises
    [TypeError] and changes nothing. *)
Theorem stale_index_entry_unreadable (pc : ProjectsConfig.t)
    (project_map : option (gmap hkey (list string))) (w w' : world) (ec : t)
    (index : list (string * pyval)) (name : string) :
  __init__ pc None project_map w = (w', Ok ec) →
  ProjectsConfig.items pc ≠ [] →
  nodes w !! osp.join (ProjectsConfig.conf_dir pc) ["experiments.yml"]
  = Some (File (Parsed (PDict index))) →
  NoDup (map fst index) →
  assoc name index = Some PNone →
  ¬ scanned w (ProjectsConfig.items pc) name →
  assoc name (items ec) = Some PNone
  ∧ ∀ w2, __getitem__ name (w2, ec) = ((w2, ec), Raise TypeError).
Proof.
  intros Hinit Hne Hfile Hnd Hidx Hns.
  destruct (init_extends_index _ _ _ _ _ _ Hinit Hne Hfile Hnd) as (_ & _ & Hc).
  assert (assoc name (items ec) = Some PNone) as Hv.
  { destruct (Hc name) as [?|Heq]; [done|]. by rewrite Heq. }
  split; [done|]. intros w2. unfold __getitem__.
  unfold bind at 1. cbn [on_snd get fst snd]. by rewrite Hv.
Qed.

Lemma stale_index_entry_unreadable_witness :
  x_built = (fst x_built, Ok x_scanned)
  ∧ assoc "g" x_index = Some PNone
  ∧ ¬ scanned x_world (ProjectsConfig.items c3_projects) "g"
  ∧ assoc "g" (items x_scanned) = Some PNone
  ∧ ∀ w2, __getitem__ "g" (w2, x_scanned) = ((w2, x_scanned), Raise TypeError).
Proof.
  assert (Hne : ProjectsConfig.items c3_projects ≠ []) by done.
  assert (Hfile : nodes x_world
                    !! osp.join (ProjectsConfig.conf_dir c3_projects) ["experiments.yml"]
                  = Some (File (Parsed (PDict x_index))))
    by (vm_compute; reflexivity).
  split; [exact x_built_Ok|]. split; [reflexivity|]. split; [exact x_not_scanned|].
  exact (stale_index_entry_unreadable c3_projects None x_world _ _ x_index "g"
           x_built_Ok Hne Hfile x_index_nodup eq_refl x_not_scanned).
Defined.

(** After construction, a name of the master index that is not archived
    there has the value of the index or refers to a file
    [<name>.yml]. *)
Lemma init_entry_kinds pc pm w w' ec index name v :
  __init__ pc None pm w = (w', Ok ec) →
  ProjectsConfig.items pc ≠ [] →
  nodes w !! osp.join (ProjectsConfig.conf_dir pc) ["experiments.yml"]
  = Some (File (Parsed (PDict index))) →
  NoDup (map fst index) →
  assoc name index = Some v → isinstance_Archive v = false →
  assoc name (items ec) = Some v
  ∨ ∃ cp, assoc name (items ec) = Some (PStr (osp.join cp [name ++ ".yml"])).
Proof.
  intros Hinit Hne Hfile Hnd Hv Hna.
  destruct (init_extends_index _ _ _ _ _ _ Hinit Hne Hfile Hnd) as (_ & Ha & Hc).
  destruct (Hc name) as [Hs|Heq]; [|left; congruence].
  right. destruct Hs as (project & d & rootv & root & fname & Hin & Hroot & Hfs & Hg & ->).
  apply init_scan_Ok_inv in Hinit as (self2 & Hscan & _); [|done].
  apply exp_files_scan in Hscan as [_ Hall].
  destruct (Hall project d rootv root fname Hin Hroot Hfs Hg) as [(u & Hu & Hkind) _].
  destruct Hkind as [Hkind|[cp ->]]; [|by exists cp].
  apply (Ha _ _ Hkind) in Hu. congruence.
Qed.

(** *** What the scan stores under a name *)








(** ** Saving: what reaches the files *)

Lemma last_ascii_app a b : b ≠ "" → last_ascii (a ++ b) = last_ascii b.
Proof.
  intros Hb. induction a as [|x a IH]; [done|].
  change (String x a ++ b) with (String x (a ++ b)). cbn [last_ascii].
  destruct (a ++ b) eqn:Hab; [|done].
  destruct a; [by subst|discriminate].
Qed.

Lemma join2_last a b : b ≠ "" → last_ascii (osp.join2 a b) = last_ascii b.
Proof.
  intros Hb. unfold osp.join2. destruct (osp.startswith_sep b); [done|].
  destruct (bool_decide (a = "") || osp.endswith_sep a).
  - by apply last_ascii_app.
  - rewrite last_ascii_app; [|by destruct b]. by apply (last_ascii_app "/").
Qed.

Lemma yml_name_last name : last_ascii (name ++ ".yml") = Some "l"%char.
Proof. by rewrite last_ascii_app. Qed.

Lemma yml_name_nonempty name : name ++ ".yml" ≠ "".
Proof. by destruct name. Qed.

(** A file [<dir>/<name>.yml] is no backup file and has a name. *)
Lemma yml_path_not_backup dir name f :
  osp.join2 dir (name ++ ".yml") ≠ f ++ "~" ∧ osp.join2 dir (name ++ ".yml") ≠ "".
Proof.
  split.
  - intros H. apply (f_equal last_ascii) in H.
    rewrite join2_last, yml_name_last in H by apply yml_name_nonempty.
    by rewrite last_ascii_app in H.
  - apply join2_nonempty, yml_name_nonempty.
Qed.

Lemma foldr_insert_dir_lookup (l : list string) (m : gmap string node) q :
  foldr (fun q m => <[q := Dir]> m) m l !! q
  = if bool_decide (q ∈ l) then Some Dir else m !! q.
Proof.
  induction l as [|x l IH]; cbn; [done|].
  destruct (decide (x = q)) as [->|Hne].
  - rewrite lookup_insert_eq. rewrite bool_decide_true; [done|]. apply elem_of_cons. by left.
  - rewrite lookup_insert_ne by done. rewrite IH.
    destruct (decide (q ∈ l)) as [Hin|Hin].
    + rewrite !bool_decide_true; [done| |done]. apply elem_of_cons. by right.
    + rewrite !bool_decide_false; [done| |done]. intros [?|?]%elem_of_cons; done.
Qed.

(** [os.makedirs] that returned has not replaced any file. *)
Lemma makedirs_Ok_keeps_files p w w' q c :
  makedirs p w = (w', Ok tt) → q ≠ "" →
  nodes w !! q = Some (File c) → nodes w' !! q = Some (File c).
Proof.
  unfold makedirs, bind, log, modify, get, raise, set_nodes. cbn.
  change (path_exists _ p) with (path_exists w p).
  destruct (path_exists w p) eqn:Hex; [done|]. cbn [orb].
  match goal with |- context [existsb ?f ?l] => destruct (existsb f l) eqn:Hany end;
    [done|].
  intros [= <-] Hq Hfile. cbn. rewrite foldr_insert_dir_lookup.
  rewrite bool_decide_false; [done|].
  intros [Hin|Hin]%elem_of_app.
  - assert (existsb (fun q0 => match nodes w !! q0 with
                               | Some (File _) => true
                               | _ => false
                               end)
              (filter (fun q0 => negb (osp.all_sep q0) = true) (sep_prefixes p)) = true)
      as Hyes.
    { apply existsb_exists. exists q. split; [by apply list_elem_of_In|].
      by rewrite Hfile. }
    congruence.
  - apply list_elem_of_singleton in Hin as ->.
    unfold path_exists in Hex. rewrite bool_decide_false in Hex by done.
    rewrite Hfile in Hex. rewrite (bool_decide_true (is_Some _)) in Hex by eauto.
    by rewrite orb_true_r in Hex.
Qed.

Lemma makedirs_Ok_frame p w w' :
  makedirs p w = (w', Ok tt) → held w' = held w ∧ cwd w' = cwd w.
Proof.
  unfold makedirs, bind, log, modify, get, raise, set_nodes. cbn.
  match goal with |- context [if ?b then _ else _] => destruct b end; [done|].
  by intros [= <-].
Qed.

Lemma safe_dump_Ok_frame d f w w' q :
  safe_dump d f w = (w', Ok tt) → q ≠ f → q ≠ f ++ "~" →
  nodes w' !! q = nodes w !! q.
Proof.
  intros H Hq Hq'. apply safe_dump_Ok_nodes in H as (Hn & _ & _).
  rewrite Hn. rewrite lookup_insert_ne by done.
  destruct (nodes w !! f); [|done].
  rewrite lookup_insert_ne by done. by rewrite lookup_delete_ne.
Qed.

Lemma save_one_dict_Ok exp d_items w self w' self' :
  save_one (exp, PDict d_items) (w, self) = ((w', self'), Ok tt) →
  let ps := ProjectsConfig.items (projects self) in
  ∃ fname d',
    exp_fname ps exp (PDict d_items) = Some fname
    ∧ rel_paths (cwd w) ps (PDict d_items) PNone PNone = (d', None)
    ∧ self' = {| items := assoc_set exp d' (items self); projects := projects self;
                 _project_map := _project_map self |}
    ∧ nodes w' !! fname = Some (File (Parsed d'))
    ∧ (∀ q c, q ≠ "" → q ≠ fname → q ≠ fname ++ "~" →
              nodes w !! q = Some (File c) → nodes w' !! q = Some (File c))
    ∧ held w' = held w ∧ cwd w' = cwd w.
Proof.
  intros H. cbn zeta. set (ps := ProjectsConfig.items (projects self)).
  unfold save_one in H.
  apply bind_Ok in H as ([w1 s1] & self1 & Hget & H). injection Hget as <- <- <-.
  apply bind_Ok in H as ([w1 s1] & p & Hp & H).
  unfold of_result in Hp. injection Hp as <- <- Hp.
  apply bind_Ok in H as ([w1 s1] & pd & Hpd & H).
  unfold of_result in Hpd. injection Hpd as <- <- Hpd.
  apply bind_Ok in H as ([w1 s1] & project_path & Hpp & H).
  unfold of_result in Hpp. injection Hpp as <- <- Hpp.
  apply bind_Ok in H as ([w1 s1] & w0 & Hw0 & H). injection Hw0 as <- <- <-.
  fold ps in H, Hpd.
  destruct (rel_paths (cwd w) ps (PDict d_items) PNone PNone) as [d' e].
  apply bind_Ok in H as ([w1 s1] & [] & Hset & H).
  apply on_snd_inv in Hset as [Hset ->]. injection Hset as <-.
  destruct e as [e|]; [done|].
  apply bind_Ok in H as ([w2 s2] & root & Hroot & H).
  unfold of_result in Hroot. injection Hroot as <- <- Hroot.
  set (fname := osp.join root [".project"; exp ++ ".yml"]) in *.
  apply bind_Ok in H as ([w3 s3] & ex & Hex & H).
  apply on_fst_inv in Hex as [Hex ->]. rewrite exists_run in Hex. injection Hex as <- <-.
  apply bind_Ok in H as ([w4 s4] & [] & Hmk & H).
  apply on_fst_inv in H as [Hdump ->].
  exists fname, d'. split.
  { change (dict_getitem d_items (PStr "project") = Ok p) in Hp.
    unfold exp_fname. rewrite Hp. cbn [mbind result_bind]. rewrite Hpd.
    cbn [mbind result_bind]. rewrite Hpp. cbn [mbind result_bind]. by rewrite Hroot. }
  split; [done|].
  assert (s4 = {| items := assoc_set exp d' (items self); projects := projects self;
                  _project_map := _project_map self |}
          ∧ (∀ q c, q ≠ "" → nodes w !! q = Some (File c) → nodes w4 !! q = Some (File c))
          ∧ held w4 = held w ∧ cwd w4 = cwd w) as (-> & Hkeep & Hh4 & Hc4).
  { destruct (path_exists w (osp.dirname fname)); cbn [negb] in Hmk.
    - by injection Hmk as <- <-.
    - apply on_fst_inv in Hmk as [Hmk ->].
      split; [done|]. split.
      + intros q c Hq Hfile. by eapply makedirs_Ok_keeps_files.
      + by apply makedirs_Ok_frame in Hmk. }
  split; [done|]. split; [by eapply safe_dump_Ok|].
  split.
  { intros q c Hq Hne Hne' Hfile.
    rewrite (safe_dump_Ok_frame _ _ _ _ q Hdump) by done. by apply Hkeep. }
  apply safe_dump_Ok_nodes in Hdump as (_ & Hh & Hc). split; congruence.
Qed.

Lemma save_one_other_Ok exp d st :
  isinstance_dict d = false → save_one (exp, d) st = (st, Ok tt).
Proof. by destruct d. Qed.

Lemma exp_fname_yml ps exp d fname :
  exp_fname ps exp d = Some fname →
  isinstance_dict d = true ∧ ∃ dir, fname = osp.join2 dir (exp ++ ".yml").
Proof.
  unfold exp_fname. destruct d; try done.
  match goal with |- context [match ?r with Ok _ => _ | Raise _ => _ end] =>
    destruct r as [root|] end; [|done].
  intros [= <-]. split; [done|]. by eexists.
Qed.

Lemma assoc_map_values {A B} (f : A → B) k (l : list (string * A)) :
  assoc k (map (fun kv => (fst kv, f (snd kv))) l) = f <$> assoc k l.
Proof.
  induction l as [|[k' v] l IH]; cbn; [done|]. by case_bool_decide.
Qed.

Lemma assoc_ext {A} (a b : list (string * A)) :
  map fst a = map fst b → (∀ k, k ∈ map fst a → assoc k a = assoc k b) →
  NoDup (map fst a) → a = b.
Proof.
  revert b. induction a as [|[k v] a IH]; intros [|[k' v'] b]; cbn; try done.
  intros [= <- Hk] Hall Hnd. apply NoDup_cons in Hnd as [Hnin Hnd].
  pose proof (Hall k) as Hk0. rewrite !bool_decide_true in Hk0 by done.
  assert (v = v') as <-.
  { assert (Some v = Some v') as [= ->]; [|done]. apply Hk0. apply elem_of_cons. by left. }
  f_equal. apply IH; [done| |done].
  intros k2 Hin. pose proof (Hall k2) as Hk2.
  rewrite !bool_decide_false in Hk2 by (intros ->; done).
  apply Hk2. apply elem_of_cons. by right.
Qed.

Lemma rel_doc_not_dict cwd ps v : isinstance_dict v = false → rel_doc cwd ps v = v.
Proof. unfold rel_doc. by intros ->. Qed.

Lemma save_loop_full l w self w' self' :
  NoDup (map fst l) →
  (∀ exp d, (exp, d) ∈ l → assoc exp (items self) = Some d) →
  for_each l save_one (w, self) = ((w', self'), Ok tt) →
  let ps := ProjectsConfig.items (projects self) in
  projects self' = projects self ∧ _project_map self' = _project_map self
  ∧ held w' = held w ∧ cwd w' = cwd w
  ∧ map fst (items self') = map fst (items self)
  ∧ (∀ k, k ∉ map fst l → assoc k (items self') = assoc k (items self))
  ∧ (∀ exp d, (exp, d) ∈ l →
       assoc exp (items self') = Some (rel_doc (cwd w) ps d)
       ∧ (isinstance_dict d = true → snd (rel_paths (cwd w) ps d PNone PNone) = None))
  ∧ (∀ q c, q ≠ "" →
       (∀ exp d fname, (exp, d) ∈ l → exp_fname ps exp d = Some fname →
                       q ≠ fname ∧ q ≠ fname ++ "~") →
       nodes w !! q = Some (File c) → nodes w' !! q = Some (File c))
  ∧ (NoDup (omap (fun kv => exp_fname ps (fst kv) (snd kv)) l) →
     ∀ exp d fname, (exp, d) ∈ l → exp_fname ps exp d = Some fname →
       nodes w' !! fname = Some (File (Parsed (rel_doc (cwd w) ps d)))).
Proof.
  revert w self. induction l as [|[exp d] rest IH]; intros w self Hnd Hsnap.
  - intros [= <- <-] ps. repeat split; try done.
    all: try (by intros ? ? ?%elem_of_nil).
    all: try (by intros ? ? ? ? ?%elem_of_nil).
    all: by apply elem_of_nil in H.
  - cbn [for_each]. intros H. cbn zeta.
    set (ps := ProjectsConfig.items (projects self)). cbn [map] in Hnd. apply NoDup_cons in Hnd as [Hnin Hnd].
    apply bind_Ok in H as ([w1 self1] & [] & Hone & H).
    assert (Hhead : assoc exp (items self) = Some d)
      by (apply Hsnap; apply elem_of_cons; by left).
    destruct (isinstance_dict d) eqn:Hd.
    + destruct d as [| | | | | |d_items]; try discriminate.
      apply save_one_dict_Ok in Hone
        as (fname & d' & Hfn & Hrel & -> & Hwritten & Hframe & Hh1 & Hc1).
      fold ps in Hfn, Hrel.
      apply IH in H; [|done|]; cycle 1.
      { intros exp2 d2 Hin. cbn [items]. rewrite assoc_set_lookup_ne.
        - apply Hsnap. apply elem_of_cons. by right.
        - intros ->. apply Hnin. apply list_elem_of_fmap. by exists (exp2, d2). }
      cbn zeta in H. cbn [projects items _project_map] in H. fold ps in H.
      rewrite Hc1 in H.
      destruct H as (Hp & Hm & Hh & Hc & Hk & Hout & Hin & Hfr & Hfiles).
      assert (Hrd : rel_doc (cwd w) ps (PDict d_items) = d')
        by (unfold rel_doc; cbn [isinstance_dict]; by rewrite Hrel).
      split; [done|]. split; [done|]. split; [congruence|]. split; [congruence|].
      split.
      { rewrite Hk, assoc_set_keys_fst. rewrite bool_decide_true; [done|].
        by eapply assoc_Some_key. }
      split.
      { intros k Hk'. cbn [map] in Hk'. apply not_elem_of_cons in Hk' as [Hne Hk'].
        rewrite Hout by done. by apply assoc_set_lookup_ne. }
      split.
      { intros exp2 d2 [[= -> ->]|Hin2]%elem_of_cons.
        - rewrite Hout by done. rewrite assoc_set_lookup, Hrd.
          split; [done|]. intros _. by rewrite Hrel.
        - by apply Hin. }
      split.
      { intros q c Hq Hoth Hfile. apply Hfr; [done| |].
        - intros exp2 d2 fname2 Hin2. apply Hoth. apply elem_of_cons. by right.
        - destruct (Hoth exp (PDict d_items) fname) as [Hne Hne'];
            [apply elem_of_cons; by left|done|].
          by apply Hframe. }
      intros Hfnd exp2 d2 fname2 Hin2 Hfn2.
      cbn [omap list_omap fst snd] in Hfnd. fold ps in Hfnd. rewrite Hfn in Hfnd.
      apply NoDup_cons in Hfnd as [Hfresh Hfnd].
      apply elem_of_cons in Hin2 as [[= -> ->]|Hin2]; [|by apply (Hfiles Hfnd exp2 d2)].
      rewrite Hfn in Hfn2. injection Hfn2 as <-. rewrite Hrd.
      destruct (exp_fname_yml _ _ _ _ Hfn) as [_ [dir Hdir]].
      apply Hfr; [rewrite Hdir; apply (yml_path_not_backup dir exp "")| |done].
      intros exp3 d3 fname3 Hin3 Hfn3. split.
      * intros <-. apply Hfresh. apply list_elem_of_omap. by exists (exp3, d3).
      * rewrite Hdir. apply yml_path_not_backup.
    + rewrite (save_one_other_Ok _ _ _ Hd) in Hone. injection Hone as <- <-.
      apply IH in H; [|done|]; cycle 1.
      { intros exp2 d2 Hin. apply Hsnap. apply elem_of_cons. by right. }
      cbn zeta in H. fold ps in H.
      destruct H as (Hp & Hm & Hh & Hc & Hk & Hout & Hin & Hfr & Hfiles).
      assert (Hnofile : exp_fname ps exp d = None) by (by destruct d).
      split; [done|]. split; [done|]. split; [done|]. split; [done|]. split; [done|].
      split.
      { intros k Hk'. cbn [map] in Hk'. apply not_elem_of_cons in Hk' as [Hne Hk'].
        by apply Hout. }
      split.
      { intros exp2 d2 [[= -> ->]|Hin2]%elem_of_cons; [|by apply Hin].
        rewrite Hout by done. rewrite rel_doc_not_dict by done.
        split; [done|congruence]. }
      split.
      { intros q c Hq Hoth Hfile. apply Hfr; [done| |done].
        intros exp2 d2 fname2 Hin2. apply Hoth. apply elem_of_cons. by right. }
      intros Hfnd exp2 d2 fname2 Hin2 Hfn2.
      cbn [omap list_omap fst snd] in Hfnd. fold ps in Hfnd. rewrite Hnofile in Hfnd.
      apply elem_of_cons in Hin2 as [[= -> ->]|Hin2]; [congruence|].
      by apply (Hfiles Hfnd exp2 d2).
Qed.

Lemma master_index_keys its :
  ∃ index, master_index its = PDict index ∧ map fst index = map fst its
           ∧ ∀ name v, assoc name its = Some v →
               assoc name index = Some (if isinstance_Archive v then v else PNone).
Proof.
  eexists. split; [reflexivity|]. split.
  - rewrite map_map. by apply map_ext.
  - intros name v Hv.
    rewrite (assoc_map_values (fun v => if isinstance_Archive v then v else PNone)).
    by rewrite Hv.
Qed.

(** The lines of [save] after [dict(self)], when they return. *)
Lemma save_from_Ok_inv w self w' self' :
  NoDup (map fst (items self)) →
  save_from (items self) (w, self) = ((w', self'), Ok tt) →
  let ps := ProjectsConfig.items (projects self) in
  items self' = map (fun kv => (fst kv, rel_doc (cwd w) ps (snd kv))) (items self)
  ∧ projects self' = projects self ∧ _project_map self' = _project_map self
  ∧ held w' = held w
  ∧ nodes w' !! exp_file self = Some (File (Parsed (master_index (items self))))
  ∧ (∀ exp d, (exp, d) ∈ items self → isinstance_dict d = true →
              snd (rel_paths (cwd w) ps d PNone PNone) = None)
  ∧ (NoDup (omap (fun kv => exp_fname ps (fst kv) (snd kv)) (items self)) →
     exp_file self ∉ omap (fun kv => exp_fname ps (fst kv) (snd kv)) (items self) →
     ∀ exp d fname, (exp, d) ∈ items self → exp_fname ps exp d = Some fname →
       nodes w' !! fname = Some (File (Parsed (rel_doc (cwd w) ps d))))
  ∧ master_index (items self') = master_index (items self).
Proof.
  intros Hnd Hsave. cbn zeta. set (ps := ProjectsConfig.items (projects self)).
  unfold save_from in Hsave.
  apply bind_Ok in Hsave as ([w1 s1] & [] & Hloop & Hsave).
  assert (Hsnap : ∀ exp d, (exp, d) ∈ items self → assoc exp (items self) = Some d)
    by (intros exp d Hin; by apply assoc_NoDup).
  pose proof (save_loop_Ok _ _ _ _ _ Hloop) as [Hindex _].
  { intros exp d Hin Hd. exists d. split; [by apply Hsnap|by destruct d]. }
  apply save_loop_full in Hloop; [|done|done]. cbn zeta in Hloop. fold ps in Hloop.
  destruct Hloop as (Hp & Hm & Hh & Hc & Hk & Hout & Hin & Hfr & Hfiles).
  apply bind_Ok in Hsave as ([w2 s2] & self1 & Hget & Hsave).
  injection Hget as <- <- <-.
  assert (exp_file s1 = exp_file self) as Hfile by (unfold exp_file; by rewrite Hp).
  rewrite Hfile, Hindex in Hsave.
  apply bind_Ok in Hsave as ([w2 s2] & [] & Hacq & Hsave).
  apply on_fst_inv in Hacq as [Hacq ->].
  apply bind_Ok in Hsave as ([w4 s4] & [] & Hdump & Hsave).
  apply on_fst_inv in Hdump as [Hdump ->].
  apply on_fst_inv in Hsave as [Hrel ->].
  assert (nodes w2 = nodes w1 ∧ held w2 = (exp_file self ++ ".lck") :: held w1)
    as [Hn2 Hh2] by (by injection Hacq as <-).
  assert (nodes w' = nodes w4
          ∧ held w' = remove_one (exp_file self ++ ".lck") (held w4)) as [Hn' Hh']
    by (by injection Hrel as <-).
  pose proof (safe_dump_Ok_nodes _ _ _ _ Hdump) as (_ & Hh4 & _).
  split.
  { apply assoc_ext.
    - rewrite Hk, map_map. by apply map_ext.
    - intros k Hkin. rewrite Hk in Hkin.
      apply list_elem_of_fmap in Hkin as ([k' v] & -> & Hkv). cbn.
      destruct (Hin k' v Hkv) as [-> _].
      rewrite (assoc_map_values (rel_doc (cwd w) ps)). by rewrite (Hsnap _ _ Hkv).
    - by rewrite Hk. }
  split; [done|]. split; [done|]. split.
  { rewrite Hh', Hh4, Hh2. cbn. rewrite bool_decide_true by done. done. }
  split; [rewrite Hn'; by eapply safe_dump_Ok|].
  split; [intros exp d Hkv; by apply (Hin exp d)|].
  split; [|done].
  intros Hfnd Hnotidx exp d fname Hkv Hfn.
  rewrite Hn'. rewrite (safe_dump_Ok_frame _ _ _ _ fname Hdump).
  - rewrite Hn2. by apply (Hfiles Hfnd exp d).
  - intros ->. apply Hnotidx. apply list_elem_of_omap. by exists (exp, d).
  - destruct (exp_fname_yml _ _ _ _ Hfn) as [_ [dir ->]]. apply yml_path_not_backup.
Qed.

(** A [save] that returned has first done what [load()] does. *)
Lemma save_Ok_load (w w' : world) (self self' : t) :
  NoDup (map fst (items self)) →
  save (w, self) = ((w', self'), Ok tt) →
  ∃ w1 self1,
    load (w, self) = ((w1, self1), Ok tt)
    ∧ save_from (items self1) (w1, self1) = ((w', self'), Ok tt)
    ∧ NoDup (map fst (items self1)).
Proof.
  intros Hnd Hsave.
  change (save (w, self)) with ((copy <- copy_realized ;; save_from copy) (w, self))
    in Hsave.
  apply bind_Ok in Hsave as ([w1 self1] & copy & Hcopy & Hsave).
  apply copy_realized_Ok in Hcopy as [Hload ->]; [|done].
  exists w1, self1. split; [done|]. split; [done|].
  apply load_Ok_inv in Hload as (_ & _ & _ & _ & Hk & _); [|done]. by rewrite Hk.
Qed.

(** Where nothing is pending, [dict(self)] is the entries as they are. *)
Lemma save_settled (w : world) (self : t) :
  NoDup (map fst (items self)) → settled (items self) →
  save (w, self) = save_from (items self) (w, self).
Proof.
  intros Hnd Hs.
  change (save (w, self)) with ((copy <- copy_realized ;; save_from copy) (w, self)).
  by erewrite bind_run_Ok; [|by apply copy_realized_settled].
Qed.

(** ** The master-index lock of [ExperimentsConfig.save] *)

Lemma safe_dump_backup_blocked (d : pyval) (f : string) (c : fcontent) (w : world) :
  f ≠ "" → nodes w !! f = Some (File c) → nodes w !! (f ++ "~") = Some Dir →
  snd (safe_dump d f w) = Raise IOError.
Proof.
  intros Hf Hfile Hbak. unfold safe_dump.
  unfold bind at 1. rewrite exists_run.
  assert (path_exists w f = true) as ->.
  { unfold path_exists. rewrite bool_decide_false by done.
    rewrite (bool_decide_true (is_Some _)) by (by rewrite Hfile).
    by rewrite orb_true_r. }
  unfold bind at 1. unfold rename, bind, log, modify, get, raise. cbn.
  by rewrite Hfile, Hbak.
Qed.

(** Claim C3, which the code breaks for the master-index lock. Take a
    registry of archived experiments, so that [save] has nothing to
    read or to write before the master index, and a configuration
    directory that is there, in which [experiments.yml] is a file and
    the name of its backup, [experiments.yml~], is taken by a
    directory. The dump inside [save] then raises (the file cannot be
    renamed onto a directory), and [save] raises with the lock it
    acquired on [experiments.yml.lck] still held: its [lock.release()]
    is not in a [finally]. [safe_load] and [safe_dump] release theirs on
    every exit ([safe_load_releases], [safe_dump_releases]). *)
Theorem save_keeps_master_lock_on_error (w : world) (self : ExperimentsConfig.t)
    (c : fcontent) :
  NoDup (map fst (items self)) →
  Forall (fun kv => isinstance_Archive (snd kv) = true) (items self) →
  is_dir w (osp.dirname (exp_file self)) = true →
  nodes w !! exp_file self = Some (File c) →
  nodes w !! (exp_file self ++ "~") = Some Dir →
  snd (save (w, self)) = Raise IOError
  ∧ held (fst (fst (save (w, self)))) = (exp_file self ++ ".lck") :: held w.
Proof.
  intros Hnd Harch _ Hfile Hbak.
  assert (∃ w2, save (w, self) = ((w2, self), Raise IOError)
                ∧ held w2 = (exp_file self ++ ".lck") :: held w)
    as (w2 & -> & Hh); [|done].
  rewrite save_settled; [|done|]; cycle 1.
  { eapply Forall_impl; [exact Harch|]. intros [k v] Hv. cbn in *.
    by rewrite Hv, orb_true_r. }
  unfold save_from.
  unfold bind at 1. rewrite for_each_skip; cycle 1.
  { eapply Forall_impl; [exact Harch|]. intros [k v] Hv s. cbn in Hv.
    destruct v; try discriminate; reflexivity. }
  unfold bind at 1. cbn [on_snd get snd fst].
  set (f := exp_file self) in *.
  unfold bind at 1. unfold on_fst at 1. cbn [fst snd].
  set (w1 := fst (acquire (f ++ ".lck") w)).
  change (acquire (f ++ ".lck") w) with (w1, Ok tt). cbn iota.
  unfold bind at 1. unfold on_fst at 1. cbn [fst snd].
  pose proof (safe_dump_releases (master_index (items self)) f w1) as Hh.
  pose proof (safe_dump_backup_blocked (master_index (items self)) f c w1) as Hr.
  destruct (safe_dump _ f w1) as [w2 r]. cbn in Hh, Hr.
  rewrite Hr; [by exists w2| |done|done].
  by apply join2_nonempty.
Qed.

Lemma save_keeps_master_lock_on_error_witness :
  NoDup (map fst (items c3_registry))
  ∧ Forall (fun kv => isinstance_Archive (snd kv) = true) (items c3_registry)
  ∧ is_dir c3_world (osp.dirname (exp_file c3_registry)) = true
  ∧ nodes c3_world !! exp_file c3_registry = Some (File (Parsed (PDict [])))
  ∧ nodes c3_world !! (exp_file c3_registry ++ "~") = Some Dir
  ∧ snd (save (c3_world, c3_registry)) = Raise IOError
  ∧ held (fst (fst (save (c3_world, c3_registry))))
    = (exp_file c3_registry ++ ".lck") :: held c3_world.
Proof.
  assert (H0 : NoDup (map fst (items c3_registry))) by decide_by_computation.
  assert (H1 : Forall (fun kv => isinstance_Archive (snd kv) = true) (items c3_registry))
    by (repeat constructor).
  assert (H2 : is_dir c3_world (osp.dirname (exp_file c3_registry)) = true)
    by (vm_compute; reflexivity).
  assert (H3 : nodes c3_world !! exp_file c3_registry = Some (File (Parsed (PDict []))))
    by (vm_compute; reflexivity).
  assert (H4 : nodes c3_world !! (exp_file c3_registry ++ "~") = Some Dir)
    by (vm_compute; reflexivity).
  split; [exact H0|]. split; [exact H1|]. split; [exact H2|]. split; [exact H3|].
  split; [exact H4|].
  exact (save_keeps_master_lock_on_error c3_world c3_registry _ H0 H1 H2 H3 H4).
Defined.

(** ** Archiving and the master index *)



(** ** Saving the experiments *)

(** Property X9.
    [save()] first realizes the registry as [load()] does and then
    works on the documents the registry holds: when it returns, every
    document of the realized registry is what [rel_paths] made of it
    (its paths are relative to the root of its project from then on),
    every other entry and the order of the keys are as [load()] leaves
    them, the locks held are those held before, and [experiments.yml]
    holds the names in their order, each with its [Archive] or with
    [None]. *)
Theorem save_rewrites_documents_in_place (w w' : world) (self self' : t) :
  NoDup (map fst (items self)) →
  save (w, self) = ((w', self'), Ok tt) →
  ∃ w1 self1,
    load (w, self) = ((w1, self1), Ok tt)
    ∧ items self'
      = map (fun kv => (fst kv,
                        rel_doc (cwd w) (ProjectsConfig.items (projects self)) (snd kv)))
            (items self1)
    ∧ (∀ exp d, (exp, d) ∈ items self1 → isinstance_dict d = true →
         snd (rel_paths (cwd w) (ProjectsConfig.items (projects self)) d PNone PNone)
         = None)
    ∧ held w' = held w
    ∧ nodes w' !! exp_file self
      = Some (File (Parsed
          (PDict (map (fun kv => (fst kv,
                                  if isinstance_Archive (snd kv) then snd kv else PNone))
                      (items self1))))).
Proof.
  intros Hnd Hsave.
  destruct (save_Ok_load _ _ _ _ Hnd Hsave) as (w1 & self1 & Hload & Hfrom & Hnd1).
  exists w1, self1. split; [done|].
  apply load_Ok_inv in Hload as (_ & Hh1 & Hc1 & Hp1 & _); [|done].
  destruct (save_from_Ok_inv _ _ _ _ Hnd1 Hfrom) as (Hit & _ & _ & Hh & Hidx & Hrel & _).
  cbn zeta in Hit, Hrel. rewrite Hc1, Hp1 in Hit, Hrel.
  assert (exp_file self1 = exp_file self) as Hf by (unfold exp_file; by rewrite Hp1).
  rewrite Hf in Hidx. split; [done|]. split; [done|]. split; [congruence|done].
Qed.

Lemma save_rewrites_documents_in_place_witness :
  NoDup (map fst (items x_pending))
  ∧ x_saved = ((fst (fst x_saved), snd (fst x_saved)), Ok tt)
  ∧ items (snd (fst x_saved))
    = [("e", PDict [("project", PStr "p"); ("outdir", PStr "out")]); ("h", x_archive)]
  ∧ held (fst (fst x_saved)) = held x_world.
Proof.
  split; [exact x_pending_nodup|]. split; [exact x_saved_Ok|].
  destruct (save_rewrites_documents_in_place x_world _ x_pending _
              x_pending_nodup x_saved_Ok) as (w1 & self1 & Hload & Hit & _ & Hh & _).
  split; [|exact Hh].
  assert (Hrun : load (x_world, x_pending) = ((fst (fst x_loaded), x_realized), Ok tt))
    by (vm_compute; reflexivity).
  rewrite Hrun in Hload. injection Hload as _ <-.
  rewrite Hit. vm_compute. reflexivity.
Defined.



(** Property X11.
    Saved and constructed anew: after a [save()] that returned, a
    registry constructed from the files over the same (non empty)
    projects lists every name of the saved registry, in the same order,
    before any other name; an entry that is an [Archive] once [load()]
    has realized it comes back as that [Archive], and every other entry
    comes back as a reference to a file [<name>.yml], or as [None] when
    the scan of the project directories finds no such file. *)
Theorem save_then_init_keeps_names (w w' w1 w'' : world) (self self' self1 ec : t)
    (project_map : option (gmap hkey (list string))) :
  NoDup (map fst (items self)) →
  ProjectsConfig.items (projects self) ≠ [] →
  save (w, self) = ((w', self'), Ok tt) →
  load (w, self) = ((w1, self1), Ok tt) →
  __init__ (projects self') None project_map w' = (w'', Ok ec) →
  (∃ more, map fst (items ec) = (map fst (items self) ++ more)%list)
  ∧ ∀ name v, assoc name (items self1) = Some v →
      if isinstance_Archive v then assoc name (items ec) = Some v
      else assoc name (items ec) = Some PNone
           ∨ ∃ cp, assoc name (items ec) = Some (PStr (osp.join cp [name ++ ".yml"])).
Proof.
  intros Hnd Hne Hsave Hload Hinit.
  destruct (save_Ok_load _ _ _ _ Hnd Hsave) as (w1' & self1' & Hload' & Hfrom & Hnd1).
  rewrite Hload in Hload'. injection Hload' as <- <-.
  apply load_Ok_inv in Hload as (_ & _ & _ & Hp1 & Hk1 & _); [|done].
  destruct (save_from_Ok_inv _ _ _ _ Hnd1 Hfrom) as (_ & Hp & _ & _ & Hidx & _).
  rewrite Hp in Hinit. rewrite <- Hp1 in Hne.
  destruct (master_index_keys (items self1)) as (index & Hmi & Hkeys & Hval).
  rewrite Hmi in Hidx. unfold exp_file in Hidx.
  assert (NoDup (map fst index)) as Hndi by (by rewrite Hkeys).
  destruct (init_extends_index _ _ _ _ _ _ Hinit Hne Hidx Hndi) as ([more Hk] & Ha & _).
  split; [exists more; by rewrite Hk, Hkeys, Hk1|].
  intros name v Hv. pose proof (Hval _ _ Hv) as Hiv.
  destruct (isinstance_Archive v) eqn:Hkind.
  - by apply (Ha name v Hkind).
  - by apply (init_entry_kinds _ _ _ _ _ _ _ _ Hinit Hne Hidx Hndi Hiv).
Qed.

Lemma save_then_init_keeps_names_witness :
  NoDup (map fst (items x_pending))
  ∧ ProjectsConfig.items (projects x_pending) ≠ []
  ∧ x_saved = ((fst (fst x_saved), snd (fst x_saved)), Ok tt)
  ∧ x_loaded = ((fst (fst x_loaded), x_realized), Ok tt)
  ∧ x_rebuilt = (fst x_rebuilt, Ok x_rescanned)
  ∧ ∃ more, map fst (items x_rescanned) = (map fst (items x_pending) ++ more)%list.
Proof.
  assert (Hne : ProjectsConfig.items (projects x_pending) ≠ []) by done.
  assert (Hload : x_loaded = ((fst (fst x_loaded), x_realized), Ok tt))
    by (vm_compute; reflexivity).
  assert (H : x_rebuilt = (fst x_rebuilt, Ok x_rescanned)) by (vm_compute; reflexivity).
  split; [exact x_pending_nodup|]. split; [exact Hne|]. split; [exact x_saved_Ok|].
  split; [exact Hload|]. split; [exact H|].
  exact (proj1 (save_then_init_keeps_names x_world _ _ _ x_pending _ _ _ None
                  x_pending_nodup Hne x_saved_Ok Hload H)).
Defined.

(** ** The path normalizer: [rel_paths] twice *)

Lemma nonempty_comps_good s : Forall good_comp (osp.nonempty_comps s).
Proof.
  unfold osp.nonempty_comps. pose proof (split_comps_no_sep s) as H.
  induction H as [|c comps Hc _ IH]; [constructor|].
  rewrite filter_cons. destruct (decide (c ≠ "")); [|done].
  constructor; [by split|done].
Qed.

Lemma repeat_good n : Forall good_comp (repeat ".." n).
Proof. induction n; constructor; [by split|done]. Qed.

Lemma sepjoin_head c rest :
  c ≠ "" → osp.startswith_sep (osp.sepjoin (c :: rest)) = osp.startswith_sep c
           ∧ osp.sepjoin (c :: rest) ≠ "".
Proof.
  intros Hc. destruct c as [|x c]; [done|]. destruct rest; cbn; done.
Qed.

(** What [relpath] returns is a relative path, and not the empty one. *)
Lemma relpath_rel cwd path start s :
  osp.relpath cwd path start = Ok s → osp.isabs s = false ∧ s ≠ "".
Proof.
  unfold osp.relpath. destruct (negb (truthy path)); [done|].
  destruct (fspath path) as [p|]; cbn [mbind result_bind]; [|done].
  destruct (match start with PNone => Ok "." | _ => fspath start end) as [s0|];
    cbn [mbind result_bind]; [|done].
  set (start_list := osp.nonempty_comps (osp.abspath cwd s0)).
  set (path_list := osp.nonempty_comps (osp.abspath cwd p)).
  set (i := length (osp.commonprefix start_list path_list)).
  assert (Forall good_comp (repeat ".." (length start_list - i) ++ drop i path_list)%list)
    as Hgood.
  { apply Forall_app. split; [apply repeat_good|].
    apply Forall_drop, nonempty_comps_good. }
  destruct (repeat ".." (length start_list - i) ++ drop i path_list)%list as [|c rest];
    [by intros [= <-]|].
  apply Forall_cons in Hgood as [[Hc Hsep] Hrest]. intros [= <-].
  rewrite join_plain; [|done|done|by apply no_sep_endswith].
  destruct (sepjoin_head c rest Hc) as [Hh Hne]. split; [|done].
  unfold osp.isabs. rewrite Hh. by apply no_sep_startswith.
Qed.

Lemma relpath_val_rel cwd root x x' :
  osp.relpath_val cwd x root = Ok x' →
  ∃ s, x' = PStr s ∧ osp.isabs s = false ∧ s ≠ "".
Proof.
  unfold osp.relpath_val. destruct (osp.relpath cwd x root) as [s|] eqn:Hs; [|done].
  intros [= <-]. exists s. split; [done|]. by eapply relpath_rel.
Qed.

(** A relative, non-empty path string is left alone by [rel_paths]. *)
Lemma rel_str_noop f s :
  osp.isabs s = false → s ≠ "" → rewrite_path_value true f (PStr s) = (PStr s, None).
Proof.
  intros Habs Hne. unfold rewrite_path_value. cbn [path_test]. rewrite Habs.
  cbn [Bool.eqb utils.safe_list isinstance_str].
  destruct s as [|c s]; [done|]. cbn [subscript_0].
  unfold osp.isabs_val. cbn [fspath mbind result_bind].
  cbn in Habs. unfold osp.isabs. cbn. by rewrite Habs.
Qed.

Lemma rel_value_idem cwd root v v' :
  rewrite_path_value true (fun x => osp.relpath_val cwd x root) v = (v', None) →
  rewrite_path_value true (fun x => osp.relpath_val cwd x root) v' = (v', None)
  ∧ (isinstance_dict v = false → isinstance_dict v' = false).
Proof.
  set (f := fun x => osp.relpath_val cwd x root).
  unfold rewrite_path_value at 1.
  destruct (path_test true v) eqn:Ht.
  { destruct (f v) as [j|] eqn:Hj; [|done]. intros [= <-].
    apply relpath_val_rel in Hj as (s & -> & Habs & Hne).
    split; [by apply rel_str_noop|done]. }
  destruct (utils.safe_list v) as [|x0 xs] eqn:Hsl; [done|].
  destruct (isinstance_str x0) eqn:Hx0; cycle 1.
  { intros [= <-]. split; [|done].
    unfold rewrite_path_value. by rewrite Ht, Hsl, Hx0. }
  destruct (subscript_0 v) as [v0|] eqn:Hv0; [|done].
  destruct (osp.isabs_val v0) as [a|] eqn:Ha; [|done].
  destruct a; cbn [Bool.eqb]; cycle 1.
  { intros [= <-]. split; [|done].
    unfold rewrite_path_value. by rewrite Ht, Hsl, Hx0, Hv0, Ha. }
  unfold rewrite_items. destruct v; try done.
  destruct (rewrite_each _ l) as [l' e'] eqn:Hl. intros [= <- ->].
  split; [|done].
  apply rewrite_each_Ok_inv in Hl. cbn in Hsl. subst l.
  inversion Hl as [|? x0' ? xs' Hj Hrest]; subst.
  apply relpath_val_rel in Hj as (s & -> & Habs & Hne).
  unfold rewrite_path_value. cbn [path_test utils.safe_list subscript_0 isinstance_str].
  unfold osp.isabs_val. cbn [fspath mbind result_bind]. by rewrite Habs.
Qed.

Lemma rewrite_path_value_failing b f v v' :
  (∀ x, ∃ e, f x = Raise e) →
  rewrite_path_value b f v = (v', None) → v' = v.
Proof.
  intros Hf. unfold rewrite_path_value.
  destruct (path_test b v).
  { destruct (Hf v) as [e ->]. done. }
  destruct (utils.safe_list v) as [|x0 xs] eqn:Hsl; [done|].
  destruct (isinstance_str x0); [|by intros [= <-]].
  destruct (subscript_0 v) as [v0|]; [|done].
  destruct (osp.isabs_val v0) as [a|]; [|done].
  destruct (Bool.eqb a b); [|by intros [= <-]].
  unfold rewrite_items. destruct v; try done.
  cbn in Hsl. subst l. cbn [rewrite_each]. destruct (Hf x0) as [e ->]. done.
Qed.

Lemma relpath_val_dict_root cwd its x : ∃ e, osp.relpath_val cwd x (PDict its) = Raise e.
Proof.
  unfold osp.relpath_val, osp.relpath. destruct (negb (truthy x)); [by eexists|].
  destruct (fspath x); cbn; by eexists.
Qed.

(** With a dictionary for a root, [rel_paths] changes nothing when it
    returns. *)
Lemma rel_paths_dict_root cwd ps d rt pj d1 :
  isinstance_dict rt = true →
  rel_paths cwd ps d rt pj = (d1, None) → d1 = d.
Proof.
  intros Hrt. destruct rt as [| | | | | |rts]; try done. clear Hrt. revert d1.
  induction d as [| | | |s p t _ _|l _|items IH] using pyval_nested_ind;
    intros d1; try done.
  cbn [rel_paths resolve_root].
  destruct (rewrite_dict_items _ _ items) as [items1 e] eqn:Hloop.
  intros [= <- ->]. f_equal.
  apply rewrite_dict_items_Ok_inv in Hloop.
  induction Hloop as [|[k v] [k1 v1] rest rest1 [Hk Hstep] _ IHl]; [done|].
  apply Forall_cons in IH as [IHv IHrest]. cbn in Hk, Hstep, IHv. subst k1.
  rewrite (IHl IHrest). f_equal. f_equal.
  unfold entry_step in Hstep.
  destruct v as [| | | |? ? ?|?|its].
  7:{ by apply IHv. }
  all: destruct (bool_decide (k ∈ paths));
    [ eapply rewrite_path_value_failing; [|exact Hstep];
      intros x; apply relpath_val_dict_root
    | by injection Hstep as <- ].
Qed.

(** What the loop of the normalizer leaves of an entry under a key that
    is not path-like. *)
Lemma rewrite_dict_items_other_key recurse on_path its its' key :
  Forall2 (fun kv kv' => fst kv' = fst kv
                         ∧ entry_step recurse on_path (fst kv) (snd kv) = (snd kv', None))
          its its' →
  key ∉ paths →
  match assoc key its with
  | None => assoc key its' = None
  | Some v =>
    if isinstance_dict v then ∃ v1, assoc key its' = Some v1 ∧ recurse v = (v1, None)
    else assoc key its' = Some v
  end.
Proof.
  intros H Hkey. induction H as [|[k v] [k1 v1] rest rest1 [Hk Hstep] _ IH]; [done|].
  cbn in Hk, Hstep. subst k1. cbn [assoc].
  destruct (decide (key = k)) as [->|Hne].
  - rewrite !bool_decide_true by done. unfold entry_step in Hstep.
    rewrite (bool_decide_false (k ∈ paths)) in Hstep by done.
    destruct v; cbn [isinstance_dict]; try (by injection Hstep as <-).
    by exists v1.
  - by rewrite !bool_decide_false by done.
Qed.

Lemma project_not_path : "project" ∉ paths.
Proof. apply (bool_decide_unpack ("project" ∉ paths)). vm_compute. exact I. Qed.

Lemma root_not_path : "root" ∉ paths.
Proof. apply (bool_decide_unpack ("root" ∉ paths)). vm_compute. exact I. Qed.

(** The root and the project that a call works with are the same after
    the loop, unless the root is a dictionary. *)
Lemma resolve_root_stable ps recurse on_path its its' root pj rt pj' :
  Forall2 (fun kv kv' => fst kv' = fst kv
                         ∧ entry_step recurse on_path (fst kv) (snd kv) = (snd kv', None))
          its its' →
  resolve_root ps its root pj = Ok (rt, pj') →
  isinstance_dict rt = false →
  resolve_root ps its' root pj = Ok (rt, pj').
Proof.
  intros Hloop Hres Hrt.
  pose proof (rewrite_dict_items_other_key _ _ _ _ "project" Hloop project_not_path) as Hp.
  pose proof (rewrite_dict_items_other_key _ _ _ _ "root" Hloop root_not_path) as Hr.
  unfold resolve_root in *.
  destruct root; try done. destruct pj; try done.
  destruct (assoc "project" its) as [v|] eqn:Hv; cbn [default] in *.
  - destruct (isinstance_dict v) eqn:Hd.
    + destruct v; try done.
    + rewrite Hp. cbn [default]. destruct v; try done.
      cbn [dict_getitem mbind result_bind] in *.
      destruct (assoc "root" its) as [u|] eqn:Hu; [|done].
      cbn [mbind result_bind] in Hres. injection Hres as -> <-.
      rewrite Hrt in Hr. by rewrite Hr.
  - rewrite Hp. cbn [default dict_getitem mbind result_bind] in *.
    destruct (assoc "root" its) as [u|] eqn:Hu; [|done].
    cbn [mbind result_bind] in Hres. injection Hres as -> <-.
    rewrite Hrt in Hr. by rewrite Hr.
Qed.

(** Property X12.
    [rel_paths] is idempotent, whatever the root, the project and the
    current directory: when [rel_paths(d, root, project)] returns, a
    second call on its result returns the same document. *)
Theorem rel_paths_idempotent (cwd : string) (ps : list (string * pyval))
    (d root project d1 : pyval) :
  rel_paths cwd ps d root project = (d1, None) →
  rel_paths cwd ps d1 root project = (d1, None).
Proof.
  revert root project d1.
  induction d as [| | | |s p t _ _|l _|items IH] using pyval_nested_ind;
    intros root pj d1; try done.
  cbn [rel_paths].
  destruct (resolve_root ps items root pj) as [[rt pj']|] eqn:Hres; [|done].
  destruct (rewrite_dict_items _ _ items) as [items1 e] eqn:Hloop.
  intros [= <- ->].
  destruct (isinstance_dict rt) eqn:Hrt.
  { assert (PDict items1 = PDict items) as [= ->].
    { apply (rel_paths_dict_root cwd ps (PDict items) rt pj' _ Hrt).
      cbn [rel_paths]. assert (resolve_root ps items rt pj' = Ok (rt, pj')) as ->
        by (by destruct rt).
      by rewrite Hloop. }
    cbn [rel_paths]. by rewrite Hres, Hloop. }
  apply rewrite_dict_items_Ok_inv in Hloop.
  cbn [rel_paths]. rewrite (resolve_root_stable _ _ _ _ _ _ _ _ _ Hloop Hres Hrt).
  rewrite (rewrite_dict_items_Ok _ _ items1 items1); [done|].
  clear -Hloop IH.
  induction Hloop as [|[k v] [k1 v1] rest rest1 [Hk Hstep] _ IHl]; [constructor|].
  apply Forall_cons in IH as [IHv IHrest]. cbn in Hk, Hstep, IHv. subst k1.
  constructor; [|by apply IHl]. split; [done|]. cbn.
  unfold entry_step in Hstep |- *.
  destruct v as [| | | |? ? ?|?|its].
  7:{ pose proof (rel_paths_is_dict cwd ps its rt pj') as Hd.
      rewrite Hstep in Hd. cbn in Hd. destruct v1; try done. by apply IHv. }
  all: destruct (bool_decide (k ∈ paths));
    [ apply rel_value_idem in Hstep as [Hidem Hnd];
      specialize (Hnd eq_refl); destruct v1; done
    | by injection Hstep as <- ].
Qed.

Lemma x_anchored : anchored "/r" c6_doc_abs.
Proof.
  cbn.
  repeat match goal with
         | |- context [bool_decide (?k ∈ paths)] =>
           let b := eval vm_compute in (bool_decide (k ∈ paths)) in
           change (bool_decide (k ∈ paths)) with b
         end.
  cbn iota.
  split; [exact I|]. split; [by exists "a/b"|]. split; [|exact I].
  split; [|by split]. constructor; [by exists "x"|].
  constructor; [by exists "y/z"|]. constructor.
Qed.

Lemma rel_paths_idempotent_witness :
  rel_paths "/" [] c6_doc_abs (PStr "/r") PNone = (c6_doc, None)
  ∧ rel_paths "/" [] c6_doc (PStr "/r") PNone = (c6_doc, None).
Proof.
  assert (H : rel_paths "/" [] c6_doc_abs (PStr "/r") PNone = (c6_doc, None))
    by (vm_compute; reflexivity).
  split; [exact H|].
  exact (rel_paths_idempotent "/" [] c6_doc_abs (PStr "/r") PNone c6_doc H).
Defined.

(** Property X13.
    [fix_paths] called as the module calls it, with the root taken
    from the document or from its project: when that root is an
    absolute path, a second call on the result returns the same
    document. *)
Theorem fix_paths_resolved_root_idempotent (ps items : list (string * pyval))
    (root project project' d1 : pyval) (r : string) :
  resolve_root ps items root project = Ok (PStr r, project') →
  osp.isabs r = true →
  fix_paths ps (PDict items) root project = (d1, None) →
  fix_paths ps d1 root project = (d1, None).
Proof.
  intros Hres Hr. cbn [fix_paths]. rewrite Hres.
  destruct (rewrite_dict_items _ _ items) as [items1 e] eqn:Hloop.
  intros [= <- ->].
  assert (fix_paths ps (PDict items) (PStr r) project' = (PDict items1, None)) as Hexp
    by (cbn [fix_paths resolve_root]; by rewrite Hloop).
  apply fix_paths_idempotent in Hexp; [|done].
  cbn [fix_paths resolve_root] in Hexp.
  apply rewrite_dict_items_Ok_inv in Hloop.
  cbn [fix_paths]. rewrite (resolve_root_stable _ _ _ _ _ _ _ _ _ Hloop Hres eq_refl).
  exact Hexp.
Qed.

Lemma fix_paths_resolved_root_idempotent_witness :
  resolve_root (ProjectsConfig.items c3_projects)
    [("project", PStr "p"); ("outdir", PStr "out")] PNone PNone
  = Ok (PStr "/p", PStr "p")
  ∧ osp.isabs "/p" = true
  ∧ fix_paths (ProjectsConfig.items c3_projects)
      (PDict [("project", PStr "p"); ("outdir", PStr "out")]) PNone PNone
    = (x_document, None)
  ∧ fix_paths (ProjectsConfig.items c3_projects) x_document PNone PNone
    = (x_document, None).
Proof.
  assert (H : fix_paths (ProjectsConfig.items c3_projects)
                (PDict [("project", PStr "p"); ("outdir", PStr "out")]) PNone PNone
              = (x_document, None)) by (vm_compute; reflexivity).
  split; [reflexivity|]. split; [reflexivity|]. split; [exact H|].
  exact (fix_paths_resolved_root_idempotent (ProjectsConfig.items c3_projects)
           [("project", PStr "p"); ("outdir", PStr "out")] PNone PNone (PStr "p")
           x_document "/p" eq_refl eq_refl H).
Defined.

(** ** The path normalizer: from absolute paths and back *)

Lemma rewrite_each_back cwd r l :
  osp.isabs r = true → Forall (anchored_str r) l →
  ∃ l0, rewrite_each (fun x => osp.relpath_val cwd x (PStr r)) l = (l0, None)
        ∧ rewrite_each (osp.join_val (PStr r)) l0 = (l, None)
        ∧ ∀ x xs, l = x :: xs →
            ∃ p ps, l0 = PStr p :: ps ∧ osp.isabs p = false.
Proof.
  intros Hr. induction 1 as [|x l (p & -> & Hp) _ (l0 & Hrel & Hfix & _)].
  - exists []. by repeat split.
  - exists (PStr p :: l0). cbn [rewrite_each].
    unfold osp.join_val at 1, osp.relpath_val at 1. cbn [fspath mbind result_bind].
    rewrite relpath_join by done. cbn [mbind result_bind].
    rewrite (proj1 (plain_rel_not_abs p Hp)).
    rewrite Hfix, Hrel. repeat split.
    intros ? ? _. eexists _, _. split; [done|]. by apply plain_rel_isabs.
Qed.

Lemma back_value cwd r v :
  osp.isabs r = true → isinstance_dict v = false → anchored_value r v →
  ∃ v0, rewrite_path_value true (fun x => osp.relpath_val cwd x (PStr r)) v = (v0, None)
        ∧ rewrite_path_value false (osp.join_val (PStr r)) v0 = (v, None)
        ∧ isinstance_dict v0 = false.
Proof.
  intros Hr Hnd Hv. destruct v as [| | |s| |l|]; try done.
  1-3: by eexists; repeat split.
  - destruct Hv as (p & [= ->] & Hp).
    change (osp.join2 r p) with (osp.join r [p]) in *.
    exists (PStr p). unfold rewrite_path_value. cbn [path_test].
    rewrite join_isabs by done. cbn [Bool.eqb].
    unfold osp.join_val, osp.relpath_val. cbn [fspath mbind result_bind].
    rewrite relpath_join by done. cbn [mbind result_bind path_test].
    rewrite plain_rel_isabs by done. cbn [Bool.eqb].
    by rewrite (proj1 (plain_rel_not_abs p Hp)).
  - destruct l as [|x xs]; [done|]. cbn in Hv.
    destruct (isinstance_str x) eqn:Hx.
    + destruct (rewrite_each_back cwd r (x :: xs) Hr Hv) as (l0 & Hrel & Hfix & Hhead).
      destruct (Hhead x xs eq_refl) as (p0 & ps0 & -> & Hp0).
      apply Forall_cons in Hv as [(p & -> & Hp) _].
      exists (PList (PStr p0 :: ps0)).
      unfold rewrite_path_value. cbn [path_test utils.safe_list isinstance_str subscript_0].
      unfold osp.isabs_val. cbn [fspath mbind result_bind].
      rewrite join_isabs, Hp0 by done. cbn [Bool.eqb rewrite_items].
      by rewrite Hfix, Hrel.
    + exists (PList (x :: xs)). unfold rewrite_path_value.
      cbn [path_test utils.safe_list]. by rewrite Hx.
Qed.

(** Property X14.
    [fix_paths] undoes [rel_paths]: for an absolute root [r] and a
    document whose path-like values, at any depth of nested
    dictionaries, are paths [r/p] with [p] a relative path in normal
    form, non-empty sequences of such paths, or values that neither
    method rewrites, [rel_paths(d, r)] returns and [fix_paths] takes its
    result back to [d]. *)
Theorem rel_then_fix_round_trip (cwd : string) (ps : list (string * pyval))
    (project : pyval) (r : string) (d : pyval) :
  osp.isabs r = true → anchored r d →
  ∃ d0, rel_paths cwd ps d (PStr r) project = (d0, None)
        ∧ fix_paths ps d0 (PStr r) project = (d, None).
Proof.
  intros Hr.
  induction d as [| | | |s p t _ _|l _|items IH] using pyval_nested_ind; try done.
  intros Hd. cbn [anchored] in Hd. cbn [fix_paths rel_paths resolve_root].
  assert (∃ items0,
    rewrite_dict_items (fun val => rel_paths cwd ps val (PStr r) project)
      (rewrite_path_value true (fun v => osp.relpath_val cwd v (PStr r))) items
    = (items0, None)
    ∧ rewrite_dict_items (fun val => fix_paths ps val (PStr r) project)
        (rewrite_path_value false (osp.join_val (PStr r))) items0
      = (items, None)) as (items0 & Hrel & Hfix).
  { clear -IH Hd Hr. induction items as [|[k v] rest IHl].
    - by exists [].
    - apply Forall_cons in IH as [IHv IHrest]. cbn in Hd, IHv. destruct Hd as [Hv Hrest].
      destruct (IHl IHrest Hrest) as (rest0 & Hrel & Hfix).
      assert (∃ v0,
        entry_step (fun val => rel_paths cwd ps val (PStr r) project)
          (rewrite_path_value true (fun v => osp.relpath_val cwd v (PStr r))) k v
        = (v0, None)
        ∧ entry_step (fun val => fix_paths ps val (PStr r) project)
            (rewrite_path_value false (osp.join_val (PStr r))) k v0
          = (v, None)) as (v0 & Hv0 & Hv0').
      { unfold entry_step. destruct (isinstance_dict v) eqn:Hdict.
        - destruct v as [| | | | | |its]; try done.
          destruct (IHv Hv) as (d0 & Hd0 & Hd0').
          exists d0. split; [done|].
          pose proof (rel_paths_is_dict cwd ps its (PStr r) project) as Hisd.
          rewrite Hd0 in Hisd. cbn in Hisd. by destruct d0.
        - destruct (bool_decide (k ∈ paths)).
          + assert (anchored_value r v) as Hrv by (by destruct v).
            destruct (back_value cwd r v Hr Hdict Hrv) as (v0 & H1 & H2 & H3).
            exists v0. by destruct v, v0.
          + exists v. by destruct v. }
      exists ((k, v0) :: rest0).
      rewrite !rewrite_dict_items_cons, Hv0, Hv0', Hfix, Hrel. done. }
  exists (PDict items0). rewrite Hrel. split; [done|].
  cbn [fix_paths resolve_root]. by rewrite Hfix.
Qed.

Lemma rel_then_fix_round_trip_witness :
  osp.isabs "/r" = true
  ∧ anchored "/r" c6_doc_abs
  ∧ ∃ d0, rel_paths "/" [] c6_doc_abs (PStr "/r") PNone = (d0, None)
          ∧ fix_paths [] d0 (PStr "/r") PNone = (c6_doc_abs, None).
Proof.
  split; [reflexivity|]. split; [exact x_anchored|].
  exact (rel_then_fix_round_trip "/" [] PNone "/r" c6_doc_abs eq_refl x_anchored).
Defined.

(** ** The projects registry: saved and constructed anew *)

Lemma project_fname_yml d fname :
  project_fname d = Some fname →
  ∃ dir, fname = osp.join2 dir (".project" ++ ".yml").
Proof.
  unfold project_fname. destruct (project_root d) as [[pp root]|]; [|done].
  intros [= <-]. by eexists.
Qed.

Lemma rename_Ok_frame a b w w' q :
  rename a b w = (w', Ok tt) → q ≠ a → q ≠ b → nodes w' !! q = nodes w !! q.
Proof.
  intros H Ha Hb. apply rename_Ok_nodes in H as (n & _ & Hn & _).
  rewrite Hn. rewrite lookup_insert_ne by done. by rewrite lookup_delete_ne.
Qed.

Lemma projects_save_one_Ok self acc project d_items w w' pp :
  ProjectsConfig.save_one self (PDict acc) (project, PDict d_items) w = (w', Ok pp) →
  ∃ project_path root,
    project_root (PDict d_items) = Some (project_path, root)
    ∧ pp = PDict (assoc_set project project_path acc)
    ∧ nodes w' !! osp.join root [".project"; ".project.yml"]
      = Some (File (Parsed (PDict d_items)))
    ∧ (∀ q c, q ≠ "" → q ≠ osp.join root [".project"; ".project.yml"] →
              q ≠ osp.join root [".project"; ".project.yml"] ++ "~" →
              nodes w !! q = Some (File c) → nodes w' !! q = Some (File c))
    ∧ held w' = held w ∧ cwd w' = cwd w.
Proof.
  unfold ProjectsConfig.save_one. intros H.
  apply bind_Ok in H as (w1 & project_path & Hpp & H).
  unfold of_result in Hpp. injection Hpp as <- Hpp.
  apply bind_Ok in H as (w1 & root & Hroot & H).
  unfold of_result in Hroot. injection Hroot as <- Hroot.
  set (fname := osp.join root [".project"; ".project.yml"]) in *.
  apply bind_Ok in H as (w1 & e1 & Hex & H). rewrite exists_run in Hex.
  injection Hex as <- <-.
  apply bind_Ok in H as (w2 & [] & Hmk & H).
  apply bind_Ok in H as (w3 & e3 & Hex & H). rewrite exists_run in Hex.
  injection Hex as <- <-.
  apply bind_Ok in H as (w4 & [] & Hren & H).
  apply bind_Ok in H as (w5 & [] & Hdump & H).
  unfold of_result in H. cbn in H. injection H as <- <-.
  exists project_path, root. split.
  { change (dict_getitem d_items (PStr "root") = Ok project_path) in Hpp.
    unfold project_root. by rewrite Hpp, Hroot. }
  split; [done|]. split; [by eapply safe_dump_Ok|].
  assert ((∀ q c, q ≠ "" → nodes w !! q = Some (File c) → nodes w2 !! q = Some (File c))
          ∧ held w2 = held w ∧ cwd w2 = cwd w) as (Hkeep2 & Hh2 & Hc2).
  { destruct (path_exists w (osp.dirname fname)); cbn [negb] in Hmk.
    - by injection Hmk as <-.
    - split; [intros q c Hq Hfile; by eapply makedirs_Ok_keeps_files|].
      by apply makedirs_Ok_frame in Hmk. }
  assert ((∀ q, q ≠ fname → q ≠ fname ++ "~" → nodes w4 !! q = nodes w2 !! q)
          ∧ held w4 = held w2 ∧ cwd w4 = cwd w2) as (Hkeep4 & Hh4 & Hc4).
  { match type of Hren with (if ?b then _ else _) _ = _ => destruct b end.
    - split; [intros q Hq Hq'; by rewrite (rename_Ok_frame _ _ _ _ q Hren)|].
      apply rename_Ok_nodes in Hren as (n & _ & _ & Hh & Hc). cbn in Hh, Hc. done.
    - by injection Hren as <-. }
  split.
  { intros q c Hq Hne Hne' Hfile.
    rewrite (safe_dump_Ok_frame _ _ _ _ q Hdump) by done.
    rewrite Hkeep4 by done. by apply Hkeep2. }
  apply safe_dump_Ok_nodes in Hdump as (_ & Hh & Hc). split; congruence.
Qed.

Lemma projects_save_loop self l acc w w' pp :
  Forall (fun kv => isinstance_dict (snd kv) = true) l →
  fold_M l (PDict acc) (ProjectsConfig.save_one self) w = (w', Ok pp) →
  pp = PDict (fold_left (fun a kv => assoc_set (fst kv) (snd kv) a) (roots_index l) acc)
  ∧ Forall2 (fun kv iv => fst iv = fst kv
                          ∧ ∃ root, project_root (snd kv) = Some (snd iv, root))
            l (roots_index l)
  ∧ held w' = held w ∧ cwd w' = cwd w
  ∧ (∀ q c, q ≠ "" →
       (∀ name d fname, (name, d) ∈ l → project_fname d = Some fname →
                        q ≠ fname ∧ q ≠ fname ++ "~") →
       nodes w !! q = Some (File c) → nodes w' !! q = Some (File c))
  ∧ (NoDup (omap (fun kv => project_fname (snd kv)) l) →
     ∀ name d, (name, d) ∈ l →
       ∃ fname, project_fname d = Some fname
                ∧ nodes w' !! fname = Some (File (Parsed d))).
Proof.
  intros Hall. revert acc w.
  induction Hall as [|[project d] rest Hd _ IH]; intros acc w.
  - intros [= <- <-]. split; [done|]. split; [constructor|]. repeat split; try done.
    intros _ name d Hin. by apply elem_of_nil in Hin.
  - cbn [fold_M]. intros H. cbn in Hd.
    destruct d as [| | | | | |d_items]; try discriminate.
    apply bind_Ok in H as (w1 & pp1 & Hone & H).
    apply projects_save_one_Ok in Hone
      as (project_path & root & Hroot & -> & Hwritten & Hframe & Hh1 & Hc1).
    apply IH in H as (-> & Hkeys & Hh & Hc & Hfr & Hfiles).
    assert (Hfn : project_fname (PDict d_items)
                  = Some (osp.join root [".project"; ".project.yml"]))
      by (unfold project_fname; by rewrite Hroot).
    split; [unfold roots_index; cbn [omap list_omap fst snd]; by rewrite Hroot|].
    split; [unfold roots_index in *; cbn [omap list_omap fst snd]; rewrite Hroot;
            constructor; [split; [done|by exists root]|done]|].
    split; [congruence|]. split; [congruence|]. split.
    { intros q c Hq Hoth Hfile. apply Hfr; [done| |].
      - intros name d fname Hin Hfn'. apply (Hoth name d fname); [|done].
        apply elem_of_cons. by right.
      - destruct (Hoth project (PDict d_items) _ ltac:(apply elem_of_cons; by left) Hfn)
          as [Hne Hne'].
        by apply Hframe. }
    intros Hnd name d Hin. cbn [omap list_omap fst snd] in Hnd. rewrite Hfn in Hnd.
    apply NoDup_cons in Hnd as [Hfresh Hnd].
    apply elem_of_cons in Hin as [[= -> ->]|Hin]; [|by apply (Hfiles Hnd name d)].
    eexists. split; [exact Hfn|].
    destruct (project_fname_yml _ _ Hfn) as [dir Hdir].
    apply Hfr; [rewrite Hdir; apply (yml_path_not_backup dir ".project" "")| |done].
    intros name3 d3 fname3 Hin3 Hfn3. split.
    + intros Heq. apply Hfresh. rewrite Heq. apply list_elem_of_omap. by exists (name3, d3).
    + rewrite Hdir. apply yml_path_not_backup.
Qed.

Lemma project_fname_not_index d fname conf_dir :
  project_fname d = Some fname → fname ≠ osp.join conf_dir ["projects.yml"].
Proof.
  unfold project_fname. destruct (project_root d) as [[pp root]|]; [|done].
  intros [= <-] H. apply (f_equal osp.basename) in H.
  change (osp.basename (osp.join (osp.join2 root ".project") [".project.yml"])
          = osp.basename (osp.join conf_dir ["projects.yml"])) in H.
  rewrite !basename_join in H by done. discriminate.
Qed.

Lemma roots_index_keys l :
  Forall2 (fun kv iv => fst iv = fst kv
                        ∧ ∃ root, project_root (snd kv) = Some (snd iv, root))
          l (roots_index l) →
  map fst (roots_index l) = map fst l.
Proof.
  generalize (roots_index l). intros li H.
  induction H as [|kv iv l0 li0 [Hk _] _ IH]; [done|]. cbn. by rewrite Hk, IH.
Qed.

(** A [save] of a registry of documents that returned. *)
Lemma projects_save_Ok_inv w self w' self' :
  Forall (fun kv => isinstance_dict (snd kv) = true) (ProjectsConfig.items self) →
  NoDup (map fst (ProjectsConfig.items self)) →
  ProjectsConfig.save (w, self) = ((w', self'), Ok tt) →
  let index := roots_index (ProjectsConfig.items self) in
  ProjectsConfig.project_paths self' = PDict index
  ∧ ProjectsConfig.items self' = ProjectsConfig.items self
  ∧ ProjectsConfig.conf_dir self' = ProjectsConfig.conf_dir self
  ∧ Forall2 (fun kv iv => fst iv = fst kv
                          ∧ ∃ root, project_root (snd kv) = Some (snd iv, root))
            (ProjectsConfig.items self) index
  ∧ nodes w' !! ProjectsConfig.all_projects self = Some (File (Parsed (PDict index)))
  ∧ held w' = held w
  ∧ (NoDup (omap (fun kv => project_fname (snd kv)) (ProjectsConfig.items self)) →
     ∀ name d, (name, d) ∈ ProjectsConfig.items self →
       ∃ fname, project_fname d = Some fname
                ∧ nodes w' !! fname = Some (File (Parsed d))).
Proof.
  intros Hall Hnd Hsave. cbn zeta. unfold ProjectsConfig.save in Hsave.
  apply bind_Ok in Hsave as ([w1 s1] & self1 & Hget & Hsave).
  injection Hget as <- <- <-.
  apply bind_Ok in Hsave as ([w2 s2] & pp & Hfold & Hsave).
  apply on_fst_inv in Hfold as [Hfold ->].
  apply projects_save_loop in Hfold as (-> & Hrel & Hh & Hc & Hfr & Hfiles); [|done].
  pose proof (roots_index_keys _ Hrel) as Hkeys.
  rewrite fold_assoc_set_fresh in Hsave by (cbn; by rewrite Hkeys). cbn [app] in Hsave.
  apply bind_Ok in Hsave as ([w5 s5] & [] & Hmod & Hsave).
  apply on_snd_inv in Hmod as [Hmod ->]. injection Hmod as <-.
  apply on_fst_inv in Hsave as [Hdump ->]. cbn.
  split; [done|]. split; [done|]. split; [done|]. split; [done|].
  split; [by eapply safe_dump_Ok|].
  pose proof (safe_dump_Ok_nodes _ _ _ _ Hdump) as (_ & Hh' & _).
  split; [congruence|].
  intros Hfnd name d Hin. destruct (Hfiles Hfnd name d Hin) as (fname & Hfn & Hfile).
  exists fname. split; [done|].
  rewrite (safe_dump_Ok_frame _ _ _ _ fname Hdump); [done| |].
  - by eapply project_fname_not_index.
  - destruct (project_fname_yml _ _ Hfn) as [dir ->]. apply yml_path_not_backup.
Qed.

Lemma project_root_subscript d project_path root :
  project_root d = Some (project_path, root) →
  subscript_str d "root" = Ok project_path ∧ fspath project_path = Ok root
  ∧ project_fname d = Some (osp.join root [".project"; ".project.yml"]).
Proof.
  unfold project_fname, project_root. destruct d as [| | | | | |d_items]; try done.
  cbn [subscript_str].
  destruct (dict_getitem d_items (PStr "root")) as [pp|]; [|done].
  destruct (fspath pp) as [r|] eqn:Hr; [|done]. by intros [= <- <-].
Qed.

(** The loop of [ProjectsConfig.__init__] over the index, when the file
    of every project is there. *)
Lemma projects_init_loop (l index : list (string * pyval)) (nodes0 : gmap string node) :
  Forall2 (fun kv iv => fst iv = fst kv
                        ∧ ∃ root, fspath (snd iv) = Ok root
                                  ∧ nodes0 !! osp.join root [".project"; ".project.yml"]
                                    = Some (File (Parsed (snd kv))))
          l index →
  ∀ acc w, nodes w = nodes0 →
  ∃ w',
    fold_M index acc
      (fun self_items pp =>
         let '(project, path) := pp in
         base <- of_result (fspath path) ;;
         doc <- safe_load (PStr (osp.join base [".project"; ".project.yml"])) ;;
         ret (assoc_set project doc self_items)) w
    = (w', Ok (fold_left (fun r kv => assoc_set (fst kv) (snd kv) r) l acc))
    ∧ nodes w' = nodes0 ∧ held w' = held w.
Proof.
  induction 1 as [|[name d] [name' path] l index (Hk & root & Hroot & Hfile) _ IH];
    intros acc w Hw.
  - by exists w.
  - cbn [fst snd] in Hk, Hroot, Hfile. subst name'. cbn [fold_M fold_left fst snd].
    rewrite <- Hw in Hfile.
    destruct (safe_load_Ok_file _ _ _ Hfile) as [w1 Hload].
    pose proof (safe_load_Ok_inv _ _ _ _ Hload) as (_ & _ & _ & Hn1 & Hh1 & _).
    destruct (IH (assoc_set name d acc) w1) as (w' & Hrun & Hn & Hh); [congruence|].
    exists w'. split; [|split; congruence].
    erewrite bind_run_Ok; [exact Hrun|]. cbn beta iota.
    erewrite bind_run_Ok; [|unfold of_result; by rewrite Hroot].
    erewrite bind_run_Ok; [|exact Hload]. reflexivity.
Qed.

Lemma index_files_there (l li : list (string * pyval)) (nodes0 : gmap string node) :
  Forall2 (fun kv iv => fst iv = fst kv
                        ∧ ∃ root, project_root (snd kv) = Some (snd iv, root)) l li →
  (∀ name d, (name, d) ∈ l →
     ∃ fname, project_fname d = Some fname ∧ nodes0 !! fname = Some (File (Parsed d))) →
  Forall2 (fun kv iv => fst iv = fst kv
                        ∧ ∃ root, fspath (snd iv) = Ok root
                                  ∧ nodes0 !! osp.join root [".project"; ".project.yml"]
                                    = Some (File (Parsed (snd kv))))
          l li.
Proof.
  induction 1 as [|[name d] iv l li (Hk & root & Hroot) _ IH]; intros Hfiles;
    [constructor|].
  constructor.
  - split; [done|]. apply project_root_subscript in Hroot as (_ & Hfs & Hfn).
    exists root. split; [done|].
    destruct (Hfiles name d) as (fname & Hfn' & Hfile); [apply elem_of_cons; by left|].
    cbn [snd] in Hfn. rewrite Hfn in Hfn'. by injection Hfn' as <-.
  - apply IH. intros name' d' Hin. apply (Hfiles name' d'). apply elem_of_cons. by right.
Qed.


Lemma x_projects_documents :
  Forall (fun kv => isinstance_dict (snd kv) = true) (ProjectsConfig.items c3_projects).
Proof. by repeat constructor. Qed.

Lemma x_projects_nodup : NoDup (map fst (ProjectsConfig.items c3_projects)).
Proof. decide_by_computation. Qed.






(** ** Assigning an [Archive]: all or nothing *)

Lemma index_entries_raises its m name v e0 :
  (name, v) ∈ its → entry_project v = Raise e0 →
  ∃ e, snd (index_entries its m) = Some e.
Proof.
  intros Hin Hv. destruct (index_entries its m) as [m' [e|]] eqn:Hidx; [by exists e|].
  apply index_entries_Ok_inv in Hidx.
  apply (proj1 (Forall_forall _ _) Hidx) in Hin as [o Ho]. cbn in Ho. congruence.
Qed.

(** Property X17.
    [self[key] = archive] either stores the [Archive] under [key] and
    returns, or raises and leaves every entry as it was; the projects
    are never changed. It raises whenever some entry of the registry is
    a document without a ['project'], because the project index is
    recomputed first. *)
Theorem archive_assignment_all_or_nothing (self : t) (key s : string) (p tm : pyval) :
  let r := __setitem__ key (PArchive s p tm) self in
  projects (fst r) = projects self
  ∧ match snd r with
    | Ok _ => items (fst r) = assoc_set key (PArchive s p tm) (items self)
    | Raise _ => items (fst r) = items self
    end
  ∧ ∀ name d, (name, PDict d) ∈ items self → assoc "project" d = None →
      ∃ e, snd r = Raise e.
Proof.
  cbn zeta. rewrite setitem_archive_run.
  destruct (index_entries (items self) (_project_map self)) as [m [e|]] eqn:Hidx; cbn.
  - split; [done|]. split; [done|]. intros name d Hin Hp. by exists e.
  - split; [done|]. split; [done|]. intros name d Hin Hp. exfalso.
    destruct (index_entries_raises (items self) (_project_map self) name (PDict d) KeyError
                Hin) as [e He].
    { cbn. by rewrite Hp. }
    by rewrite Hidx in He.
Qed.

(** ** Pickling *)

(** Property X18.
    Pickling realizes: when [__reduce__] returns, it has done to the
    registry and to the file store what [load()] does (every pending
    reference has been read from its file), and the arguments it
    returns are the projects, the entries of the registry after that,
    in their order, and the project index. *)
Theorem reduce_realizes_all (w w' : world) (self self' : t)
    (pc : ProjectsConfig.t) (d : list (string * pyval)) (pm : gmap hkey (list string)) :
  NoDup (map fst (items self)) →
  __reduce__ (w, self) = ((w', self'), Ok (pc, d, pm)) →
  load (w, self) = ((w', self'), Ok tt)
  ∧ pc = projects self ∧ d = items self' ∧ pm = _project_map self'.
Proof.
  intros Hnd H. unfold __reduce__ in H.
  apply bind_Ok in H as ([w0 s0] & self0 & Hget & H). injection Hget as <- <- <-.
  apply bind_Ok in H as ([w1 s1] & d1 & Hcopy & H).
  apply bind_Ok in H as ([w2 s2] & self2 & Hget & H). injection Hget as <- <- <-.
  injection H as <- <- <- <- <-.
  unfold copy_realized in Hcopy.
  apply bind_Ok in Hcopy as ([w0 s0] & self0 & Hget & Hcopy). injection Hget as <- <- <-.
  apply copy_loop in Hcopy as (Hload & vals & Hvals & ->); [|done].
  unfold load. erewrite bind_run_Ok; [|reflexivity]. split; [exact Hload|].
  split; [done|]. split; [|done].
  pose proof (load_loop _ _ _ _ _ Hnd Hload) as (_ & _ & _ & Hkeys & _).
  assert (NoDup (map fst (items s1))) as Hnd1 by (by rewrite Hkeys).
  rewrite <- Hkeys in Hvals. apply vals_are_items in Hvals; [|done]. subst vals.
  by apply fold_assoc_set_fresh.
Qed.

Lemma x_reduced_Ok :
  x_reduced = ((fst (fst x_reduced), snd (fst x_reduced)),
               Ok (c3_projects, items x_realized, ∅)).
Proof. vm_compute. reflexivity. Qed.

Lemma reduce_realizes_all_witness :
  NoDup (map fst (items x_pending))
  ∧ x_reduced = ((fst (fst x_reduced), snd (fst x_reduced)),
                 Ok (c3_projects, items x_realized, ∅))
  ∧ load (x_world, x_pending) = ((fst (fst x_reduced), snd (fst x_reduced)), Ok tt)
  ∧ items x_realized = items (snd (fst x_reduced)).
Proof.
  split; [exact x_pending_nodup|]. split; [exact x_reduced_Ok|].
  destruct (reduce_realizes_all x_world _ x_pending _ _ _ _ x_pending_nodup x_reduced_Ok)
    as (Hload & _ & Hd & _).
  by split.
Defined.

Lemma setitem_loop_world found w self :
  fst (fst (for_each found
              (fun kv => on_snd (S := world) (__setitem__ (fst kv) (snd kv))) (w, self)))
  = w.
Proof.
  revert self. induction found as [|[key val] rest IH]; intros self; [done|].
  cbn [for_each]. unfold bind at 1. unfold on_snd at 1. cbn [fst snd].
  destruct (__setitem__ key val self) as [self1 [[]|e]]; [apply IH|done].
Qed.

(** Property X19.
    Rebuilding a pickled registry, that is calling the class on the
    arguments that [__reduce__] returned: no file is touched; over an
    empty [projects] the copy is empty, whatever the registry held; over
    other projects the copy, when the call returns, has the entries the
    registry had after [__reduce__], in the same order, over the same
    projects, and its project index lists what the pickled one
    listed. *)
Theorem experiments_pickle_round_trip (w w' w2 : world) (self self' : t)
    (pc : ProjectsConfig.t) (d : list (string * pyval)) (pm : gmap hkey (list string)) :
  NoDup (map fst (items self)) →
  __reduce__ (w, self) = ((w', self'), Ok (pc, d, pm)) →
  fst (__init__ pc (Some d) (Some pm) w2) = w2
  ∧ (ProjectsConfig.items (projects self) = [] →
     ∃ ec, __init__ pc (Some d) (Some pm) w2 = (w2, Ok ec) ∧ items ec = [])
  ∧ (ProjectsConfig.items (projects self) ≠ [] →
     ∀ ec, __init__ pc (Some d) (Some pm) w2 = (w2, Ok ec) →
       items ec = items self' ∧ projects ec = projects self
       ∧ ∀ k exp, exp ∈ default [] (pm !! k) → exp ∈ default [] (_project_map ec !! k)).
Proof.
  intros Hnd Hred.
  assert (pc = projects self ∧ d = items self'
          ∧ map fst (items self') = map fst (items self)) as (-> & -> & Hkeys).
  { unfold __reduce__ in Hred.
    apply bind_Ok in Hred as ([w0 s0] & self0 & Hget & H). injection Hget as <- <- <-.
    apply bind_Ok in H as ([w1 s1] & d1 & Hcopy & H).
    apply bind_Ok in H as ([w3 s3] & self3 & Hget & H). injection Hget as <- <- <-.
    injection H as <- <- <- <- <-.
    unfold copy_realized in Hcopy.
    apply bind_Ok in Hcopy as ([w0 s0] & self0 & Hget & Hcopy).
    injection Hget as <- <- <-.
    apply copy_loop in Hcopy as (Hload & vals & Hvals & ->); [|done].
    pose proof (load_loop _ _ _ _ _ Hnd Hload) as (_ & _ & _ & Hkeys & _).
    assert (NoDup (map fst (items s1))) as Hnd1 by (by rewrite Hkeys).
    rewrite <- Hkeys in Hvals. apply vals_are_items in Hvals; [|done]. subst vals.
    split; [done|]. split; [|done]. by apply fold_assoc_set_fresh. }
  unfold __init__.
  set (self0 := {| items := []; projects := projects self;
                   _project_map := default ∅ (Some pm) |}).
  split; [|split].
  - destruct (bool_decide (ProjectsConfig.items (projects self) = [])); cbn [negb]; [done|].
    pose proof (setitem_loop_world (items self') w2 self0) as Hw.
    destruct (for_each _ _ (w2, self0)) as [[w3 self3] [[]|e]]; by cbn in *.
  - intros Hempty. rewrite bool_decide_true by done. cbn. by eexists.
  - intros Hne ec. rewrite bool_decide_false by done. cbn [negb].
    destruct (for_each _ _ (w2, self0)) as [[w3 self3] [[]|e]] eqn:Hloop; [|done].
    intros [= -> ->].
    pose proof (setitem_loop_frame _ _ _ _ _ Hloop) as [_ Hp].
    apply setitem_loop in Hloop as [Hit Hmono]. cbn in Hit.
    rewrite fold_assoc_set_fresh in Hit by (cbn; by rewrite Hkeys).
    split; [done|]. split; [done|]. intros k exp Hin. by apply (Hmono k exp).
Qed.

Lemma experiments_pickle_round_trip_witness :
  NoDup (map fst (items x_pending))
  ∧ x_reduced = ((fst (fst x_reduced), snd (fst x_reduced)),
                 Ok (c3_projects, items x_realized, ∅))
  ∧ fst (__init__ c3_projects (Some (items x_realized)) (Some ∅) empty_world)
    = empty_world.
Proof.
  split; [exact x_pending_nodup|]. split; [exact x_reduced_Ok|].
  exact (proj1 (experiments_pickle_round_trip x_world _ empty_world x_pending _ _ _ _
                  x_pending_nodup x_reduced_Ok)).
Defined.

(** Property X20.
    Rebuilding a pickled projects registry, that is calling the class
    on the arguments that [__reduce__] returned: when the call returns,
    the copy has the entries and the configuration directory of the
    registry, no document of a project has been read, nothing has
    changed in the store and no lock is kept; its [project_paths] is
    what [projects.yml] holds at that moment, the empty mapping when
    the file is not there. *)
Theorem projects_pickle_round_trip (w w' : world) (self pc : ProjectsConfig.t) :
  NoDup (map fst (ProjectsConfig.items self)) →
  ProjectsConfig.__init__ (fst (ProjectsConfig.__reduce__ self))
    (Some (snd (ProjectsConfig.__reduce__ self))) w = (w', Ok pc) →
  ProjectsConfig.items pc = ProjectsConfig.items self
  ∧ ProjectsConfig.conf_dir pc = ProjectsConfig.conf_dir self
  ∧ nodes w' = nodes w ∧ held w' = held w
  ∧ ProjectsConfig.project_paths pc
    = match nodes w !! ProjectsConfig.all_projects self with
      | Some (File (Parsed v)) => v
      | _ => PDict []
      end.
Proof.
  intros Hnd. unfold ProjectsConfig.__reduce__, ProjectsConfig.__init__. cbn [fst snd].
  fold (ProjectsConfig.all_projects self). set (fname := ProjectsConfig.all_projects self).
  intros H. apply bind_Ok in H as (w1 & e & Hex & H). rewrite exists_run in Hex.
  injection Hex as <- <-.
  apply bind_Ok in H as (w2 & pp & Hpp & H).
  apply bind_Ok in H as (w3 & its & Hits & H).
  injection Hits as <- <-. injection H as <- <-. cbn.
  rewrite fold_assoc_set_fresh by done. cbn [app].
  split; [done|]. split; [done|].
  destruct (path_exists w fname) eqn:Hexists.
  - apply safe_load_Ok_inv in Hpp as (f & [= <-] & Hfile & Hn & Hh & _).
    cbn in Hfile, Hn, Hh. rewrite Hfile.
    split; [exact Hn|]. split; [exact Hh|]. reflexivity.
  - injection Hpp as <- <-. cbn. split; [reflexivity|]. split; [reflexivity|].
    change (osp.join2 (ProjectsConfig.conf_dir self) "projects.yml") with fname.
    unfold path_exists in Hexists.
    rewrite bool_decide_false in Hexists by (by apply join2_nonempty).
    cbn in Hexists. apply orb_false_iff in Hexists as [_ Hexists].
    apply bool_decide_eq_false in Hexists.
    destruct (nodes w !! fname) eqn:Hnone; [|done].
    exfalso. apply Hexists. eauto.
Qed.

Lemma projects_pickle_round_trip_witness :
  NoDup (map fst (ProjectsConfig.items c3_projects))
  ∧ ProjectsConfig.__init__ (fst (ProjectsConfig.__reduce__ c3_projects))
      (Some (snd (ProjectsConfig.__reduce__ c3_projects))) x_world
    = (fst (ProjectsConfig.__init__ "/c" (Some (ProjectsConfig.items c3_projects))
              x_world), Ok c3_projects)
  ∧ nodes (fst (ProjectsConfig.__init__ "/c" (Some (ProjectsConfig.items c3_projects))
                  x_world)) = nodes x_world.
Proof.
  assert (H : ProjectsConfig.__init__ (fst (ProjectsConfig.__reduce__ c3_projects))
                (Some (snd (ProjectsConfig.__reduce__ c3_projects))) x_world
              = (fst (ProjectsConfig.__init__ "/c"
                        (Some (ProjectsConfig.items c3_projects)) x_world),
                 Ok c3_projects))
    by (vm_compute; reflexivity).
  split; [exact x_projects_nodup|]. split; [exact H|].
  destruct (projects_pickle_round_trip x_world _ c3_projects _ x_projects_nodup H)
    as (_ & _ & Hn & _).
  exact Hn.
Defined.

(** ** The configuration directory *)

Lemma isdir_run p w :
  isdir p w = (w, Ok (negb (bool_decide (p = "")) && is_dir w p)).
Proof. reflexivity. Qed.

Lemma first_dir_run env evars w :
  ∃ r, first_dir env evars w = (w, Ok r)
       ∧ match r with
         | Some h => h ≠ "" ∧ is_dir w h = true
                     ∧ ∃ evar, evar ∈ evars ∧ environ env !! evar = Some h
         | None => ∀ evar path, evar ∈ evars → environ env !! evar = Some path →
                     negb (bool_decide (path = "")) && is_dir w path = false
         end.
Proof.
  induction evars as [|evar rest (r & Hr & Hspec)]; cbn [first_dir].
  - exists None. split; [done|]. intros ? ? H. by apply elem_of_nil in H.
  - assert (match r with
            | Some h => h ≠ "" ∧ is_dir w h = true
                        ∧ ∃ evar0, evar0 ∈ evar :: rest ∧ environ env !! evar0 = Some h
            | None => True
            end) as Hlater.
    { destruct r as [h|]; [|done]. destruct Hspec as (? & ? & evar0 & ? & ?).
      split; [done|]. split; [done|]. exists evar0. split; [|done].
      apply elem_of_cons. by right. }
    destruct (environ env !! evar) as [path|] eqn:Hev.
    + erewrite bind_run_Ok; [|apply isdir_run].
      destruct (negb (bool_decide (path = "")) && is_dir w path) eqn:Hd.
      * exists (Some path). split; [done|].
        apply andb_true_iff in Hd as [Hne Hd].
        split; [by apply negb_true_iff, bool_decide_eq_false in Hne|].
        split; [done|]. exists evar. split; [apply elem_of_cons; by left|done].
      * exists r. split; [done|]. destruct r as [h|]; [done|].
        intros evar' path' Hin Hev'. apply elem_of_cons in Hin as [Heq|Hin];
          [|by eapply Hspec].
        subst evar'. rewrite Hev in Hev'. by injection Hev' as <-.
    + exists r. split; [done|]. destruct r as [h|]; [done|].
      intros evar' path' Hin Hev'. apply elem_of_cons in Hin as [Heq|Hin];
        [|by eapply Hspec].
      subst evar'. rewrite Hev in Hev'. discriminate.
Qed.

Lemma makedirs_Ok_there p w w' :
  makedirs p w = (w', Ok tt) → nodes w' !! p = Some Dir.
Proof.
  unfold makedirs, bind, log, modify, get, raise, set_nodes. cbn.
  match goal with |- context [if ?b then _ else _] => destruct b end; [done|].
  intros [= <-]. cbn. rewrite foldr_insert_dir_lookup. rewrite bool_decide_true; [done|].
  apply elem_of_app. right. by apply list_elem_of_singleton.
Qed.

(** [_get_home] reads and changes nothing; a home it returns is a
    directory. *)
Lemma get_home_run env w :
  fst (_get_home env w) = w
  ∧ ∀ h, snd (_get_home env w) = Ok (Some h) → h ≠ "" ∧ is_dir w h = true.
Proof.
  unfold _get_home.
  destruct (first_dir_run env ["HOME"; "USERPROFILE"; "TMP"] w) as (r & Hr & Hspec).
  destruct (expanduser_home env) as [path| |e].
  - erewrite bind_run_Ok; [|erewrite bind_run_Ok; [reflexivity|apply isdir_run]].
    destruct (negb (bool_decide (path = "")) && is_dir w path) eqn:Hd; cbn beta iota.
    + split; [done|]. intros h [= <-]. apply andb_true_iff in Hd as [Hne Hd].
      split; [|done]. by apply negb_true_iff, bool_decide_eq_false in Hne.
    + rewrite Hr. split; [done|]. cbn [snd]. intros h [= ->].
      by destruct Hspec as (? & ? & _).
  - erewrite bind_run_Ok; [|reflexivity]. cbn beta iota. rewrite Hr. split; [done|].
    cbn [snd]. intros h [= ->]. by destruct Hspec as (? & ? & _).
  - split; [done|]. cbn. done.
Qed.

(** Property X21.
    [get_configdir], when it returns. With the variable
    [<NAME>CONFIGDIR] set, the result is the absolute path of its value
    and nothing is looked up or created, so the directory need not
    exist. Otherwise the result is [<home>/.config/<name>] on Linux and
    macOS and [<home>/.<name>] elsewhere, for a directory [<home>]; it
    exists when the call returns, no file has been replaced and the
    locks held are those held before. *)
Theorem get_configdir_result (env : osenv) (name p : string) (w w' : world) :
  get_configdir env name w = (w', Ok p) →
  match environ env !! (str_upper env name ++ "CONFIGDIR") with
  | Some configdir => p = osp.abspath (cwd w) configdir ∧ w' = w
  | None =>
    path_exists w' p = true
    ∧ (∃ h, h ≠ "" ∧ is_dir w h = true
            ∧ p = osp.join h [if startswith (platform env) "linux"
                                 || startswith (platform env) "darwin"
                              then ".config/" ++ name else "." ++ name])
    ∧ (∀ q c, q ≠ "" → nodes w !! q = Some (File c) → nodes w' !! q = Some (File c))
    ∧ held w' = held w
  end.
Proof.
  unfold get_configdir.
  destruct (environ env !! (str_upper env name ++ "CONFIGDIR")) as [configdir|].
  { by intros [= <- <-]. }
  intros H. apply bind_Ok in H as (w1 & h & Hhome & H).
  destruct (get_home_run env w) as [Hw Hdir]. rewrite Hhome in Hw, Hdir.
  cbn in Hw, Hdir. subst w1.
  destruct h as [h|]; [|done]. destruct (Hdir h eq_refl) as [Hne Hd].
  set (leaf := if startswith (platform env) "linux" || startswith (platform env) "darwin"
               then ".config/" ++ name else "." ++ name).
  assert (p = osp.join h [leaf] ∧
          (e <- exists_ (osp.join h [leaf]) ;;
           (if negb e then makedirs (osp.join h [leaf]) else ret tt) ;;
           ret (osp.join h [leaf])) w = (w', Ok p)) as [-> Hrun].
  { subst leaf. destruct (startswith (platform env) "linux"
                          || startswith (platform env) "darwin");
      split; try done;
      apply bind_Ok in H as (? & ? & _ & H); apply bind_Ok in H as (? & ? & _ & H);
      by injection H. }
  clear H. apply bind_Ok in Hrun as (w1 & e & Hex & H). rewrite exists_run in Hex.
  injection Hex as <- <-. apply bind_Ok in H as (w2 & [] & Hmk & H). injection H as <-.
  assert (leaf ≠ "") as Hleaf by (subst leaf; by destruct (_ || _)).
  change (osp.join2 h leaf) with (osp.join h [leaf]) in Hmk.
  destruct (path_exists w (osp.join h [leaf])) eqn:Hexists; cbn [negb] in Hmk.
  - unfold ret in Hmk. injection Hmk as <-. split; [done|]. split; [by exists h|]. done.
  - split; [|split; [by exists h|split]].
    + apply makedirs_Ok_there in Hmk. unfold path_exists. rewrite Hmk.
      rewrite bool_decide_false by (by apply join2_nonempty).
      rewrite (bool_decide_true (is_Some _)) by eauto. by rewrite orb_true_r.
    + intros q c Hq Hfile. by eapply makedirs_Ok_keeps_files.
    + by apply makedirs_Ok_frame in Hmk as [? _].
Qed.

Lemma get_configdir_result_witness :
  get_configdir x_env_home "org" x_home_world
  = (fst (get_configdir x_env_home "org" x_home_world), Ok "/home/u/.config/org")
  ∧ path_exists (fst (get_configdir x_env_home "org" x_home_world))
      "/home/u/.config/org" = true.
Proof.
  assert (H : get_configdir x_env_home "org" x_home_world
              = (fst (get_configdir x_env_home "org" x_home_world),
                 Ok "/home/u/.config/org"))
    by (vm_compute; reflexivity).
  split; [exact H|].
  exact (proj1 (get_configdir_result x_env_home "org" "/home/u/.config/org"
                  x_home_world _ H)).
Defined.

(** Property X22.
    Without the variable [<NAME>CONFIGDIR] and without a home
    directory ([expanduser] gives no directory and none of [HOME],
    [USERPROFILE], [TMP] names one), [get_configdir] raises [TypeError]
    and changes nothing. *)
Theorem get_configdir_without_home (env : osenv) (name : string) (w : world) :
  environ env !! (str_upper env name ++ "CONFIGDIR") = None →
  match expanduser_home env with
  | Expanded path => negb (bool_decide (path = "")) && is_dir w path = false
  | NoPwdModule => True
  | ExpansionRaises _ => False
  end →
  (∀ evar path, evar ∈ ["HOME"; "USERPROFILE"; "TMP"] →
     environ env !! evar = Some path →
     negb (bool_decide (path = "")) && is_dir w path = false) →
  get_configdir env name w = (w, Raise TypeError).
Proof.
  intros Hvar Hexp Henv. unfold get_configdir. rewrite Hvar.
  assert (_get_home env w = (w, Ok None)) as Hhome.
  { unfold _get_home.
    destruct (first_dir_run env ["HOME"; "USERPROFILE"; "TMP"] w) as (r & Hr & Hspec).
    assert (r = None) as ->.
    { destruct r as [h|]; [|done]. exfalso.
      destruct Hspec as (Hne & Hd & evar & Hin & Hev).
      specialize (Henv evar h Hin Hev). rewrite Hd in Henv.
      rewrite bool_decide_false in Henv by done. done. }
    destruct (expanduser_home env) as [path| |e]; [| |done].
    - erewrite bind_run_Ok; [|erewrite bind_run_Ok; [reflexivity|apply isdir_run]].
      rewrite Hexp. exact Hr.
    - erewrite bind_run_Ok; [|reflexivity]. exact Hr. }
  erewrite bind_run_Ok; [|exact Hhome]. reflexivity.
Qed.

Lemma get_configdir_without_home_witness :
  environ x_env_nohome !! (str_upper x_env_nohome "org" ++ "CONFIGDIR") = None
  ∧ get_configdir x_env_nohome "org" x_home_world = (x_home_world, Raise TypeError).
Proof.
  split; [reflexivity|].
  apply (get_configdir_without_home x_env_nohome "org" x_home_world);
    [reflexivity|exact I|].
  intros evar path _ Hev. cbn in Hev. by rewrite lookup_empty in Hev.
Defined.

(** ** The configuration: saved and constructed anew *)

Lemma yml_path_last dir name : last_ascii (osp.join2 dir (name ++ ".yml")) = Some "l"%char.
Proof. rewrite join2_last by apply yml_name_nonempty. apply yml_name_last. Qed.

Lemma not_backup_of q f : last_ascii q = Some "l"%char → q ≠ f ++ "~".
Proof. intros Hq ->. by rewrite last_ascii_app in Hq. Qed.

Lemma last_ascii_nonempty q c : last_ascii q = Some c → q ≠ "".
Proof. by intros H ->. Qed.

(** What the lines of [ExperimentsConfig.save] after [dict(self)] leave
    alone: a file that is none of the files of the experiments, nor the
    master index, nor a backup. *)
Lemma save_from_Ok_frame w self w' self' q c :
  NoDup (map fst (items self)) →
  save_from (items self) (w, self) = ((w', self'), Ok tt) →
  last_ascii q = Some "l"%char →
  q ∉ omap (fun kv => exp_fname (ProjectsConfig.items (projects self)) (fst kv) (snd kv))
        (items self) →
  q ≠ exp_file self →
  nodes w !! q = Some (File c) → nodes w' !! q = Some (File c).
Proof.
  intros Hnd Hsave Hq Hnot Hidx Hfile.
  set (ps := ProjectsConfig.items (projects self)) in *.
  unfold save_from in Hsave.
  apply bind_Ok in Hsave as ([w1 s1] & [] & Hloop & Hsave).
  assert (Hsnap : ∀ exp d, (exp, d) ∈ items self → assoc exp (items self) = Some d)
    by (intros exp d Hin; by apply assoc_NoDup).
  pose proof (save_loop_Ok _ _ _ _ _ Hloop) as [Hindex _].
  { intros exp d Hin Hd. exists d. split; [by apply Hsnap|by destruct d]. }
  apply save_loop_full in Hloop; [|done|done]. cbn zeta in Hloop. fold ps in Hloop.
  destruct Hloop as (Hp & _ & _ & _ & _ & _ & _ & Hfr & _).
  apply bind_Ok in Hsave as ([w2 s2] & self1 & Hget & Hsave).
  injection Hget as <- <- <-.
  assert (exp_file s1 = exp_file self) as Hf by (unfold exp_file; by rewrite Hp).
  rewrite Hf, Hindex in Hsave.
  apply bind_Ok in Hsave as ([w2 s2] & [] & Hacq & Hsave).
  apply on_fst_inv in Hacq as [Hacq ->].
  apply bind_Ok in Hsave as ([w4 s4] & [] & Hdump & Hsave).
  apply on_fst_inv in Hdump as [Hdump ->].
  apply on_fst_inv in Hsave as [Hrel ->].
  assert (nodes w2 = nodes w1) as Hn2 by (by injection Hacq as <-).
  assert (nodes w' = nodes w4) as Hn' by (by injection Hrel as <-).
  rewrite Hn'. rewrite (safe_dump_Ok_frame _ _ _ _ q Hdump); [|done|by apply not_backup_of].
  rewrite Hn2. apply Hfr; [by eapply last_ascii_nonempty| |done].
  intros exp d fname Hin Hfn. split; [|by apply not_backup_of].
  intros ->. apply Hnot. apply list_elem_of_omap. by exists (exp, d).
Qed.

Lemma on_projects_inv {A} (m : M (world * ProjectsConfig.t) A) w c w' c' (r : result A) :
  Config.on_projects m (w, c) = ((w', c'), r) →
  ∃ p', m (w, Config.projects c) = ((w', p'), r) ∧ c' = Config.set_projects c p'.
Proof.
  unfold Config.on_projects. cbn [fst snd].
  destruct (m (w, Config.projects c)) as [[w1 p1] r1]. intros [= <- <- <-]. by exists p1.
Qed.

Lemma on_experiments_inv {A} (m : M (world * ExperimentsConfig.t) A) w c w' c'
    (r : result A) :
  Config.on_experiments m (w, c) = ((w', c'), r) →
  ∃ e', m (w, Config.experiments c) = ((w', e'), r) ∧ c' = Config.set_experiments c e'.
Proof.
  unfold Config.on_experiments. cbn [fst snd].
  destruct (m (w, Config.experiments c)) as [[w1 e1] r1]. intros [= <- <- <-]. by exists e1.
Qed.

(** [ProjectsConfig(conf_dir)] over an index and the files of the
    projects it lists. *)
Lemma projects_init_from_files (conf_dir : string) (l index : list (string * pyval))
    (w : world) :
  nodes w !! osp.join conf_dir ["projects.yml"] = Some (File (Parsed (PDict index))) →
  Forall2 (fun kv iv => fst iv = fst kv
                        ∧ ∃ root, fspath (snd iv) = Ok root
                                  ∧ nodes w !! osp.join root [".project"; ".project.yml"]
                                    = Some (File (Parsed (snd kv))))
          l index →
  NoDup (map fst l) →
  ∃ w',
    ProjectsConfig.__init__ conf_dir None w
    = (w', Ok {| ProjectsConfig.items := l; ProjectsConfig.conf_dir := conf_dir;
                 ProjectsConfig.project_paths := PDict index |})
    ∧ nodes w' = nodes w ∧ held w' = held w.
Proof.
  intros Hidx Hfiles Hnd.
  set (fname := osp.join conf_dir ["projects.yml"]) in *.
  assert (path_exists w fname = true) as Hex.
  { unfold path_exists. rewrite Hidx.
    rewrite bool_decide_false by (by apply join2_nonempty).
    rewrite (bool_decide_true (is_Some _)) by eauto. by rewrite orb_true_r. }
  set (w1 := {| nodes := nodes w; cwd := cwd w; held := held w;
                trace := (trace w ++ [EvExists fname])%list |}).
  destruct (safe_load_Ok_file fname (PDict index) w1 Hidx) as [w2 Hload].
  pose proof (safe_load_Ok_inv _ _ _ _ Hload) as (_ & _ & _ & Hn2 & Hh2 & _).
  destruct (projects_init_loop l index (nodes w) Hfiles [] w2) as (w3 & Hloop & Hn3 & Hh3);
    [done|].
  rewrite fold_assoc_set_fresh in Hloop by done. cbn [app] in Hloop.
  exists w3. split; [|split; [done|by rewrite Hh3, Hh2]].
  unfold ProjectsConfig.__init__. fold fname.
  erewrite bind_run_Ok; [|apply exists_run]. rewrite Hex. fold w1.
  erewrite bind_run_Ok; [|exact Hload].
  erewrite bind_run_Ok; [reflexivity|].
  erewrite bind_run_Ok; [exact Hloop|reflexivity].
Qed.

Lemma experiments_init_nodes pc pm w w' ec :
  __init__ pc None pm w = (w', Ok ec) → nodes w' = nodes w ∧ projects ec = pc.
Proof.
  intros Hinit. destruct (decide (ProjectsConfig.items pc = [])) as [Hempty|Hne].
  - unfold __init__ in Hinit. rewrite bool_decide_true in Hinit by done.
    cbn in Hinit. by injection Hinit as <- <-.
  - by apply init_scan_Ok_inv in Hinit as (_ & _ & ? & _ & ?).
Qed.

(** A [Config.save] that returned, file by file. *)
Lemma config_save_Ok_inv (w w' : world) (cfg cfg' : Config.t) :
  Forall (fun kv => isinstance_dict (snd kv) = true)
         (ProjectsConfig.items (Config.projects cfg)) →
  NoDup (map fst (ProjectsConfig.items (Config.projects cfg))) →
  NoDup (map fst (items (Config.experiments cfg))) →
  settled (items (Config.experiments cfg)) →
  NoDup (written_files cfg) →
  Config.save (w, cfg) = ((w', cfg'), Ok tt) →
  ∃ index,
    nodes w' !! ProjectsConfig.all_projects (Config.projects cfg)
    = Some (File (Parsed (PDict index)))
    ∧ Forall2 (fun kv iv => fst iv = fst kv
                 ∧ ∃ root, fspath (snd iv) = Ok root
                           ∧ nodes w' !! osp.join root [".project"; ".project.yml"]
                             = Some (File (Parsed (snd kv))))
              (ProjectsConfig.items (Config.projects cfg)) index
    ∧ nodes w' !! exp_file (Config.experiments cfg)
      = Some (File (Parsed (master_index (items (Config.experiments cfg)))))
    ∧ nodes w' !! Config._globals_file cfg
      = Some (File (Parsed (Config.global_config cfg))).
Proof.
  intros Hall Hndp Hnde Hset Hw Hsave.
  set (ps := ProjectsConfig.items (Config.projects cfg)) in *.
  unfold written_files in Hw. fold ps in Hw.
  apply NoDup_app in Hw as (Hpf & Hdisj1 & Hw).
  apply NoDup_app in Hw as (Hef & Hdisj2 & Hw).
  unfold Config.save in Hsave.
  apply bind_Ok in Hsave as ([wa ca] & [] & Hps & Hsave).
  apply on_projects_inv in Hps as (pa & Hps & ->).
  apply bind_Ok in Hsave as ([wb cb] & [] & Hes & Hsave).
  apply on_experiments_inv in Hes as (eb & Hes & ->).
  apply bind_Ok in Hsave as ([wc cc] & self & Hget & Hsave).
  injection Hget as <- <- <-.
  apply on_fst_inv in Hsave as [Hdump ->]. cbn [Config.global_config
    Config._globals_file Config.set_experiments Config.set_projects] in Hdump.
  destruct (projects_save_Ok_inv _ _ _ _ Hall Hndp Hps)
    as (_ & Hita & Hcda & Hrel & Hidx & _ & Hfiles).
  fold ps in Hrel, Hidx, Hfiles, Hita. specialize (Hfiles Hpf).
  set (ea := Config.experiments (Config.set_projects cfg pa)) in *.
  assert (items ea = items (Config.experiments cfg)) as Hitea by done.
  assert (projects ea = pa) as Hpea by done.
  assert (exp_file ea = exp_file (Config.experiments cfg)) as Hefa.
  { unfold exp_file. rewrite Hpea. by rewrite Hcda. }
  assert (Hnde' : NoDup (map fst (items ea))) by (by rewrite Hitea).
  rewrite save_settled in Hes; [|done|by rewrite Hitea].
  pose proof (save_from_Ok_inv _ _ _ _ Hnde' Hes) as (_ & _ & _ & _ & Hmaster & _).
  rewrite Hefa, Hitea in Hmaster.
  (* what the later writes leave alone *)
  assert (Hkeep : ∀ q c, last_ascii q = Some "l"%char →
            q ∈ omap (fun kv => project_fname (snd kv)) ps
            ∨ q = ProjectsConfig.all_projects (Config.projects cfg) →
            nodes wa !! q = Some (File c) → nodes w' !! q = Some (File c)).
  { intros q c Hq Hwhich Hfile.
    rewrite (safe_dump_Ok_frame _ _ _ _ q Hdump); [| |by apply not_backup_of].
    - eapply (save_from_Ok_frame wa ea); [done|exact Hes|done| | |done].
      + rewrite Hpea, Hita, Hitea. fold ps. intros Hin.
        destruct Hwhich as [Hpq| ->].
        * apply (Hdisj1 q Hpq). apply elem_of_app. by left.
        * apply (Hdisj2 _ Hin). apply elem_of_cons. by left.
      + rewrite Hefa. destruct Hwhich as [Hpq| ->].
        * intros ->. apply (Hdisj1 _ Hpq). apply elem_of_app. right.
          apply elem_of_cons. right. apply elem_of_cons. by left.
        * intros Heq. apply NoDup_cons in Hw as [Hnin _]. apply Hnin.
          rewrite Heq. apply elem_of_cons. by left.
    - destruct Hwhich as [Hpq| ->].
      + intros ->. apply (Hdisj1 _ Hpq). apply elem_of_app. right.
        apply elem_of_cons. right. apply elem_of_cons. right. apply elem_of_cons. by left.
      + intros Heq. apply NoDup_cons in Hw as [Hnin _]. apply Hnin.
        rewrite Heq. apply elem_of_cons. right. apply elem_of_cons. by left. }
  exists (roots_index ps). split; [|split; [|split]].
  - apply Hkeep; [exact (yml_path_last _ "projects")|by right|done].
  - clear -Hrel Hfiles Hkeep.
    assert (Hall : ∀ name d, (name, d) ∈ ps →
              ∃ fname, project_fname d = Some fname
                       ∧ nodes w' !! fname = Some (File (Parsed d))).
    { intros name d Hin. destruct (Hfiles name d Hin) as (fname & Hfn & Hfile).
      exists fname. split; [done|]. apply Hkeep; [| |done].
      - destruct (project_fname_yml _ _ Hfn) as [dir ->]. apply yml_path_last.
      - left. apply list_elem_of_omap. by exists (name, d). }
    by apply index_files_there.
  - rewrite (safe_dump_Ok_frame _ _ _ _ _ Hdump); [done| |].
    + intros Heq. apply NoDup_cons in Hw as [_ Hw]. apply NoDup_cons in Hw as [Hnin _].
      apply Hnin. rewrite Heq. apply elem_of_cons. by left.
    + apply not_backup_of. exact (yml_path_last _ "experiments").
  - by eapply safe_dump_Ok.
Qed.

(** Property X23.
    Saved and constructed anew. Take a configuration whose projects are
    all documents and whose experiments are all documents or
    [Archive]s (none is pending), with distinct project names, distinct
    experiment names and pairwise different files to write, and let
    [save()] return. If [get_configdir] then gives the same configuration
    directory without changing the store, a [Config(name)] that
    returns has the same projects with the same documents, in the same
    order, and the same global configuration; and unless there is no
    project, its experiments are the saved ones, in the same order and
    before any other, each [Archive] being what it was. *)
Theorem config_save_then_init (env : osenv) (w w' w1 w'' : world)
    (cfg cfg' cfg2 : Config.t) :
  ProjectsConfig.conf_dir (Config.projects cfg) = Config.conf_dir cfg →
  Config._globals_file cfg = osp.join (Config.conf_dir cfg) ["globals.yml"] →
  Forall (fun kv => isinstance_dict (snd kv) = true)
         (ProjectsConfig.items (Config.projects cfg)) →
  NoDup (map fst (ProjectsConfig.items (Config.projects cfg))) →
  NoDup (map fst (items (Config.experiments cfg))) →
  settled (items (Config.experiments cfg)) →
  NoDup (written_files cfg) →
  Config.save (w, cfg) = ((w', cfg'), Ok tt) →
  get_configdir env (Config.name cfg) w' = (w1, Ok (Config.conf_dir cfg)) →
  nodes w1 = nodes w' →
  Config.__init__ env (Config.name cfg) w' = (w'', Ok cfg2) →
  Config.conf_dir cfg2 = Config.conf_dir cfg
  ∧ ProjectsConfig.items (Config.projects cfg2)
    = ProjectsConfig.items (Config.projects cfg)
  ∧ Config.global_config cfg2 = Config.global_config cfg
  ∧ (ProjectsConfig.items (Config.projects cfg) ≠ [] →
     (∃ more, map fst (items (Config.experiments cfg2))
              = (map fst (items (Config.experiments cfg)) ++ more)%list)
     ∧ ∀ name v, assoc name (items (Config.experiments cfg)) = Some v →
         isinstance_Archive v = true →
         assoc name (items (Config.experiments cfg2)) = Some v).
Proof.
  intros Hcd Hgf Hall Hndp Hnde Hset Hw Hsave Hdir Hn1 Hinit.
  destruct (config_save_Ok_inv _ _ _ _ Hall Hndp Hnde Hset Hw Hsave)
    as (index & Hidx & Hfiles & Hmaster & Hglob).
  unfold Config.__init__ in Hinit.
  apply bind_Ok in Hinit as (w1' & cd & Hdir' & Hinit).
  rewrite Hdir in Hdir'. injection Hdir' as <- <-.
  apply bind_Ok in Hinit as (w2 & pc2 & Hpinit & Hinit).
  apply bind_Ok in Hinit as (w3 & ec2 & Heinit & Hinit).
  apply bind_Ok in Hinit as (w4 & e & Hex & Hinit). rewrite exists_run in Hex.
  injection Hex as <- <-.
  apply bind_Ok in Hinit as (w5 & gc & Hgload & Hinit).
  injection Hinit as <- <-. cbn [Config.conf_dir Config.projects Config.experiments
    Config.global_config].
  (* the projects *)
  unfold ProjectsConfig.all_projects in Hidx. rewrite Hcd in Hidx.
  destruct (projects_init_from_files (Config.conf_dir cfg)
              (ProjectsConfig.items (Config.projects cfg)) index w1)
    as (w2' & Hpinit' & Hn2 & _); [by rewrite Hn1| |done|].
  { eapply Forall2_impl; [exact Hfiles|]. intros kv iv (Hk & root & Hroot & Hfile).
    split; [done|]. exists root. by rewrite Hn1. }
  rewrite Hpinit in Hpinit'. injection Hpinit' as <- ->.
  (* the experiments *)
  pose proof (experiments_init_nodes _ _ _ _ _ Heinit) as [Hn3 Hp3].
  unfold Config.projects at 1. cbn [Config.experiments].
  rewrite Hp3. cbn [ProjectsConfig.items].
  split; [done|]. split; [done|]. split.
  { rewrite Hgf in Hglob. rewrite <- Hn1, <- Hn2, <- Hn3 in Hglob.
    assert (path_exists w3 (osp.join (Config.conf_dir cfg) ["globals.yml"]) = true)
      as Hex.
    { unfold path_exists. rewrite Hglob.
      rewrite bool_decide_false by (by apply join2_nonempty).
      rewrite (bool_decide_true (is_Some _)) by eauto. by rewrite orb_true_r. }
    change (osp.join2 (Config.conf_dir cfg) "globals.yml")
      with (osp.join (Config.conf_dir cfg) ["globals.yml"]) in Hgload.
    rewrite Hex in Hgload.
    apply safe_load_Ok_inv in Hgload as (f & Hf & Hfile & _).
    assert (f = osp.join (Config.conf_dir cfg) ["globals.yml"]) as ->
      by (by injection Hf).
    cbn [nodes] in Hfile. rewrite Hglob in Hfile. by injection Hfile. }
  intros Hne.
  destruct (master_index_keys (items (Config.experiments cfg)))
    as (mi & Hmi & Hkeys & Hval).
  rewrite Hmi in Hmaster. unfold exp_file in Hmaster.
  unfold Config.projects in Hcd. rewrite Hcd in Hmaster.
  rewrite <- Hn1, <- Hn2 in Hmaster.
  assert (NoDup (map fst mi)) as Hndi by (by rewrite Hkeys).
  destruct (init_extends_index _ _ _ _ _ _ Heinit Hne Hmaster Hndi)
    as ([more Hk] & Ha & _).
  split; [exists more; by rewrite Hk, Hkeys|].
  intros name v Hv Hkind. apply (Ha name v Hkind).
  rewrite (Hval _ _ Hv). by rewrite Hkind.
Qed.

Lemma x_config_saved_Ok :
  x_config_saved = ((fst (fst x_config_saved), snd (fst x_config_saved)), Ok tt).
Proof. vm_compute. reflexivity. Qed.

Lemma x_config_built_Ok :
  x_config_built
  = (fst x_config_built,
     Ok {| Config.name := "org"; Config.conf_dir := "/c";
           Config.experiments := x_rescanned;
           Config._globals_file := "/c/globals.yml";
           Config.global_config := PDict [("verbose", PBool true)] |}).
Proof. vm_compute. reflexivity. Qed.

Lemma config_save_then_init_witness :
  x_config_saved = ((fst (fst x_config_saved), snd (fst x_config_saved)), Ok tt)
  ∧ settled (items (Config.experiments x_config))
  ∧ NoDup (written_files x_config)
  ∧ x_config_built
    = (fst x_config_built,
       Ok {| Config.name := "org"; Config.conf_dir := "/c";
             Config.experiments := x_rescanned;
             Config._globals_file := "/c/globals.yml";
             Config.global_config := PDict [("verbose", PBool true)] |})
  ∧ ProjectsConfig.items (projects x_rescanned) = ProjectsConfig.items c3_projects
  ∧ PDict [("verbose", PBool true)] = Config.global_config x_config.
Proof.
  assert (Hw : NoDup (written_files x_config)) by decide_by_computation.
  assert (Hdir : get_configdir x_env_var (Config.name x_config) (fst (fst x_config_saved))
                 = (fst (fst x_config_saved), Ok (Config.conf_dir x_config)))
    by (vm_compute; reflexivity).
  assert (Hset : settled (items (Config.experiments x_config)))
    by (by repeat constructor).
  split; [exact x_config_saved_Ok|]. split; [exact Hset|]. split; [exact Hw|].
  split; [exact x_config_built_Ok|].
  destruct (config_save_then_init x_env_var x_world _ _ _ x_config _ _
              eq_refl eq_refl x_projects_documents x_projects_nodup x_realized_nodup
              Hset Hw x_config_saved_Ok Hdir eq_refl x_config_built_Ok)
    as (_ & Hp & Hg & _).
  by split.
Defined.
